(** * A best-fit heap allocator: shallow embedding of [bf-alloc.c]

    The allocator keeps two doubly-linked lists of block headers (free and
    allocated) inside one [mmap]ed region and grows the heap by pointer
    bumping.  The C code is embedded over a byte-addressed memory so that
    header fields are read and written exactly where the C struct puts
    them (LP64: [next] at offset 0, [prev] at 8, [size] at 16, the one-byte
    [allocated] flag at 24, [sizeof(header_s) = 32], little endian).

    - [size_t] and pointers are 64-bit unsigned values, wrapped by [uw];
    - [intptr_t] is a 64-bit signed value, wrapped by [sw];
    - the [while] loop of [malloc] takes fuel: one unit per iteration;
    - the bump path writes its new header before it tests the cursor
      against [end_addr]: a header that does not lie inside
      [start_addr, end_addr) ends the call in [StoreOutsideRegion];
    - the other loads and stores go through headers that are on the lists
      or through pointers of the caller, and are modelled without page
      protection. *)

From Stdlib Require Import ZArith List Lia Bool Permutation.
Import ListNotations.
Local Open Scope Z_scope.

(** ** Machine integers *)

Module Word.

Definition modulus : Z := 2 ^ 64.
Definition half : Z := 2 ^ 63.

(** Wrap-around of [size_t], [unsigned long] and pointer values. *)
Definition uw (z : Z) : Z := z mod modulus.

(** Wrap-around of [intptr_t] (two's complement). *)
Definition sw (z : Z) : Z := (z + half) mod modulus - half.

Definition is_word (z : Z) : Prop := 0 <= z < modulus.

End Word.
Import Word.

(** ** Byte-addressed memory *)

Definition mem : Type := Z -> Z.

(** Fresh anonymous pages read as zero. *)
Definition zero_mem : mem := fun _ => 0.

Definition byte_of (v i : Z) : Z := (v / 256 ^ i) mod 256.

Definition load8 (m : mem) (a : Z) : Z := m a mod 256.

Definition store8 (m : mem) (a v : Z) : mem :=
  fun x => if x =? a then v mod 256 else m x.

Definition load64 (m : mem) (a : Z) : Z :=
  load8 m a + 256 * (load8 m (a + 1) + 256 * (load8 m (a + 2) + 256 *
  (load8 m (a + 3) + 256 * (load8 m (a + 4) + 256 * (load8 m (a + 5) + 256 *
  (load8 m (a + 6) + 256 * load8 m (a + 7))))))).

Definition store64 (m : mem) (a v : Z) : mem :=
  fun x => if (a <=? x) && (x <? a + 8) then byte_of v (x - a) else m x.

(** [memset(dst, c, n)] *)
Definition memset (m : mem) (dst c n : Z) : mem :=
  fun x => if (dst <=? x) && (x <? dst + n) then c mod 256 else m x.

(** [memcpy(dst, src, n)]; the source bytes are those before the call. *)
Definition memcpy (m : mem) (dst src n : Z) : mem :=
  fun x => if (dst <=? x) && (x <? dst + n) then m (src + (x - dst)) else m x.

(** ** The header structure [header_s] *)

Definition sizeof_header : Z := 32.
Definition off_next : Z := 0.
Definition off_prev : Z := 8.
Definition off_size : Z := 16.
Definition off_allocated : Z := 24.

Definition NULL : Z := 0.

Definition hnext (m : mem) (h : Z) : Z := load64 m (h + off_next).
Definition hprev (m : mem) (h : Z) : Z := load64 m (h + off_prev).
Definition hsize (m : mem) (h : Z) : Z := load64 m (h + off_size).
Definition hallocated (m : mem) (h : Z) : bool :=
  negb (load8 m (h + off_allocated) =? 0).

Definition set_next (m : mem) (h v : Z) : mem := store64 m (h + off_next) v.
Definition set_prev (m : mem) (h v : Z) : mem := store64 m (h + off_prev) v.
Definition set_size (m : mem) (h v : Z) : mem := store64 m (h + off_size) v.
Definition set_allocated (m : mem) (h : Z) (b : bool) : mem :=
  store8 m (h + off_allocated) (if b then 1 else 0).

(** [HEADER_TO_BLOCK] and [BLOCK_TO_HEADER]: the sum of an [intptr_t] and a
    [size_t] is computed in [unsigned long]. *)
Definition HEADER_TO_BLOCK (hp : Z) : Z := uw (hp + sizeof_header).
Definition BLOCK_TO_HEADER (bp : Z) : Z := uw (bp - sizeof_header).

Definition KB (size : Z) : Z := uw (size * 1024).
Definition MB (size : Z) : Z := uw (KB size * 1024).
Definition GB (size : Z) : Z := uw (MB size * 1024).
Definition HEAP_SIZE : Z := GB 2.

(** [MAP_FAILED] is [(void * ) -1]. *)
Definition MAP_FAILED : Z := modulus - 1.

(** ** Global state *)

Record state : Type := mkState {
  free_addr : Z;
  start_addr : Z;
  end_addr : Z;
  free_list_head : Z;
  allocated_list_head : Z;
  heap_mem : mem
}.

Definition initial_state : state :=
  mkState 0 0 0 NULL NULL zero_mem.

Definition with_mem (s : state) (m : mem) : state :=
  mkState (free_addr s) (start_addr s) (end_addr s)
          (free_list_head s) (allocated_list_head s) m.

Definition with_free_addr (s : state) (a : Z) : state :=
  mkState a (start_addr s) (end_addr s)
          (free_list_head s) (allocated_list_head s) (heap_mem s).

Definition with_free_list_head (s : state) (h : Z) : state :=
  mkState (free_addr s) (start_addr s) (end_addr s)
          h (allocated_list_head s) (heap_mem s).

Definition with_allocated_list_head (s : state) (h : Z) : state :=
  mkState (free_addr s) (start_addr s) (end_addr s)
          (free_list_head s) h (heap_mem s).

(** ** Results of a call *)

(** The three uses of [ERROR] in the source, and a store through a header
    pointer that does not lie inside the mapped region. *)
Inductive error : Type :=
  | MmapFailed
  | AllocatedOnFreeList (header : Z)
  | DoubleFree (header : Z)
  | StoreOutsideRegion (header : Z).

(** Modelled from the spec: the macro [ERROR] comes from [safeio.h], which is
    not part of the sources; the spec's fatal-error channel "accepts a
    human-readable message and an optional numeric (address) payload;
    terminates the process".  A call that reaches [ERROR] therefore ends in
    [Fatal] and produces no state.  [StoreOutsideRegion] is the outcome of
    the bump path when it writes a header that does not lie inside
    [start_addr, end_addr): the behaviour is undefined in C, and the
    process receives SIGSEGV where the page is not mapped; no state is
    produced either.  [Loops] is the model's own outcome for a [while] loop
    that was given too little fuel. *)
Inductive outcome (A : Type) : Type :=
  | Ok (a : A)
  | Fatal (e : error)
  | Loops.

Arguments Ok {A} a.
Arguments Fatal {A} e.
Arguments Loops {A}.

Definition bind {A B : Type} (c : outcome A) (k : A -> outcome B) : outcome B :=
  match c with
  | Ok a => k a
  | Fatal e => Fatal e
  | Loops => Loops
  end.

Notation "x <- c ;; k" := (bind c (fun x => k))
  (at level 61, c at next level, right associativity).

(** ** [init] *)

(** [heap] is the address [mmap] hands out on the first call. *)
Definition init (heap : Z) (s : state) : outcome state :=
  if start_addr s =? 0 then
    if heap =? MAP_FAILED then Fatal MmapFailed
    else
      let start := sw heap in
      Ok (mkState start start (sw (start + HEAP_SIZE))
                  (free_list_head s) (allocated_list_head s) (heap_mem s))
  else Ok s.

(** ** [malloc] *)

(** The test of line 176-177: does [current] replace the candidate [best]?
    [best = NULL] is [0]. *)
Definition improves (m : mem) (size current best : Z) : bool :=
  ((best =? NULL) && (size <=? hsize m current))
  || (negb (best =? NULL) && (size <=? hsize m current)
      && (hsize m current <? hsize m best)).

(** The test of line 183: is the candidate of exactly the requested size? *)
Definition exact_fit (m : mem) (size best : Z) : bool :=
  negb (best =? NULL) && (hsize m best =? size).

(** The search loop, lines 166-190. *)
Fixpoint scan (fuel : nat) (m : mem) (size current best : Z) : outcome Z :=
  match fuel with
  | O => Loops
  | S fuel' =>
      if current =? NULL then Ok best
      else if hallocated m current then Fatal (AllocatedOnFreeList current)
      else
        let best' := if improves m size current best then current else best in
        if exact_fit m size best' then Ok best'
        else scan fuel' m size (hnext m current) best'
  end.

(** Removal of [best] from the free list, lines 207-216. *)
Definition unlink_free (s : state) (best : Z) : state :=
  let m := heap_mem s in
  let s1 :=
    if hprev m best =? NULL then with_free_list_head s (hnext m best)
    else with_mem s (set_next m (hprev m best) (hnext m best)) in
  let m1 := heap_mem s1 in
  if negb (hnext m1 best =? NULL)
  then with_mem s1 (set_prev m1 (hnext m1 best) (hprev m1 best))
  else s1.

(** Insertion of header [h] in front of the list whose head is [head]
    (lines 220-228, 249-257 and 325-333): the stores to memory.  The caller
    makes [h] the new head. *)
Definition splice_head (m : mem) (head h : Z) : mem :=
  let m1 := set_next m h head in
  let m2 := set_prev m1 h NULL in
  if negb (hnext m2 h =? NULL) then set_prev m2 (hnext m2 h) h else m2.

(** The reuse path, lines 201-233. *)
Definition reuse (s : state) (best : Z) : state * Z :=
  let s1 := unlink_free s best in
  let m2 := splice_head (heap_mem s1) (allocated_list_head s1) best in
  let m3 := set_allocated m2 best true in
  (with_mem (with_allocated_list_head s1 best) m3, HEADER_TO_BLOCK best).

(** The cursor after padding, line 240. *)
Definition align_up (a : Z) : Z := sw (a + (16 - Z.rem a 16)).

(** The stores and the result of the bump path, lines 240-277. *)
Definition bump_stores (s : state) (size : Z) : state * Z :=
  let s1 := with_free_addr s (align_up (free_addr s)) in
  let header_ptr := uw (free_addr s1) in
  let new_block_ptr := HEADER_TO_BLOCK header_ptr in
  let m1 := splice_head (heap_mem s1) (allocated_list_head s1) header_ptr in
  let m2 := set_size m1 header_ptr size in
  let m3 := set_allocated m2 header_ptr true in
  let s2 := with_mem (with_allocated_list_head s1 header_ptr) m3 in
  let new_free_addr := sw (new_block_ptr + size) in
  if new_free_addr >? end_addr s2 then (s2, NULL)
  else (with_free_addr s2 new_free_addr, new_block_ptr).

(** The 32 bytes of a header at [h] lie inside [start_addr, end_addr), the
    region as the globals record it.  [mmap] hands out user-space
    addresses, below [2^63], where the pointer [h] and the [intptr_t]
    bounds compare as numbers. *)
Definition header_in_region (s : state) (h : Z) : bool :=
  (start_addr s <=? h) && (h + sizeof_header <=? end_addr s).

(** The bump path, lines 235-277.  The stores to the new header (lines
    249-261) come before the test against [end_addr] (line 267): a header
    at the padded cursor that does not lie inside the region is written
    outside it. *)
Definition bump (s : state) (size : Z) : outcome (state * Z) :=
  let header_ptr := uw (align_up (free_addr s)) in
  if header_in_region s header_ptr then Ok (bump_stores s size)
  else Fatal (StoreOutsideRegion header_ptr).

Definition malloc (fuel : nat) (heap : Z) (s0 : state) (size : Z)
  : outcome (state * Z) :=
  s <- init heap s0 ;;
  if size =? 0 then Ok (s, NULL)
  else
    best <- scan fuel (heap_mem s) size (free_list_head s) NULL ;;
    if negb (best =? NULL) then Ok (reuse s best) else bump s size.

(** ** [free] *)

(** Removal of [header_ptr] from the allocated list, lines 309-321. *)
Definition unlink_allocated (s : state) (header_ptr : Z) : state :=
  let m := heap_mem s in
  let m1 :=
    if negb (hnext m header_ptr =? NULL)
    then set_prev m (hnext m header_ptr) (hprev m header_ptr)
    else m in
  let s1 := with_mem s m1 in
  if negb (hprev m1 header_ptr =? NULL)
  then with_mem s1 (set_next m1 (hprev m1 header_ptr) (hnext m1 header_ptr))
  else with_allocated_list_head s1 (hnext m1 header_ptr).

Definition free (s : state) (ptr : Z) : outcome state :=
  if ptr =? NULL then Ok s
  else
    let header_ptr := BLOCK_TO_HEADER ptr in
    if negb (hallocated (heap_mem s) header_ptr) then Fatal (DoubleFree header_ptr)
    else
      let s2 := unlink_allocated s header_ptr in
      let m3 := splice_head (heap_mem s2) (free_list_head s2) header_ptr in
      let m4 := set_allocated m3 header_ptr false in
      Ok (with_mem (with_free_list_head s2 header_ptr) m4).

(** ** [calloc] *)

Definition calloc (fuel : nat) (heap : Z) (s : state) (nmemb size : Z)
  : outcome (state * Z) :=
  let block_size := uw (nmemb * size) in
  r <- malloc fuel heap s block_size ;;
  let '(s1, new_block_ptr) := r in
  if negb (new_block_ptr =? NULL)
  then Ok (with_mem s1 (memset (heap_mem s1) new_block_ptr 0 block_size),
           new_block_ptr)
  else Ok (s1, new_block_ptr).

(** ** [realloc] *)

Definition realloc (fuel : nat) (heap : Z) (s : state) (ptr size : Z)
  : outcome (state * Z) :=
  if ptr =? NULL then malloc fuel heap s size
  else if size =? 0 then
    s1 <- free s ptr ;; Ok (s1, NULL)
  else
    let header_ptr := BLOCK_TO_HEADER ptr in
    if size <=? hsize (heap_mem s) header_ptr then Ok (s, ptr)
    else
      r <- malloc fuel heap s size ;;
      let '(s1, new_block_ptr) := r in
      if negb (new_block_ptr =? NULL) then
        let m2 := memcpy (heap_mem s1) new_block_ptr ptr
                         (hsize (heap_mem s1) header_ptr) in
        s3 <- free (with_mem s1 m2) ptr ;;
        Ok (s3, new_block_ptr)
      else Ok (s1, new_block_ptr).

(** * The vocabulary of the properties *)

(** A pointer handed to the caller by one of the three allocating entry
    points.  The argument of [realloc] is itself a C pointer. *)
Inductive returned_pointer (p : Z) : Prop :=
  | returned_by_malloc fuel heap s size s' :
      malloc fuel heap s size = Ok (s', p) -> returned_pointer p
  | returned_by_calloc fuel heap s nmemb size s' :
      calloc fuel heap s nmemb size = Ok (s', p) -> returned_pointer p
  | returned_by_realloc fuel heap s ptr size s' :
      is_word ptr -> realloc fuel heap s ptr size = Ok (s', p) ->
      returned_pointer p.

(** [path m h l e]: following [next] from [h] visits the non-null headers
    [l], in this order, and arrives at [e]. *)
Fixpoint path (m : mem) (h : Z) (l : list Z) (e : Z) : Prop :=
  match l with
  | [] => h = e
  | x :: l' => h = x /\ x <> NULL /\ path m (hnext m x) l' e
  end.

(** [chain m h l]: the list with head [h] consists of the headers [l] and is
    terminated by [NULL]. *)
Definition chain (m : mem) (h : Z) (l : list Z) : Prop := path m h l NULL.

Definition all_free (m : mem) (l : list Z) : Prop :=
  Forall (fun x => hallocated m x = false) l.

(** The loop body of [scan] on the list [l] of headers it will visit. *)
Fixpoint select_best (m : mem) (size : Z) (l : list Z) (best : Z) : Z :=
  match l with
  | [] => best
  | current :: l' =>
      let best' := if improves m size current best then current else best in
      if exact_fit m size best' then best' else select_best m size l' best'
  end.

(** The header written by the bump path. *)
Definition bump_header (s : state) : Z := uw (align_up (free_addr s)).

(** [back_links m p l]: along [l], each [prev] field names the header
    before it; the first names [p]. *)
Fixpoint back_links (m : mem) (p : Z) (l : list Z) : Prop :=
  match l with
  | [] => True
  | x :: l' => hprev m x = p /\ back_links m x l'
  end.

(** The two lists are null-terminated and doubly linked, no header is on
    both or twice on one, headers on the allocated list are marked
    allocated and headers on the free list are not. *)
Definition lists_invariant (s : state) : Prop :=
  exists fl al : list Z,
    chain (heap_mem s) (free_list_head s) fl /\
    chain (heap_mem s) (allocated_list_head s) al /\
    back_links (heap_mem s) NULL fl /\
    back_links (heap_mem s) NULL al /\
    NoDup (fl ++ al) /\
    Forall (fun h => hallocated (heap_mem s) h = false) fl /\
    Forall (fun h => hallocated (heap_mem s) h = true) al.

(** Two headers that do not overlap. *)
Definition apart (h h' : Z) : Prop := h + 32 <= h' \/ h' + 32 <= h.

Definition block_end (m : mem) (h : Z) : Z := h + sizeof_header + hsize m h.

Definition all_allocated (m : mem) (l : list Z) : Prop :=
  Forall (fun x => hallocated m x = true) l.

(** [heap_wf s fl al]: the free list is [fl], the allocated list is [al];
    both are doubly linked; every block, header and payload, lies between
    address 0 and the cursor; no two blocks overlap. *)
Record heap_wf (s : state) (fl al : list Z) : Prop := {
  wf_start : start_addr s <> 0;
  wf_cursor : 0 <= free_addr s <= end_addr s;
  wf_end : end_addr s < 2 ^ 61;
  wf_free_chain : chain (heap_mem s) (free_list_head s) fl;
  wf_free_back : back_links (heap_mem s) NULL fl;
  wf_alloc_chain : chain (heap_mem s) (allocated_list_head s) al;
  wf_alloc_back : back_links (heap_mem s) NULL al;
  wf_free_flags : all_free (heap_mem s) fl;
  wf_alloc_flags : all_allocated (heap_mem s) al;
  wf_nodup : NoDup (fl ++ al);
  wf_below :
    forall h, In h (fl ++ al) -> 0 < h /\ block_end (heap_mem s) h <= free_addr s;
  wf_apart :
    forall h h', In h (fl ++ al) -> In h' (fl ++ al) -> h <> h' ->
                 block_end (heap_mem s) h <= h' \/ block_end (heap_mem s) h' <= h
}.

(** An address [mmap] can return: the region fits below [2^61]. *)
Definition mapping_ok (heap : Z) : Prop := 0 < heap < 2 ^ 61 - 2 ^ 31.

(** Well formed, or not yet initialised and empty. *)
Definition heap_ok (s : state) (fl al : list Z) : Prop :=
  heap_wf s fl al \/
  (start_addr s = 0 /\ free_list_head s = NULL /\ allocated_list_head s = NULL /\
   fl = [] /\ al = []).

(** [region_ok s fl al]: a well-formed heap inside its mapping: the region
    is [HEAP_SIZE] bytes long, the cursor is not below its start, every
    header is 16-byte aligned and above the start, every block has a
    positive size. *)
Definition region_ok (s : state) (fl al : list Z) : Prop :=
  heap_wf s fl al /\
  start_addr s <= free_addr s /\
  end_addr s = start_addr s + HEAP_SIZE /\
  (forall y, In y (fl ++ al) ->
             y mod 16 = 0 /\ start_addr s < y /\ 0 < hsize (heap_mem s) y).

(** Inside its mapping, or not yet initialised and empty. *)
Definition run_ok (s : state) (fl al : list Z) : Prop :=
  region_ok s fl al \/
  (start_addr s = 0 /\ free_list_head s = NULL /\ allocated_list_head s = NULL /\
   fl = [] /\ al = []).

(** [ptr] is the block of a header on the allocated list. *)
Definition live_block (s : state) (ptr : Z) : Prop :=
  exists al,
    chain (heap_mem s) (allocated_list_head s) al /\
    In (BLOCK_TO_HEADER ptr) al /\
    ptr = BLOCK_TO_HEADER ptr + 32.

(** States reached from the fresh process by completed calls in which
    every request is below [2^62] bytes, every pointer handed to [free] or
    [realloc] is null or a live block, and no request for a positive number
    of bytes is answered with [NULL]; between the calls the client stores
    into the live blocks ([run_store]: memory changes inside one live
    block at most). *)
Inductive good_run (heap : Z) : state -> Prop :=
  | run_start : good_run heap initial_state
  | run_malloc s fuel size s' p :
      good_run heap s ->
      0 <= size < 2 ^ 62 ->
      malloc fuel heap s size = Ok (s', p) ->
      size = 0 \/ p <> NULL ->
      good_run heap s'
  | run_free s ptr s' :
      good_run heap s ->
      ptr = NULL \/ live_block s ptr ->
      free s ptr = Ok s' ->
      good_run heap s'
  | run_calloc s fuel nmemb size s' p :
      good_run heap s ->
      uw (nmemb * size) < 2 ^ 62 ->
      calloc fuel heap s nmemb size = Ok (s', p) ->
      uw (nmemb * size) = 0 \/ p <> NULL ->
      good_run heap s'
  | run_realloc s fuel ptr size s' p :
      good_run heap s ->
      ptr = NULL \/ live_block s ptr ->
      0 <= size < 2 ^ 62 ->
      realloc fuel heap s ptr size = Ok (s', p) ->
      size = 0 \/ p <> NULL ->
      good_run heap s'
  | run_store s ptr m' :
      good_run heap s ->
      live_block s ptr ->
      (forall a, a < ptr \/ ptr + hsize (heap_mem s) (BLOCK_TO_HEADER ptr) <= a ->
                 m' a = heap_mem s a) ->
      good_run heap (with_mem s m').

(** ** Concrete runs used as examples

    The mapping is at address [65536]; [state_after] keeps the state of a
    finished call and falls back on the given state otherwise. *)

Definition example_heap : Z := 65536.

Definition state_after (r : outcome (state * Z)) (otherwise : state) : state :=
  match r with
  | Ok (s, _) => s
  | _ => otherwise
  end.

Definition pointer_after (r : outcome (state * Z)) : option Z :=
  match r with
  | Ok (_, p) => Some p
  | _ => None
  end.

(** [x = malloc(24)] on a fresh process: [x = 65584]. *)
Definition state_x : state :=
  state_after (malloc 1 example_heap initial_state 24) initial_state.

(** The state after [x = malloc(24); free(x)]. *)
Definition state_x_freed : state :=
  match free state_x 65584 with
  | Ok s => s
  | _ => state_x
  end.

Definition after_malloc (s : state) (size : Z) : state :=
  state_after (malloc 8 example_heap s size) s.

Definition after_free (s : state) (ptr : Z) : state :=
  match free s ptr with
  | Ok s' => s'
  | _ => s
  end.

Definition state_xyz : state :=
  after_malloc (after_malloc (after_malloc initial_state 24) 19) 32.

(** The free list after [x = malloc(24); y = malloc(19); z = malloc(32);
    free(z); free(y); free(x)]: the headers [65552] (24 bytes), [65616]
    (19 bytes) and [65680] (32 bytes), in this order from the head. *)
Definition state_three_free : state :=
  after_free (after_free (after_free state_xyz 65712) 65648) 65584.

(** [realloc(x, 3 GB)] after [x = malloc(24)]. *)
Definition state_x_out_of_space : state :=
  state_after (malloc 1 example_heap state_x (3 * 2 ^ 30)) state_x.

(** The state after [malloc(3 GB)], which fails for lack of space, and
    [malloc(8)]. *)
Definition state_phantom : state :=
  after_malloc (after_malloc initial_state (3 * 2 ^ 30)) 8.

(** The states [state_x] and [state_xyz] after the client has stored the
    byte [7] at [x]; the first of them after [free(x)]. *)
Definition state_x_written : state :=
  with_mem state_x (store8 (heap_mem state_x) 65584 7).

Definition state_x_written_freed : state := after_free state_x_written 65584.

Definition state_xyz_written : state :=
  with_mem state_xyz (store8 (heap_mem state_xyz) 65584 7).

(** The state after [malloc(2147483600)] on a fresh process: the block
    ends where the region ends. *)
Definition state_full : state := after_malloc initial_state 2147483600.

(** The calls of [memtest.c], in order; the result lists the pointers
    [x; y; z; a; b; c; d; e] that the program prints. *)
Definition pointer_or_null (r : outcome (state * Z)) : Z :=
  match r with
  | Ok (_, p) => p
  | _ => NULL
  end.

Definition after_realloc (s : state) (ptr size : Z) : state :=
  state_after (realloc 8 example_heap s ptr size) s.

Definition memtest : list Z :=
  let s0 := initial_state in
  let x := pointer_or_null (malloc 8 example_heap s0 24) in
  let s1 := after_malloc s0 24 in
  let y := pointer_or_null (malloc 8 example_heap s1 19) in
  let s2 := after_malloc s1 19 in
  let z := pointer_or_null (malloc 8 example_heap s2 32) in
  let s3 := after_malloc s2 32 in
  let a := pointer_or_null (realloc 8 example_heap s3 x 20) in
  let s4 := after_realloc s3 x 20 in
  let b := pointer_or_null (realloc 8 example_heap s4 x 30) in
  let s5 := after_realloc s4 x 30 in
  let c := pointer_or_null (malloc 8 example_heap s5 19) in
  let s6 := after_malloc s5 19 in
  let s7 := after_free (after_free (after_free s6 c) y) z in
  let d := pointer_or_null (malloc 8 example_heap s7 23) in
  let s8 := after_malloc s7 23 in
  let e := pointer_or_null (malloc 8 example_heap s8 22) in
  [x; y; z; a; b; c; d; e].

(** The calls of [main] in [memtest.c] from an arbitrary state; the result
    lists the pointers [x; y; z; a; b; c; d; e] that the program prints.
    The output itself is not modelled. *)
Definition memtest_from (fuel : nat) (heap : Z) (s0 : state) : outcome (list Z) :=
  r <- malloc fuel heap s0 24 ;;
  let '(s1, x) := r in
  r <- malloc fuel heap s1 19 ;;
  let '(s2, y) := r in
  r <- malloc fuel heap s2 32 ;;
  let '(s3, z) := r in
  r <- realloc fuel heap s3 x 20 ;;
  let '(s4, a) := r in
  r <- realloc fuel heap s4 x 30 ;;
  let '(s5, b) := r in
  r <- malloc fuel heap s5 19 ;;
  let '(s6, c) := r in
  s7 <- free s6 c ;;
  s8 <- free s7 y ;;
  s9 <- free s8 z ;;
  r <- malloc fuel heap s9 23 ;;
  let '(s10, d) := r in
  r <- malloc fuel heap s10 22 ;;
  let '(_, e) := r in
  Ok [x; y; z; a; b; c; d; e].

(** * Properties *)

(** ** Machine integers *)

Lemma modulus_eq : modulus = 18446744073709551616.
Proof. reflexivity. Qed.

Lemma half_eq : half = 9223372036854775808.
Proof. reflexivity. Qed.

Lemma uw_range (z : Z) : 0 <= uw z < modulus.
Proof. unfold uw. apply Z.mod_pos_bound. rewrite modulus_eq. lia. Qed.

Lemma uw_small (z : Z) : 0 <= z < modulus -> uw z = z.
Proof. intros H. unfold uw. apply Z.mod_small. exact H. Qed.


Lemma sw_small (z : Z) : - half <= z < half -> sw z = z.
Proof.
  intros H. unfold sw. rewrite Z.mod_small; [lia|].
  rewrite modulus_eq, half_eq in *. lia.
Qed.

Lemma uw_add_sub (p k : Z) : uw (uw (p + k) - k) = uw p.
Proof.
  unfold uw. rewrite Zminus_mod_idemp_l. f_equal. lia.
Qed.

Lemma uw_sub_add (p k : Z) : uw (uw (p - k) + k) = uw p.
Proof.
  unfold uw. rewrite Zplus_mod_idemp_l. f_equal. lia.
Qed.

(** ** Loads and stores *)

Lemma byte_of_range (v i : Z) : 0 <= byte_of v i < 256.
Proof. unfold byte_of. apply Z.mod_pos_bound. lia. Qed.

Lemma load8_range (m : mem) (a : Z) : 0 <= load8 m a < 256.
Proof. unfold load8. apply Z.mod_pos_bound. lia. Qed.

Lemma load64_range (m : mem) (a : Z) : 0 <= load64 m a < modulus.
Proof.
  unfold load64. rewrite modulus_eq.
  pose proof (load8_range m a). pose proof (load8_range m (a + 1)).
  pose proof (load8_range m (a + 2)). pose proof (load8_range m (a + 3)).
  pose proof (load8_range m (a + 4)). pose proof (load8_range m (a + 5)).
  pose proof (load8_range m (a + 6)). pose proof (load8_range m (a + 7)).
  lia.
Qed.

Lemma load8_store8_same (m : mem) (a v : Z) : load8 (store8 m a v) a = v mod 256.
Proof.
  unfold load8, store8. rewrite Z.eqb_refl. apply Z.mod_mod. lia.
Qed.

Lemma load8_store8_other (m : mem) (a v b : Z) :
  b <> a -> load8 (store8 m a v) b = load8 m b.
Proof.
  intros H. unfold load8, store8.
  destruct (Z.eqb_spec b a); [contradiction | reflexivity].
Qed.

Lemma load8_store64_in (m : mem) (a v b : Z) :
  a <= b < a + 8 -> load8 (store64 m a v) b = byte_of v (b - a).
Proof.
  intros H. unfold load8, store64.
  replace ((a <=? b) && (b <? a + 8)) with true
    by (symmetry; apply andb_true_intro; split;
        [apply Z.leb_le | apply Z.ltb_lt]; lia).
  apply Z.mod_small, byte_of_range.
Qed.

Lemma load8_store64_other (m : mem) (a v b : Z) :
  b < a \/ a + 8 <= b -> load8 (store64 m a v) b = load8 m b.
Proof.
  intros H. unfold load8, store64.
  replace ((a <=? b) && (b <? a + 8)) with false; [reflexivity|].
  symmetry. apply andb_false_iff.
  destruct H; [left; apply Z.leb_gt | right; apply Z.ltb_ge]; lia.
Qed.

Lemma byte_of_succ (v i : Z) :
  0 <= i -> byte_of v (i + 1) = byte_of (v / 256) i.
Proof.
  intros Hi. unfold byte_of.
  rewrite Z.pow_add_r by lia. change (256 ^ 1) with 256.
  rewrite (Z.mul_comm (256 ^ i) 256).
  rewrite <- Z.div_div by (try apply Z.pow_pos_nonneg; lia).
  reflexivity.
Qed.

Lemma bytes_sum (v : Z) :
  byte_of v 0 + 256 * (byte_of v 1 + 256 * (byte_of v 2 + 256 *
  (byte_of v 3 + 256 * (byte_of v 4 + 256 * (byte_of v 5 + 256 *
  (byte_of v 6 + 256 * byte_of v 7)))))) = v mod modulus.
Proof.
  change 1 with (0 + 1). change 2 with (0 + 1 + 1). change 3 with (0 + 1 + 1 + 1).
  change 4 with (0 + 1 + 1 + 1 + 1). change 5 with (0 + 1 + 1 + 1 + 1 + 1).
  change 6 with (0 + 1 + 1 + 1 + 1 + 1 + 1).
  change 7 with (0 + 1 + 1 + 1 + 1 + 1 + 1 + 1).
  rewrite !byte_of_succ by lia.
  unfold byte_of. rewrite !Z.div_1_r.
  change modulus with (256 * (256 * (256 * (256 * (256 * (256 * (256 * 256))))))).
  rewrite !Z.rem_mul_r by lia.
  reflexivity.
Qed.

Lemma load64_store64_same (m : mem) (a v : Z) :
  load64 (store64 m a v) a = uw v.
Proof.
  unfold load64.
  rewrite !load8_store64_in by lia.
  replace (a - a) with 0 by lia. replace (a + 1 - a) with 1 by lia.
  replace (a + 2 - a) with 2 by lia. replace (a + 3 - a) with 3 by lia.
  replace (a + 4 - a) with 4 by lia. replace (a + 5 - a) with 5 by lia.
  replace (a + 6 - a) with 6 by lia. replace (a + 7 - a) with 7 by lia.
  apply bytes_sum.
Qed.

Lemma load64_store64_other (m : mem) (a v b : Z) :
  b + 8 <= a \/ a + 8 <= b -> load64 (store64 m a v) b = load64 m b.
Proof.
  intros H. unfold load64. rewrite !load8_store64_other by lia. reflexivity.
Qed.

Lemma load64_store8_other (m : mem) (a v b : Z) :
  a < b \/ b + 8 <= a -> load64 (store8 m a v) b = load64 m b.
Proof.
  intros H. unfold load64. rewrite !load8_store8_other by lia. reflexivity.
Qed.

(** ** Header/block conversions *)

Lemma HEADER_TO_BLOCK_word (hp : Z) : is_word (HEADER_TO_BLOCK hp).
Proof. apply uw_range. Qed.

Lemma BLOCK_TO_HEADER_word (bp : Z) : is_word (BLOCK_TO_HEADER bp).
Proof. apply uw_range. Qed.

Lemma block_header_block (p : Z) :
  is_word p -> HEADER_TO_BLOCK (BLOCK_TO_HEADER p) = p.
Proof.
  intros H. unfold HEADER_TO_BLOCK, BLOCK_TO_HEADER.
  rewrite uw_sub_add. apply uw_small, H.
Qed.

Lemma header_block_header (h : Z) :
  is_word h -> BLOCK_TO_HEADER (HEADER_TO_BLOCK h) = h.
Proof.
  intros H. unfold HEADER_TO_BLOCK, BLOCK_TO_HEADER.
  rewrite uw_add_sub. apply uw_small, H.
Qed.

Lemma NULL_word : is_word NULL.
Proof. unfold is_word, NULL. rewrite modulus_eq. lia. Qed.

Lemma bump_in_region (s : state) (size : Z) :
  start_addr s <= bump_header s -> bump_header s + 32 <= end_addr s ->
  bump s size = Ok (bump_stores s size).
Proof.
  intros H1 H2. unfold bump, header_in_region, sizeof_header. fold (bump_header s).
  destruct (Z.leb_spec (start_addr s) (bump_header s)); [|lia].
  destruct (Z.leb_spec (bump_header s + 32) (end_addr s)); [reflexivity | lia].
Qed.

Lemma bump_not_in_region (s : state) (size : Z) :
  bump_header s < start_addr s \/ end_addr s < bump_header s + 32 ->
  bump s size = Fatal (StoreOutsideRegion (bump_header s)).
Proof.
  intros H. unfold bump, header_in_region, sizeof_header. fold (bump_header s).
  destruct (Z.leb_spec (start_addr s) (bump_header s));
    destruct (Z.leb_spec (bump_header s + 32) (end_addr s));
    try reflexivity; lia.
Qed.

Lemma bump_ok_inv (s : state) (size : Z) (r : state * Z) :
  bump s size = Ok r ->
  r = bump_stores s size /\
  start_addr s <= bump_header s /\ bump_header s + 32 <= end_addr s.
Proof.
  unfold bump, header_in_region, sizeof_header. fold (bump_header s).
  destruct (Z.leb_spec (start_addr s) (bump_header s));
    destruct (Z.leb_spec (bump_header s + 32) (end_addr s));
    cbn [andb]; try discriminate.
  intros E. inversion E. repeat split; assumption.
Qed.

Lemma bump_result_word (s : state) (size : Z) : is_word (snd (bump_stores s size)).
Proof.
  unfold bump_stores.
  match goal with |- context [if ?c then _ else _] => destruct c end; simpl.
  - apply NULL_word.
  - apply HEADER_TO_BLOCK_word.
Qed.

Lemma malloc_result_word fuel heap s size s' p :
  malloc fuel heap s size = Ok (s', p) -> is_word p.
Proof.
  unfold malloc. destruct (init heap s) as [s0| |]; simpl; try discriminate.
  destruct (size =? 0).
  - intros H. inversion H. apply NULL_word.
  - destruct (scan fuel (heap_mem s0) size (free_list_head s0) NULL) as [b| |];
      simpl; try discriminate.
    destruct (negb (b =? NULL)); intros H.
    + inversion H. apply HEADER_TO_BLOCK_word.
    + apply bump_ok_inv in H. destruct H as (E & _).
      pose proof (bump_result_word s0 size) as Hb.
      rewrite <- E in Hb. exact Hb.
Qed.

Lemma calloc_result_word fuel heap s nmemb size s' p :
  calloc fuel heap s nmemb size = Ok (s', p) -> is_word p.
Proof.
  unfold calloc.
  destruct (malloc fuel heap s (uw (nmemb * size))) as [[s1 q]| |] eqn:E;
    simpl; try discriminate.
  apply malloc_result_word in E.
  destruct (negb (q =? NULL)); intros H; inversion H; subst; exact E.
Qed.

Lemma realloc_result_word fuel heap s ptr size s' p :
  is_word ptr -> realloc fuel heap s ptr size = Ok (s', p) -> is_word p.
Proof.
  intros Hptr. unfold realloc.
  destruct (ptr =? NULL); [apply malloc_result_word|].
  destruct (size =? 0).
  - destruct (free s ptr); simpl; try discriminate.
    intros H; inversion H. apply NULL_word.
  - destruct (size <=? hsize (heap_mem s) (BLOCK_TO_HEADER ptr)).
    + intros H; inversion H; subst. exact Hptr.
    + destruct (malloc fuel heap s size) as [[s1 q]| |] eqn:E;
        simpl; try discriminate.
      apply malloc_result_word in E.
      destruct (negb (q =? NULL)).
      * destruct (free _ ptr); simpl; try discriminate.
        intros H; inversion H; subst. exact E.
      * intros H; inversion H; subst. exact E.
Qed.

(** C9: for every pointer returned by [malloc], [calloc] or [realloc], going
    to its header with [BLOCK_TO_HEADER] and back with [HEADER_TO_BLOCK]
    yields the pointer again, and the header so recovered is itself a fixed
    point of the opposite round trip: the two conversions are mutually
    inverse. *)
Theorem header_block_round_trip (p : Z) :
  returned_pointer p ->
  HEADER_TO_BLOCK (BLOCK_TO_HEADER p) = p /\
  BLOCK_TO_HEADER (HEADER_TO_BLOCK (BLOCK_TO_HEADER p)) = BLOCK_TO_HEADER p.
Proof.
  intros H.
  assert (Hw : is_word p).
  { destruct H as [? ? ? ? ? E | ? ? ? ? ? ? E | ? ? ? ? ? ? Hp E].
    - eapply malloc_result_word; eassumption.
    - eapply calloc_result_word; eassumption.
    - eapply realloc_result_word; eassumption. }
  split.
  - apply block_header_block, Hw.
  - apply header_block_header, BLOCK_TO_HEADER_word.
Qed.

Lemma header_block_round_trip_witness :
  HEADER_TO_BLOCK (BLOCK_TO_HEADER 65584) = 65584 /\
  BLOCK_TO_HEADER (HEADER_TO_BLOCK (BLOCK_TO_HEADER 65584)) = BLOCK_TO_HEADER 65584.
Proof.
  apply (header_block_round_trip 65584).
  eapply (returned_by_malloc 65584 1%nat 65536 initial_state 24).
  reflexivity.
Defined.

Example pointer_x :
  pointer_after (malloc 1 example_heap initial_state 24) = Some 65584.
Proof. vm_compute. reflexivity. Qed.

(** ** [init] *)

Lemma init_initialised (heap : Z) (s : state) :
  start_addr s <> 0 -> init heap s = Ok s.
Proof.
  intros H. unfold init.
  destruct (Z.eqb_spec (start_addr s) 0); [contradiction | reflexivity].
Qed.

Lemma init_first (heap : Z) (s : state) :
  start_addr s = 0 -> heap <> MAP_FAILED ->
  init heap s =
  Ok (mkState (sw heap) (sw heap) (sw (sw heap + HEAP_SIZE))
              (free_list_head s) (allocated_list_head s) (heap_mem s)).
Proof.
  intros H0 Hh. unfold init. rewrite H0. simpl.
  destruct (Z.eqb_spec heap MAP_FAILED); [contradiction | reflexivity].
Qed.

Lemma init_mmap_failed (s : state) :
  start_addr s = 0 -> init MAP_FAILED s = Fatal MmapFailed.
Proof. intros H0. unfold init. rewrite H0. reflexivity. Qed.

(** ** [malloc(0)] *)

(** C3, as stated, fails on a fresh process: [malloc(0)] runs [init] before
    it looks at [size], so the region bounds and the cursor change. *)
Lemma malloc_zero_changes_region :
  exists s' p,
    malloc 1 example_heap initial_state 0 = Ok (s', p) /\
    start_addr s' <> start_addr initial_state /\
    end_addr s' <> end_addr initial_state /\
    free_addr s' <> free_addr initial_state.
Proof.
  eexists. eexists. split; [reflexivity|].
  repeat split; vm_compute; discriminate.
Qed.

(** C3 (amended): when the region is initialised, or [mmap] succeeds,
    [malloc(0)] returns [NULL] and leaves memory and both list heads as they
    were; an initialised state is returned unchanged as a whole, an
    uninitialised one gets its region bounds and cursor from the new
    mapping. *)
Theorem malloc_zero (fuel : nat) (heap : Z) (s : state) :
  start_addr s <> 0 \/ heap <> MAP_FAILED ->
  exists s',
    malloc fuel heap s 0 = Ok (s', NULL) /\
    heap_mem s' = heap_mem s /\
    free_list_head s' = free_list_head s /\
    allocated_list_head s' = allocated_list_head s /\
    (start_addr s <> 0 -> s' = s) /\
    (start_addr s = 0 ->
     start_addr s' = sw heap /\ free_addr s' = sw heap /\
     end_addr s' = sw (sw heap + HEAP_SIZE)).
Proof.
  intros H. unfold malloc.
  destruct (Z.eq_dec (start_addr s) 0) as [E | E].
  - destruct H as [H | H]; [contradiction|].
    rewrite (init_first heap s E H). simpl.
    eexists. split; [reflexivity|]. simpl.
    repeat split; try reflexivity; intros; contradiction.
  - rewrite (init_initialised heap s E). simpl.
    exists s. repeat split; try reflexivity; intros; contradiction.
Qed.

Lemma malloc_zero_witness :
  exists s',
    malloc 1 example_heap initial_state 0 = Ok (s', NULL) /\
    heap_mem s' = heap_mem initial_state /\
    free_list_head s' = free_list_head initial_state /\
    allocated_list_head s' = allocated_list_head initial_state /\
    (start_addr initial_state <> 0 -> s' = initial_state) /\
    (start_addr initial_state = 0 ->
     start_addr s' = sw example_heap /\ free_addr s' = sw example_heap /\
     end_addr s' = sw (sw example_heap + HEAP_SIZE)).
Proof.
  apply (malloc_zero 1 example_heap initial_state).
  right. vm_compute. discriminate.
Defined.

(** On a fresh process whose mapping fails, [malloc(0)] is fatal. *)
Lemma malloc_zero_mmap_failed (fuel : nat) (s : state) :
  start_addr s = 0 -> malloc fuel MAP_FAILED s 0 = Fatal MmapFailed.
Proof. intros H. unfold malloc. rewrite (init_mmap_failed s H). reflexivity. Qed.

(** ** [free] *)

Lemma hallocated_set_allocated (m : mem) (h : Z) (b : bool) :
  hallocated (set_allocated m h b) h = b.
Proof.
  unfold hallocated, set_allocated. rewrite load8_store8_same.
  destruct b; reflexivity.
Qed.

(** After a completed release of a non-null pointer the header is marked
    free: the flag is the last store of [free]. *)
Lemma free_clears_flag (s s' : state) (ptr : Z) :
  ptr <> NULL -> free s ptr = Ok s' ->
  hallocated (heap_mem s') (BLOCK_TO_HEADER ptr) = false.
Proof.
  intros Hp. unfold free.
  destruct (Z.eqb_spec ptr NULL); [contradiction|].
  destruct (negb (hallocated (heap_mem s) (BLOCK_TO_HEADER ptr)));
    [discriminate|].
  intros H. inversion H. simpl. apply hallocated_set_allocated.
Qed.

Lemma free_not_allocated (s : state) (ptr : Z) :
  ptr <> NULL ->
  hallocated (heap_mem s) (BLOCK_TO_HEADER ptr) = false ->
  free s ptr = Fatal (DoubleFree (BLOCK_TO_HEADER ptr)).
Proof.
  intros Hp Ha.
  unfold free. destruct (Z.eqb_spec ptr NULL); [contradiction|].
  rewrite Ha. reflexivity.
Qed.

(** C4: releasing a non-null pointer whose header is marked free ends in the
    fatal double-free error, with no resulting state; releasing [NULL]
    returns at once with the state unchanged. *)
Theorem free_double_release (s : state) (ptr : Z) :
  ptr <> NULL ->
  hallocated (heap_mem s) (BLOCK_TO_HEADER ptr) = false ->
  free s ptr = Fatal (DoubleFree (BLOCK_TO_HEADER ptr)) /\
  free s NULL = Ok s.
Proof.
  intros Hp Ha. split; [|reflexivity].
  apply free_not_allocated; assumption.
Qed.

Lemma free_double_release_witness :
  free state_x_freed 65584 = Fatal (DoubleFree (BLOCK_TO_HEADER 65584)) /\
  free state_x_freed NULL = Ok state_x_freed.
Proof.
  apply (free_double_release state_x_freed 65584).
  - vm_compute. discriminate.
  - vm_compute. reflexivity.
Defined.

(** Releasing the same pointer twice: the second call is fatal. *)
Lemma free_twice (s s' : state) (ptr : Z) :
  ptr <> NULL -> free s ptr = Ok s' ->
  free s' ptr = Fatal (DoubleFree (BLOCK_TO_HEADER ptr)).
Proof.
  intros Hp H.
  apply (free_not_allocated s' ptr Hp (free_clears_flag s s' ptr Hp H)).
Qed.

(** ** [realloc] that does not grow *)

(** C6: [realloc(ptr, size)] with [ptr] non-null, [size > 0] and [size] at
    most the size recorded in the header of [ptr] returns [ptr] and the
    state it was called in. *)
Theorem realloc_no_growth (fuel : nat) (heap : Z) (s : state) (ptr size : Z) :
  ptr <> NULL -> 0 < size ->
  size <= hsize (heap_mem s) (BLOCK_TO_HEADER ptr) ->
  realloc fuel heap s ptr size = Ok (s, ptr).
Proof.
  intros Hp Hs Hle. unfold realloc.
  destruct (Z.eqb_spec ptr NULL); [contradiction|].
  destruct (Z.eqb_spec size 0); [lia|].
  destruct (Z.leb_spec size (hsize (heap_mem s) (BLOCK_TO_HEADER ptr)));
    [reflexivity | lia].
Qed.

Lemma realloc_no_growth_witness :
  realloc 1 example_heap state_x 65584 20 = Ok (state_x, 65584).
Proof.
  apply (realloc_no_growth 1 example_heap state_x 65584 20).
  - vm_compute. discriminate.
  - lia.
  - apply Z.leb_le. vm_compute. reflexivity.
Defined.

(** ** [calloc] *)

Lemma memset_inside (m : mem) (dst c n a : Z) :
  dst <= a < dst + n -> memset m dst c n a = c mod 256.
Proof.
  intros H. unfold memset.
  destruct (Z.leb_spec dst a); [|lia].
  destruct (Z.ltb_spec a (dst + n)); [reflexivity | lia].
Qed.

Lemma memset_outside (m : mem) (dst c n a : Z) :
  a < dst \/ dst + n <= a -> memset m dst c n a = m a.
Proof.
  intros H. unfold memset.
  destruct (Z.leb_spec dst a); [|reflexivity].
  destruct (Z.ltb_spec a (dst + n)); [lia | reflexivity].
Qed.



(** The product is not checked for overflow: [calloc(2^32, 2^32)] asks
    [malloc] for zero bytes. *)
Example calloc_wraps :
  pointer_after (calloc 1 example_heap initial_state (2 ^ 32) (2 ^ 32))
  = Some NULL.
Proof. vm_compute. reflexivity. Qed.

(** ** Linked lists in memory *)

Lemma path_app (m : mem) (l1 l2 : list Z) (h e : Z) :
  path m h (l1 ++ l2) e <-> exists mid, path m h l1 mid /\ path m mid l2 e.
Proof.
  revert h. induction l1 as [|x l1 IH]; intros h; simpl.
  - split.
    + intros H. exists h. split; [reflexivity | exact H].
    + intros (mid & -> & H). exact H.
  - split.
    + intros (Hx & Hn & H). apply IH in H. destruct H as (mid & H1 & H2).
      exists mid. repeat split; assumption.
    + intros (mid & (Hx & Hn & H1) & H2). repeat split; try assumption.
      apply IH. exists mid. split; assumption.
Qed.

Lemma path_nonnull (m : mem) (l : list Z) (h e : Z) :
  path m h l e -> Forall (fun x => x <> NULL) l.
Proof.
  revert h. induction l as [|x l IH]; intros h; simpl.
  - constructor.
  - intros (_ & Hn & H). constructor; [exact Hn | eapply IH, H].
Qed.

(** ** The best-fit search *)

Section Search.

Variable m : mem.
Variable size : Z.

Lemma scan_select (l : list Z) :
  forall (fuel : nat) (current best : Z),
    chain m current l -> all_free m l -> (length l < fuel)%nat ->
    scan fuel m size current best = Ok (select_best m size l best).
Proof.
  induction l as [|x l IH]; intros fuel current best Hc Hf Hlen;
    (destruct fuel as [|fuel]; [simpl in Hlen; lia|]).
  - unfold chain in Hc. simpl in Hc. subst current. reflexivity.
  - unfold chain in Hc. simpl in Hc. destruct Hc as (-> & Hn & Hc).
    inversion Hf as [|? ? Hx Hf']; subst.
    cbn [scan select_best].
    destruct (Z.eqb_spec x NULL); [contradiction|].
    rewrite Hx.
    destruct (exact_fit m size (if improves m size x best then x else best)).
    + reflexivity.
    + apply IH; [exact Hc | exact Hf' | simpl in Hlen; lia].
Qed.

Lemma improves_true (current best : Z) :
  improves m size current best = true ->
  size <= hsize m current /\
  (best <> NULL -> hsize m current < hsize m best).
Proof.
  unfold improves.
  destruct (Z.eqb_spec best NULL); destruct (Z.leb_spec size (hsize m current));
    destruct (Z.ltb_spec (hsize m current) (hsize m best));
    cbn [andb orb negb]; intros Hyp; try discriminate;
    split; try assumption; intros; try contradiction; assumption.
Qed.

Lemma improves_false (current best : Z) :
  improves m size current best = false ->
  size <= hsize m current ->
  best <> NULL /\ hsize m best <= hsize m current.
Proof.
  unfold improves.
  destruct (Z.eqb_spec best NULL); destruct (Z.leb_spec size (hsize m current));
    destruct (Z.ltb_spec (hsize m current) (hsize m best));
    cbn [andb orb negb]; intros Hyp Hle; try discriminate; try lia;
    split; assumption.
Qed.

Lemma exact_fit_true (best : Z) :
  exact_fit m size best = true -> best <> NULL /\ hsize m best = size.
Proof.
  unfold exact_fit.
  destruct (Z.eqb_spec best NULL); destruct (Z.eqb_spec (hsize m best) size);
    cbn [andb negb]; intros Hyp; try discriminate.
  split; assumption.
Qed.

Lemma exact_fit_false (best : Z) :
  exact_fit m size best = false -> best <> NULL -> hsize m best <> size.
Proof.
  unfold exact_fit.
  destruct (Z.eqb_spec best NULL); destruct (Z.eqb_spec (hsize m best) size);
    cbn [andb negb]; intros Hyp Hn; try discriminate; try contradiction.
  assumption.
Qed.

(** What the search returns, from a candidate [best] that is either null
    or strictly larger than the request. *)
Lemma select_best_spec (l : list Z) :
  forall best : Z,
    (best <> NULL -> size < hsize m best) ->
    Forall (fun x => x <> NULL) l ->
    (select_best m size l best = best /\
     Forall (fun x => size <= hsize m x ->
                      best <> NULL /\ hsize m best <= hsize m x) l)
    \/
    (exists l1 l2,
       l = l1 ++ select_best m size l best :: l2 /\
       size <= hsize m (select_best m size l best) /\
       (best <> NULL -> hsize m (select_best m size l best) < hsize m best) /\
       Forall (fun x => size <= hsize m x ->
                        hsize m (select_best m size l best) < hsize m x) l1 /\
       Forall (fun x => size <= hsize m x ->
                        hsize m (select_best m size l best) <= hsize m x) l2).
Proof.
  induction l as [|x l IH]; intros best Hb Hnn.
  - left. split; [reflexivity | constructor].
  - inversion Hnn as [|? ? Hx Hnn']; subst.
    cbn [select_best].
    destruct (improves m size x best) eqn:Ei.
    + apply improves_true in Ei. destruct Ei as [Hle Hlt].
      destruct (exact_fit m size x) eqn:Ee.
      * apply exact_fit_true in Ee. destruct Ee as [_ Ee].
        right. exists [], l. repeat split.
        -- exact Hle.
        -- exact Hlt.
        -- constructor.
        -- apply Forall_forall. intros y _ Hy. lia.
      * pose proof (exact_fit_false x Ee Hx) as Hne.
        destruct (IH x) as [(E & HF) | (l1 & l2 & E & H1 & H2 & H3 & H4)].
        -- intros _. lia.
        -- exact Hnn'.
        -- right. exists [], l. rewrite E. repeat split.
           ++ exact Hle.
           ++ exact Hlt.
           ++ constructor.
           ++ eapply Forall_impl; [|exact HF]. cbv beta.
              intros y Hy Hs. apply Hy, Hs.
        -- right. exists (x :: l1), l2. repeat split.
           ++ simpl. f_equal. exact E.
           ++ exact H1.
           ++ intros Hbn. specialize (H2 Hx). specialize (Hlt Hbn). lia.
           ++ constructor; [intros _; apply H2, Hx | exact H3].
           ++ exact H4.
    + pose proof (improves_false x best Ei) as Hkeep.
      destruct (exact_fit m size best) eqn:Ee.
      * apply exact_fit_true in Ee. destruct Ee as [Hbn Ee].
        specialize (Hb Hbn). lia.
      * destruct (IH best Hb Hnn')
          as [(E & HF) | (l1 & l2 & E & H1 & H2 & H3 & H4)].
        -- left. split; [exact E|]. constructor; [exact Hkeep | exact HF].
        -- right. exists (x :: l1), l2. repeat split.
           ++ simpl. f_equal. exact E.
           ++ exact H1.
           ++ exact H2.
           ++ constructor; [|exact H3].
              intros Hs. destruct (Hkeep Hs) as [Hbn Hbs].
              specialize (H2 Hbn). lia.
           ++ exact H4.
Qed.

Lemma improves_intro (current best : Z) :
  size <= hsize m current ->
  (best <> NULL -> hsize m current < hsize m best) ->
  improves m size current best = true.
Proof.
  intros Hle Hlt. unfold improves.
  destruct (Z.leb_spec size (hsize m current)); [|lia].
  destruct (Z.eqb_spec best NULL) as [E | E]; cbn [andb orb negb];
    [reflexivity|].
  specialize (Hlt E).
  destruct (Z.ltb_spec (hsize m current) (hsize m best)); [reflexivity | lia].
Qed.

Lemma exact_fit_intro (best : Z) :
  best <> NULL -> hsize m best = size -> exact_fit m size best = true.
Proof.
  intros Hn He. unfold exact_fit.
  destruct (Z.eqb_spec best NULL); [contradiction|].
  destruct (Z.eqb_spec (hsize m best) size); [reflexivity | contradiction].
Qed.

Lemma exact_fit_not (best : Z) :
  (best <> NULL -> hsize m best <> size) -> exact_fit m size best = false.
Proof.
  intros H. unfold exact_fit.
  destruct (Z.eqb_spec best NULL); [reflexivity|].
  destruct (Z.eqb_spec (hsize m best) size); [|reflexivity].
  exfalso. apply H; assumption.
Qed.

(** The loop leaves at the first header of exactly the requested size:
    it runs once per header up to and including that one, whatever the
    list looks like behind it. *)
Lemma scan_stops_at_exact (l1 : list Z) :
  forall (current best e : Z),
    path m current l1 e -> e <> NULL ->
    all_free m (l1 ++ [e]) ->
    (best <> NULL -> size < hsize m best) ->
    Forall (fun x => hsize m x <> size) l1 ->
    hsize m e = size ->
    scan (S (length l1)) m size current best = Ok e.
Proof.
  induction l1 as [|x l1 IH]; intros current best e Hp He Hf Hb Hne Hsz.
  - simpl in Hp. subst current. cbn [length scan].
    destruct (Z.eqb_spec e NULL); [contradiction|].
    pose proof (Forall_inv Hf) as Hfe. cbv beta in Hfe. rewrite Hfe.
    rewrite (improves_intro e best);
      [| lia | intros Hbn; specialize (Hb Hbn); lia].
    rewrite exact_fit_intro by assumption. reflexivity.
  - simpl in Hp. destruct Hp as (-> & Hx & Hp).
    unfold all_free in Hf. rewrite <- app_comm_cons in Hf.
    pose proof (Forall_inv Hf) as Hfx. cbv beta in Hfx.
    pose proof (Forall_inv_tail Hf) as Hf'.
    pose proof (Forall_inv Hne) as Hnx. cbv beta in Hnx.
    pose proof (Forall_inv_tail Hne) as Hne'.
    cbn [length]. cbn [scan].
    destruct (Z.eqb_spec x NULL); [contradiction|].
    rewrite Hfx.
    destruct (improves m size x best) eqn:Ei.
    + apply improves_true in Ei. destruct Ei as [Hle _].
      rewrite exact_fit_not by (intros _; exact Hnx).
      apply IH; try assumption. intros _. lia.
    + rewrite exact_fit_not by (intros Hbn; specialize (Hb Hbn); lia).
      apply IH; assumption.
Qed.

End Search.

(** ** [malloc]: the reuse path picks the best fit *)

Lemma malloc_initialised (fuel : nat) (heap : Z) (s : state) (size : Z) :
  start_addr s <> 0 -> size <> 0 ->
  malloc fuel heap s size =
  (best <- scan fuel (heap_mem s) size (free_list_head s) NULL ;;
   if negb (best =? NULL) then Ok (reuse s best) else bump s size).
Proof.
  intros Hs Hz. unfold malloc. rewrite (init_initialised heap s Hs).
  cbn [bind]. destruct (Z.eqb_spec size 0); [contradiction | reflexivity].
Qed.

Lemma reuse_pointer (s : state) (best : Z) :
  snd (reuse s best) = HEADER_TO_BLOCK best.
Proof. reflexivity. Qed.

Lemma reuse_head (s : state) (best : Z) :
  allocated_list_head (fst (reuse s best)) = best.
Proof. reflexivity. Qed.

Lemma reuse_flag (s : state) (best : Z) :
  hallocated (heap_mem (fst (reuse s best))) best = true.
Proof. unfold reuse. cbn [fst with_mem heap_mem]. apply hallocated_set_allocated. Qed.

(** C1: on an initialised allocator whose free list [l] is well formed and
    holds at least one block of size [>= size], [malloc(size)] with
    [size > 0] reuses a block [best] of [l] that is large enough, strictly
    smaller than every sufficient block before it in the list and no larger
    than any sufficient block behind it (the smallest sufficient block,
    the first of them from the head among equals): it returns the block
    address of [best] and makes [best] the allocated head.  When [best]
    has exactly the requested size the loop has run only over the headers
    up to and including [best]. *)
Theorem malloc_best_fit (fuel : nat) (heap : Z) (s : state) (size : Z)
    (l : list Z) :
  start_addr s <> 0 -> 0 < size ->
  chain (heap_mem s) (free_list_head s) l ->
  all_free (heap_mem s) l ->
  Exists (fun x => size <= hsize (heap_mem s) x) l ->
  (length l < fuel)%nat ->
  exists l1 best l2,
    l = l1 ++ best :: l2 /\
    size <= hsize (heap_mem s) best /\
    Forall (fun x => size <= hsize (heap_mem s) x ->
                     hsize (heap_mem s) best < hsize (heap_mem s) x) l1 /\
    Forall (fun x => size <= hsize (heap_mem s) x ->
                     hsize (heap_mem s) best <= hsize (heap_mem s) x) l2 /\
    malloc fuel heap s size = Ok (reuse s best) /\
    snd (reuse s best) = HEADER_TO_BLOCK best /\
    allocated_list_head (fst (reuse s best)) = best /\
    hallocated (heap_mem (fst (reuse s best))) best = true /\
    (hsize (heap_mem s) best = size ->
     malloc (S (length l1)) heap s size = Ok (reuse s best)).
Proof.
  intros Hs Hz Hc Hf Hex Hlen.
  set (m := heap_mem s) in *.
  pose proof (path_nonnull m l _ _ Hc) as Hnn.
  assert (Hnull : NULL <> NULL -> size < hsize m NULL) by (intros C; contradiction).
  destruct (select_best_spec m size l NULL Hnull Hnn)
    as [(E & HF) | (l1 & l2 & E & H1 & _ & H3 & H4)].
  - exfalso. apply Exists_exists in Hex. destruct Hex as (x & Hin & Hx).
    rewrite Forall_forall in HF. destruct (HF x Hin Hx) as [C _].
    apply C. reflexivity.
  - set (best := select_best m size l NULL) in *.
    assert (Hall : Forall (fun x => x <> NULL) (l1 ++ best :: l2))
      by (rewrite <- E; exact Hnn).
    assert (Hbn : best <> NULL).
    { rewrite Forall_forall in Hall. apply Hall, in_elt. }
    exists l1, best, l2.
    assert (Hm : forall f, scan f m size (free_list_head s) NULL = Ok best ->
                           malloc f heap s size = Ok (reuse s best)).
    { intros f Hscan. rewrite malloc_initialised by (try assumption; lia).
      fold m. rewrite Hscan. cbn [bind].
      destruct (Z.eqb_spec best NULL); [contradiction | reflexivity]. }
    repeat split; try assumption.
    + apply Hm. apply scan_select; assumption.
    + apply hallocated_set_allocated.
    + intros Hexact. apply Hm.
      unfold chain in Hc. rewrite E in Hc, Hf.
      apply path_app in Hc. destruct Hc as (mid & Hp1 & Hp2).
      simpl in Hp2. destruct Hp2 as (Hmid & _ & _). rewrite Hmid in Hp1.
      apply scan_stops_at_exact; try assumption.
      * unfold all_free in *. rewrite Forall_app in Hf |- *.
        destruct Hf as [Hf1 Hf2]. split; [exact Hf1|].
        constructor; [exact (Forall_inv Hf2) | constructor].
      * eapply Forall_impl; [|exact H3]. cbv beta. intros x Hx C.
        assert (size <= hsize m x) by lia. specialize (Hx H). lia.
Qed.

Lemma malloc_best_fit_witness :
  exists l1 best l2,
    [65552; 65616; 65680] = l1 ++ best :: l2 /\
    20 <= hsize (heap_mem state_three_free) best /\
    Forall (fun x => 20 <= hsize (heap_mem state_three_free) x ->
                     hsize (heap_mem state_three_free) best
                     < hsize (heap_mem state_three_free) x) l1 /\
    Forall (fun x => 20 <= hsize (heap_mem state_three_free) x ->
                     hsize (heap_mem state_three_free) best
                     <= hsize (heap_mem state_three_free) x) l2 /\
    malloc 4 example_heap state_three_free 20
    = Ok (reuse state_three_free best) /\
    snd (reuse state_three_free best) = HEADER_TO_BLOCK best /\
    allocated_list_head (fst (reuse state_three_free best)) = best /\
    hallocated (heap_mem (fst (reuse state_three_free best))) best = true /\
    (hsize (heap_mem state_three_free) best = 20 ->
     malloc (S (length l1)) example_heap state_three_free 20
     = Ok (reuse state_three_free best)).
Proof.
  apply (malloc_best_fit 4 example_heap state_three_free 20
                         [65552; 65616; 65680]).
  - vm_compute. discriminate.
  - lia.
  - unfold chain. cbn [path].
    repeat split; vm_compute; (reflexivity || discriminate).
  - repeat constructor; vm_compute; reflexivity.
  - apply Exists_cons_hd. apply Z.leb_le. vm_compute. reflexivity.
  - simpl. lia.
Defined.

(** The examples of the demonstration program: with free blocks of 24, 19
    and 32 bytes a request for 20 bytes gets the 24-byte block; a request
    for 19 bytes stops at the exact fit, the second header, with two units
    of fuel. *)
Example best_fit_20 :
  pointer_after (malloc 4 example_heap state_three_free 20) = Some 65584.
Proof. vm_compute. reflexivity. Qed.

Example best_fit_19_stops :
  pointer_after (malloc 2 example_heap state_three_free 19) = Some 65648.
Proof. vm_compute. reflexivity. Qed.

(** The demonstration program behaves as its messages announce: [a] is
    [x], [b] is a new block, [c] and [d] are the block [x] had, [e] is the
    block [z] had. *)
Example memtest_pointers :
  memtest = [65584; 65648; 65712; 65584; 65792; 65584; 65584; 65712].
Proof. vm_compute. reflexivity. Qed.

(** ** [malloc]: the bump path *)

Lemma select_best_none (m : mem) (size : Z) (l : list Z) :
  Forall (fun x => x <> NULL) l ->
  Forall (fun x => hsize m x < size) l ->
  select_best m size l NULL = NULL.
Proof.
  intros Hnn Hsmall.
  assert (Hnull : NULL <> NULL -> size < hsize m NULL) by (intros C; contradiction).
  destruct (select_best_spec m size l NULL Hnull Hnn)
    as [(E & _) | (l1 & l2 & E & H1 & _)]; [exact E|].
  exfalso. rewrite Forall_forall in Hsmall.
  assert (Hin : In (select_best m size l NULL) l)
    by (rewrite E at 2; apply in_elt).
  specialize (Hsmall _ Hin). lia.
Qed.

(** With no sufficient block on the free list, [malloc] bumps. *)
Lemma malloc_bump (fuel : nat) (heap : Z) (s s0 : state) (size : Z)
    (l : list Z) :
  init heap s = Ok s0 -> size <> 0 ->
  chain (heap_mem s0) (free_list_head s0) l ->
  all_free (heap_mem s0) l ->
  Forall (fun x => hsize (heap_mem s0) x < size) l ->
  (length l < fuel)%nat ->
  malloc fuel heap s size = bump s0 size.
Proof.
  intros Hi Hz Hc Hf Hsmall Hlen. unfold malloc. rewrite Hi. cbn [bind].
  destruct (Z.eqb_spec size 0); [contradiction|].
  rewrite (scan_select (heap_mem s0) size l) by assumption.
  rewrite select_best_none by (try assumption; eapply path_nonnull; exact Hc).
  reflexivity.
Qed.

Lemma bump_head (s : state) (size : Z) :
  allocated_list_head (fst (bump_stores s size)) = bump_header s.
Proof.
  unfold bump_stores.
  match goal with |- context [if ?c then _ else _] => destruct c end;
    reflexivity.
Qed.

Lemma bump_frame (s : state) (size : Z) :
  start_addr (fst (bump_stores s size)) = start_addr s /\
  end_addr (fst (bump_stores s size)) = end_addr s /\
  free_list_head (fst (bump_stores s size)) = free_list_head s.
Proof.
  unfold bump_stores.
  match goal with |- context [if ?c then _ else _] => destruct c end;
    repeat split; reflexivity.
Qed.

Lemma bump_mem (s : state) (size : Z) :
  heap_mem (fst (bump_stores s size)) =
  set_allocated
    (set_size (splice_head (heap_mem s) (allocated_list_head s) (bump_header s))
              (bump_header s) size)
    (bump_header s) true.
Proof.
  unfold bump_stores.
  match goal with |- context [if ?c then _ else _] => destruct c end;
    reflexivity.
Qed.

Lemma bump_flag (s : state) (size : Z) :
  hallocated (heap_mem (fst (bump_stores s size))) (bump_header s) = true.
Proof. rewrite bump_mem. apply hallocated_set_allocated. Qed.

Lemma bump_size (s : state) (size : Z) :
  is_word size ->
  hsize (heap_mem (fst (bump_stores s size))) (bump_header s) = size.
Proof.
  intros Hw. rewrite bump_mem. unfold hsize, set_allocated, set_size.
  rewrite load64_store8_other by (unfold off_allocated, off_size; lia).
  rewrite load64_store64_same. apply uw_small, Hw.
Qed.

(** The two ways out of the bump path, lines 266-275. *)
Lemma bump_out_of_space (s : state) (size : Z) :
  sw (HEADER_TO_BLOCK (bump_header s) + size) > end_addr s ->
  snd (bump_stores s size) = NULL /\
  free_addr (fst (bump_stores s size)) = align_up (free_addr s).
Proof.
  intros H. unfold bump_stores. cbn [with_mem with_allocated_list_head with_free_addr
    free_addr start_addr end_addr free_list_head allocated_list_head heap_mem].
  fold (bump_header s).
  rewrite Z.gtb_ltb.
  destruct (Z.ltb_spec (end_addr s) (sw (HEADER_TO_BLOCK (bump_header s) + size)));
    [split; reflexivity | lia].
Qed.

Lemma bump_fits (s : state) (size : Z) :
  sw (HEADER_TO_BLOCK (bump_header s) + size) <= end_addr s ->
  snd (bump_stores s size) = HEADER_TO_BLOCK (bump_header s) /\
  free_addr (fst (bump_stores s size)) = sw (HEADER_TO_BLOCK (bump_header s) + size).
Proof.
  intros H. unfold bump_stores. cbn [with_mem with_allocated_list_head with_free_addr
    free_addr start_addr end_addr free_list_head allocated_list_head heap_mem].
  fold (bump_header s).
  rewrite Z.gtb_ltb.
  destruct (Z.ltb_spec (end_addr s) (sw (HEADER_TO_BLOCK (bump_header s) + size)));
    [lia | split; reflexivity].
Qed.

(** *** The padding of the cursor *)

Lemma align_up_nonneg (a : Z) :
  0 <= a < half - 16 ->
  align_up a = a + (16 - a mod 16) /\
  1 <= align_up a - a <= 16 /\
  align_up a mod 16 = 0.
Proof.
  intros Ha. unfold align_up.
  rewrite Z.rem_mod_nonneg by lia.
  pose proof (Z.mod_pos_bound a 16 ltac:(lia)) as Hm.
  rewrite sw_small by (rewrite half_eq in *; lia).
  repeat split; try lia.
  pose proof (Z.div_mod a 16 ltac:(lia)) as Hd.
  replace (a + (16 - a mod 16)) with ((a / 16 + 1) * 16) by lia.
  apply Z.mod_mul. lia.
Qed.


(** With a negative cursor the padding is not between 1 and 16 bytes: [%]
    on a negative [intptr_t] is negative. *)
Example align_up_negative : align_up (65649 - 2 ^ 63) - (65649 - 2 ^ 63) = 31.
Proof. vm_compute. reflexivity. Qed.

(** At the top of the [intptr_t] range the padded cursor wraps. *)
Example align_up_wraps : align_up (2 ^ 63 - 8) = - 2 ^ 63.
Proof. vm_compute. reflexivity. Qed.







(** ** Which bytes a call writes *)

Lemma store64_outside (m : mem) (b v a : Z) :
  a < b \/ b + 8 <= a -> store64 m b v a = m a.
Proof.
  intros H. unfold store64.
  destruct (Z.leb_spec b a); [|reflexivity].
  destruct (Z.ltb_spec a (b + 8)); [lia | reflexivity].
Qed.

Lemma store8_outside (m : mem) (b v a : Z) :
  a <> b -> store8 m b v a = m a.
Proof.
  intros H. unfold store8. destruct (Z.eqb_spec a b); [contradiction | reflexivity].
Qed.

Lemma load8_ext (m m' : mem) (a : Z) :
  m' a = m a -> load8 m' a = load8 m a.
Proof. intros H. unfold load8. rewrite H. reflexivity. Qed.

Lemma load64_ext (m m' : mem) (a : Z) :
  (forall i, a <= i < a + 8 -> m' i = m i) -> load64 m' a = load64 m a.
Proof.
  intros H. unfold load64.
  rewrite !(load8_ext m m') by (apply H; lia). reflexivity.
Qed.

Lemma hnext_ext (m m' : mem) (h : Z) :
  (forall i, h <= i < h + 8 -> m' i = m i) -> hnext m' h = hnext m h.
Proof.
  intros H. unfold hnext, off_next. apply load64_ext.
  intros i Hi. apply H. lia.
Qed.

Lemma hprev_ext (m m' : mem) (h : Z) :
  (forall i, h + 8 <= i < h + 16 -> m' i = m i) -> hprev m' h = hprev m h.
Proof.
  intros H. unfold hprev, off_prev. apply load64_ext.
  intros i Hi. apply H. lia.
Qed.

Lemma hsize_ext (m m' : mem) (h : Z) :
  (forall i, h + 16 <= i < h + 24 -> m' i = m i) -> hsize m' h = hsize m h.
Proof.
  intros H. unfold hsize, off_size. apply load64_ext.
  intros i Hi. apply H. lia.
Qed.

Lemma hallocated_ext (m m' : mem) (h : Z) :
  m' (h + 24) = m (h + 24) -> hallocated m' h = hallocated m h.
Proof.
  intros H. unfold hallocated, off_allocated.
  rewrite (load8_ext m m') by exact H. reflexivity.
Qed.

(** The stores of [splice_head]: the [next] and [prev] fields of [h] and,
    when the old head is not null, the [prev] field of the old head. *)
Lemma splice_head_outside (m : mem) (head h a : Z) :
  is_word head ->
  a < h \/ h + 16 <= a ->
  head = NULL \/ a < head + 8 \/ head + 16 <= a ->
  splice_head m head h a = m a.
Proof.
  intros Hw Ha Hhead. unfold splice_head.
  assert (Hn : hnext (set_prev (set_next m h head) h NULL) h = head).
  { unfold hnext, set_prev, set_next, off_next, off_prev.
    rewrite load64_store64_other by lia.
    rewrite load64_store64_same. apply uw_small, Hw. }
  rewrite Hn.
  assert (Hm2 : set_prev (set_next m h head) h NULL a = m a).
  { unfold set_prev, set_next, off_next, off_prev.
    rewrite !store64_outside by lia. reflexivity. }
  destruct (Z.eqb_spec head NULL) as [E | E]; cbn [negb]; [exact Hm2|].
  unfold set_prev at 1. unfold off_prev at 1.
  rewrite store64_outside by (destruct Hhead as [C | C]; [contradiction | lia]).
  exact Hm2.
Qed.

(** The stores of the bump path: the 25 bytes of the new header and the
    [prev] field of the old allocated head. *)
Lemma bump_outside (s : state) (size a : Z) :
  is_word (allocated_list_head s) ->
  a < bump_header s \/ bump_header s + 25 <= a ->
  allocated_list_head s = NULL \/
  a < allocated_list_head s + 8 \/ allocated_list_head s + 16 <= a ->
  heap_mem (fst (bump_stores s size)) a = heap_mem s a.
Proof.
  intros Hw Ha Hhead. rewrite bump_mem.
  unfold set_allocated, set_size, off_allocated, off_size.
  rewrite store8_outside by lia.
  rewrite store64_outside by lia.
  apply splice_head_outside; try assumption. lia.
Qed.

(** ** [realloc] that cannot grow *)

Lemma select_best_in (m : mem) (size : Z) (l : list Z) :
  Forall (fun x => x <> NULL) l ->
  select_best m size l NULL = NULL \/ In (select_best m size l NULL) l.
Proof.
  intros Hnn.
  assert (Hnull : NULL <> NULL -> size < hsize m NULL) by (intros C; contradiction).
  destruct (select_best_spec m size l NULL Hnull Hnn)
    as [(E & _) | (l1 & l2 & E & _)]; [left; exact E|].
  right. rewrite E at 2. apply in_elt.
Qed.

(** A null result of [malloc(size)], [size > 0], on an initialised allocator
    whose free headers lie below the cursor comes from the bump path. *)
Lemma malloc_null_is_bump (fuel : nat) (heap : Z) (s s1 : state) (size : Z)
    (l : list Z) :
  start_addr s <> 0 -> size <> 0 ->
  free_addr s < half ->
  chain (heap_mem s) (free_list_head s) l ->
  all_free (heap_mem s) l ->
  Forall (fun x => 0 <= x /\ x + 32 <= free_addr s) l ->
  (length l < fuel)%nat ->
  malloc fuel heap s size = Ok (s1, NULL) ->
  bump_stores s size = (s1, NULL).
Proof.
  intros Hs Hz Hcur Hc Hf Hbelow Hlen Hm.
  rewrite malloc_initialised in Hm by assumption.
  rewrite (scan_select (heap_mem s) size l) in Hm by assumption.
  cbn [bind] in Hm.
  pose proof (path_nonnull _ _ _ _ Hc) as Hnn.
  destruct (select_best_in (heap_mem s) size l Hnn) as [E | Hin].
  - rewrite E in Hm. cbn [Z.eqb NULL negb] in Hm.
    apply bump_ok_inv in Hm. destruct Hm as (E' & _). symmetry. exact E'.
  - set (best := select_best (heap_mem s) size l NULL) in *.
    rewrite Forall_forall in Hnn, Hbelow.
    pose proof (Hnn best Hin) as Hbn. pose proof (Hbelow best Hin) as Hbb.
    destruct (Z.eqb_spec best NULL); [contradiction|]. cbn [negb] in Hm.
    exfalso. unfold reuse in Hm.
    assert (Hp : HEADER_TO_BLOCK best = NULL) by (inversion Hm; reflexivity).
    unfold HEADER_TO_BLOCK, sizeof_header in Hp.
    rewrite uw_small in Hp by (rewrite modulus_eq; rewrite half_eq in Hcur; lia).
    unfold NULL in Hp. lia.
Qed.

(** C7: [realloc(ptr, size)] for an allocated block below the cursor and a
    [size] larger than the recorded one, in a state where [malloc(size)]
    returns [NULL]: [realloc] returns [NULL] with [malloc]'s state, in which
    the header of [ptr] is still marked allocated with its recorded size,
    every byte of the old block is as before, and the free list head has
    not changed ([free] has not run). *)
Theorem realloc_growth_fails (fuel : nat) (heap : Z) (s s1 : state)
    (ptr size : Z) (l : list Z) :
  start_addr s <> 0 ->
  is_word (allocated_list_head s) ->
  0 <= free_addr s < half - 16 ->
  chain (heap_mem s) (free_list_head s) l ->
  all_free (heap_mem s) l ->
  Forall (fun x => 0 <= x /\ x + 32 <= free_addr s) l ->
  (length l < fuel)%nat ->
  32 <= ptr < modulus ->
  hallocated (heap_mem s) (BLOCK_TO_HEADER ptr) = true ->
  hsize (heap_mem s) (BLOCK_TO_HEADER ptr) < size ->
  ptr + hsize (heap_mem s) (BLOCK_TO_HEADER ptr) <= free_addr s ->
  (allocated_list_head s = NULL \/
   allocated_list_head s = BLOCK_TO_HEADER ptr \/
   allocated_list_head s + 32 <= BLOCK_TO_HEADER ptr \/
   ptr + hsize (heap_mem s) (BLOCK_TO_HEADER ptr) <= allocated_list_head s) ->
  malloc fuel heap s size = Ok (s1, NULL) ->
  realloc fuel heap s ptr size = Ok (s1, NULL) /\
  hallocated (heap_mem s1) (BLOCK_TO_HEADER ptr) = true /\
  hsize (heap_mem s1) (BLOCK_TO_HEADER ptr)
  = hsize (heap_mem s) (BLOCK_TO_HEADER ptr) /\
  (forall a, ptr <= a < ptr + hsize (heap_mem s) (BLOCK_TO_HEADER ptr) ->
             heap_mem s1 a = heap_mem s a) /\
  free_list_head s1 = free_list_head s.
Proof.
  intros Hs Hw Hcur Hc Hf Hbelow Hlen Hptr Hal Hgrow Hblk Hhead Hm.
  assert (Hh : BLOCK_TO_HEADER ptr = ptr - 32).
  { unfold BLOCK_TO_HEADER, sizeof_header. apply uw_small. lia. }
  pose proof (load64_range (heap_mem s) (BLOCK_TO_HEADER ptr + off_size)) as Hold.
  fold (hsize (heap_mem s) (BLOCK_TO_HEADER ptr)) in Hold.
  set (old := hsize (heap_mem s) (BLOCK_TO_HEADER ptr)) in *.
  assert (Hz : size <> 0) by lia.
  split.
  { unfold realloc.
    destruct (Z.eqb_spec ptr NULL) as [C | _]; [unfold NULL in C; lia|].
    destruct (Z.eqb_spec size 0); [contradiction|].
    fold old. destruct (Z.leb_spec size old); [lia|].
    rewrite Hm. reflexivity. }
  assert (Hb : bump_stores s size = (s1, NULL)).
  { apply (malloc_null_is_bump fuel heap s s1 size l); try assumption.
    rewrite half_eq in *. lia. }
  assert (Hs1 : s1 = fst (bump_stores s size)) by (rewrite Hb; reflexivity).
  destruct (align_up_nonneg (free_addr s) Hcur) as (_ & Hpad & _).
  assert (Hbh : bump_header s = align_up (free_addr s)).
  { unfold bump_header. apply uw_small.
    rewrite modulus_eq. rewrite half_eq in Hcur. lia. }
  assert (Hframe : forall a, ptr - 16 <= a < ptr + old ->
                             heap_mem s1 a = heap_mem s a).
  { intros a Ha. rewrite Hs1. apply bump_outside.
    - exact Hw.
    - left. rewrite Hbh. lia.
    - rewrite Hh in Hhead.
      destruct Hhead as [E | [E | [E | E]]];
        [left; exact E | right; right; lia | right; right; lia
        | right; left; lia]. }
  split; [|split; [|split]].
  - rewrite <- Hal. apply hallocated_ext. apply Hframe. lia.
  - apply hsize_ext. intros i Hi. apply Hframe. lia.
  - intros a Ha. apply Hframe. lia.
  - rewrite Hs1. apply bump_frame.
Qed.

Lemma realloc_growth_fails_witness :
  realloc 1 example_heap state_x 65584 (3 * 2 ^ 30)
  = Ok (state_x_out_of_space, NULL) /\
  hallocated (heap_mem state_x_out_of_space) (BLOCK_TO_HEADER 65584) = true /\
  hsize (heap_mem state_x_out_of_space) (BLOCK_TO_HEADER 65584)
  = hsize (heap_mem state_x) (BLOCK_TO_HEADER 65584) /\
  (forall a,
     65584 <= a < 65584 + hsize (heap_mem state_x) (BLOCK_TO_HEADER 65584) ->
     heap_mem state_x_out_of_space a = heap_mem state_x a) /\
  free_list_head state_x_out_of_space = free_list_head state_x.
Proof.
  apply (realloc_growth_fails 1 example_heap state_x state_x_out_of_space
                              65584 (3 * 2 ^ 30) []).
  - vm_compute. discriminate.
  - split; [apply Z.leb_le | apply Z.ltb_lt]; vm_compute; reflexivity.
  - split; [apply Z.leb_le | apply Z.ltb_lt]; vm_compute; reflexivity.
  - vm_compute. reflexivity.
  - constructor.
  - constructor.
  - simpl. lia.
  - rewrite modulus_eq. lia.
  - vm_compute. reflexivity.
  - apply Z.ltb_lt. vm_compute. reflexivity.
  - apply Z.leb_le. vm_compute. reflexivity.
  - right. left. vm_compute. reflexivity.
  - reflexivity.
Defined.

(** ** The list invariant *)

Lemma chain_unique (m : mem) (l : list Z) :
  forall (l' : list Z) (h : Z), chain m h l -> chain m h l' -> l = l'.
Proof.
  unfold chain.
  induction l as [|x l IH]; intros [|x' l'] h H H'; simpl in H, H'.
  - reflexivity.
  - destruct H' as (E & Hn & _). congruence.
  - destruct H as (E & Hn & _). congruence.
  - destruct H as (E & _ & H). destruct H' as (E' & _ & H').
    assert (Ex : x' = x) by congruence. rewrite Ex in *.
    f_equal. exact (IH l' (hnext m x) H H').
Qed.

Lemma initial_state_invariant : lists_invariant initial_state.
Proof.
  exists [], []. repeat split; simpl; try constructor.
Qed.

(** ** Doubly-linked lists under stores *)

Lemma path_frame (m m' : mem) (l : list Z) :
  forall h e,
    (forall y, In y l -> hnext m' y = hnext m y) ->
    path m h l e -> path m' h l e.
Proof.
  induction l as [|x l IH]; intros h e Hfr Hp; simpl in *.
  - exact Hp.
  - destruct Hp as (E & Hn & Hp). repeat split; try assumption.
    rewrite (Hfr x) by (left; reflexivity).
    apply IH; [|exact Hp]. intros y Hy. apply Hfr. right. exact Hy.
Qed.

Lemma path_head (m : mem) (l : list Z) (h : Z) :
  path m h l NULL -> h = hd NULL l.
Proof. destruct l; simpl; [tauto | intros (E & _); exact E]. Qed.

Lemma back_links_frame (m m' : mem) (l : list Z) :
  forall p,
    (forall y, In y l -> hprev m' y = hprev m y) ->
    back_links m p l -> back_links m' p l.
Proof.
  induction l as [|x l IH]; intros p Hfr Hb; simpl in *.
  - exact I.
  - destruct Hb as (E & Hb). split.
    + rewrite (Hfr x) by (left; reflexivity). exact E.
    + apply IH; [|exact Hb]. intros y Hy. apply Hfr. right. exact Hy.
Qed.

Lemma last_cons_default (l : list Z) :
  forall x p, last (x :: l) p = last l x.
Proof.
  induction l as [|y l IH]; intros x p; [reflexivity|].
  change (last (x :: y :: l) p) with (last (y :: l) p).
  rewrite (IH y p), (IH y x). reflexivity.
Qed.

Lemma back_links_app (m : mem) (l1 l2 : list Z) :
  forall p,
    back_links m p (l1 ++ l2) <->
    back_links m p l1 /\ back_links m (last l1 p) l2.
Proof.
  induction l1 as [|x l1 IH]; intros p.
  - simpl. tauto.
  - change ((x :: l1) ++ l2) with (x :: (l1 ++ l2)).
    cbn [back_links]. rewrite IH, last_cons_default. tauto.
Qed.

(** Taking [x] out of a doubly-linked list: its predecessor and its
    successor are linked to each other, all other links are kept. *)
Lemma unlink_dll (m m' : mem) (head x : Z) (l1 l2 : list Z) :
  chain m head (l1 ++ x :: l2) ->
  back_links m NULL (l1 ++ x :: l2) ->
  NoDup (l1 ++ x :: l2) ->
  (last l1 NULL <> NULL -> hnext m' (last l1 NULL) = hd NULL l2) ->
  (forall y, In y (l1 ++ l2) -> y <> last l1 NULL -> hnext m' y = hnext m y) ->
  (hd NULL l2 <> NULL -> hprev m' (hd NULL l2) = last l1 NULL) ->
  (forall y, In y (l1 ++ l2) -> y <> hd NULL l2 -> hprev m' y = hprev m y) ->
  hnext m x = hd NULL l2 /\
  hprev m x = last l1 NULL /\
  chain m' (match l1 with [] => hd NULL l2 | _ => head end) (l1 ++ l2) /\
  back_links m' NULL (l1 ++ l2).
Proof.
  intros Hc Hb Hnd Hn1 Hn2 Hp1 Hp2.
  pose proof (path_nonnull _ _ _ _ Hc) as Hnn.
  unfold chain in Hc. apply path_app in Hc. destruct Hc as (mid & Hc1 & Hc2).
  cbn [path] in Hc2. destruct Hc2 as (Emid & Hx & Hc2). subst mid.
  apply back_links_app in Hb. destruct Hb as (Hb1 & Hb2).
  cbn [back_links] in Hb2. destruct Hb2 as (Hpx & Hb2).
  apply NoDup_remove in Hnd. destruct Hnd as (Hnd & Hxin).
  rewrite Forall_forall in Hnn.
  assert (Hnn12 : forall y, In y (l1 ++ l2) -> y <> NULL).
  { intros y Hy. apply Hnn. apply in_app_or in Hy. apply in_or_app.
    destruct Hy; [left | right; right]; assumption. }
  pose proof (path_head _ _ _ Hc2) as Hnx.
  split; [exact Hnx|]. split; [exact Hpx|].
  assert (Hl2 : path m' (hd NULL l2) l2 NULL).
  { rewrite <- Hnx. apply (path_frame m); [|exact Hc2].
    intros y Hy. apply Hn2; [apply in_or_app; right; exact Hy|].
    intros E. destruct l1 as [|a l1] using rev_ind.
    - simpl in E. apply (Hnn12 y); [apply in_or_app; right; exact Hy | exact E].
    - rewrite last_last in E. subst y.
      rewrite <- app_assoc in Hnd. apply NoDup_remove_2 in Hnd.
      apply Hnd. apply in_or_app. right. exact Hy. }
  split.
  - unfold chain. destruct l1 as [|a l1] using rev_ind; [exact Hl2|].
    clear IHl1. rewrite last_last in *.
    assert (Ha : a <> NULL).
    { apply Hnn12. apply in_or_app. left. apply in_or_app. right. left. reflexivity. }
    apply path_app in Hc1. destruct Hc1 as (mid & Hc1 & Hca).
    cbn [path] in Hca. destruct Hca as (Emid & _ & Hax). subst mid.
    replace (match l1 ++ [a] with [] => hd NULL l2 | _ :: _ => head end) with head
      by (destruct l1; reflexivity).
    rewrite <- app_assoc. apply path_app. exists a. split.
    + apply (path_frame m); [|exact Hc1].
      intros y Hy. apply Hn2.
      * apply in_or_app. left. apply in_or_app. left. exact Hy.
      * intros E. subst y. rewrite <- app_assoc in Hnd.
        apply NoDup_remove_2 in Hnd. apply Hnd. apply in_or_app. left. exact Hy.
    + cbn [app path]. repeat split; [exact Ha|].
      rewrite (Hn1 Ha). exact Hl2.
  - apply back_links_app. split.
    + apply (back_links_frame m); [|exact Hb1].
      intros y Hy. apply Hp2; [apply in_or_app; left; exact Hy|].
      intros E. destruct l2 as [|b l2].
      * simpl in E. apply (Hnn12 y); [apply in_or_app; left; exact Hy | exact E].
      * simpl in E. subst y. apply NoDup_remove_2 in Hnd.
        apply Hnd. apply in_or_app. left. exact Hy.
    + destruct l2 as [|b l2]; [exact I|].
      cbn [hd] in *. cbn [back_links] in Hb2 |- *. destruct Hb2 as (_ & Hb2).
      assert (Hbn : b <> NULL).
      { apply Hnn12. apply in_or_app. right. left. reflexivity. }
      split; [apply Hp1, Hbn|].
      apply (back_links_frame m); [|exact Hb2].
      intros y Hy. apply Hp2; [apply in_or_app; right; right; exact Hy|].
      intros E. subst y. apply NoDup_app_remove_l in Hnd.
      apply NoDup_cons_iff in Hnd. destruct Hnd as (Hnb & _). contradiction.
Qed.

(** Putting [x] in front of a doubly-linked list. *)
Lemma push_dll (m m' : mem) (head x : Z) (l : list Z) :
  chain m head l ->
  back_links m NULL l ->
  NoDup l ->
  x <> NULL ->
  hnext m' x = head ->
  hprev m' x = NULL ->
  (head <> NULL -> hprev m' head = x) ->
  (forall y, In y l -> hnext m' y = hnext m y) ->
  (forall y, In y l -> y <> head -> hprev m' y = hprev m y) ->
  chain m' x (x :: l) /\ back_links m' NULL (x :: l).
Proof.
  intros Hc Hb Hnd Hx Hn Hp Hph Hfn Hfp.
  pose proof (path_nonnull _ _ _ _ Hc) as Hnn.
  pose proof (path_head _ _ _ Hc) as Hhd.
  split.
  - unfold chain. cbn [path]. repeat split; [exact Hx|].
    rewrite Hn. apply (path_frame m); assumption.
  - cbn [back_links]. split; [exact Hp|].
    destruct l as [|b l]; [exact I|].
    cbn [hd] in Hhd. rewrite Hhd in Hph, Hfp. cbn [back_links] in Hb |- *.
    destruct Hb as (_ & Hb).
    split; [apply Hph; exact (Forall_inv Hnn)|].
    apply (back_links_frame m); [|exact Hb].
    intros y Hy. apply Hfp; [right; exact Hy|].
    intros E. subst y. apply NoDup_cons_iff in Hnd. destruct Hnd; contradiction.
Qed.

(** ** What the list operations store *)

Lemma hnext_range (m : mem) (h : Z) : is_word (hnext m h).
Proof. apply load64_range. Qed.

Lemma hprev_range (m : mem) (h : Z) : is_word (hprev m h).
Proof. apply load64_range. Qed.

Lemma hsize_range (m : mem) (h : Z) : is_word (hsize m h).
Proof. apply load64_range. Qed.

Lemma unlink_free_spec (s : state) (best : Z) :
  let m := heap_mem s in
  let p := hprev m best in
  let n := hnext m best in
  (p = NULL \/ apart p best) ->
  (n = NULL \/ apart n best) ->
  (p = NULL \/ n = NULL \/ apart p n) ->
  free_list_head (unlink_free s best)
  = (if p =? NULL then n else free_list_head s) /\
  allocated_list_head (unlink_free s best) = allocated_list_head s /\
  free_addr (unlink_free s best) = free_addr s /\
  start_addr (unlink_free s best) = start_addr s /\
  end_addr (unlink_free s best) = end_addr s /\
  (p <> NULL -> hnext (heap_mem (unlink_free s best)) p = n) /\
  (n <> NULL -> hprev (heap_mem (unlink_free s best)) n = p) /\
  (forall a, (p = NULL \/ a < p \/ p + 8 <= a) ->
             (n = NULL \/ a < n + 8 \/ n + 16 <= a) ->
             heap_mem (unlink_free s best) a = m a).
Proof.
  intros m p n Hpb Hnb Hpn.
  pose proof (hprev_range m best) as Hpw. fold p in Hpw.
  pose proof (hnext_range m best) as Hnw. fold n in Hnw.
  unfold apart in *. unfold unlink_free. fold m. fold p. fold n.
  destruct (Z.eqb_spec p NULL) as [Ep | Ep].
  - cbn [with_free_list_head heap_mem]. fold m. fold n.
    destruct (Z.eqb_spec n NULL) as [En | En]; cbn [negb].
    + cbn. repeat split; try reflexivity; intros; contradiction.
    + cbn [with_mem with_free_list_head heap_mem free_list_head
           allocated_list_head free_addr start_addr end_addr].
      fold m. fold p. repeat split; try reflexivity.
      * intros; contradiction.
      * intros _. unfold hprev, set_prev, off_prev.
        rewrite load64_store64_same. apply uw_small, Hpw.
      * intros a _ Ha. unfold set_prev, off_prev.
        apply store64_outside. destruct Ha as [C | Ha]; [contradiction | lia].
  - cbn [with_mem heap_mem].
    assert (Hn1 : hnext (set_next m p n) best = n).
    { unfold hnext, set_next, off_next.
      rewrite load64_store64_other by (destruct Hpb as [C | C]; [contradiction | lia]).
      reflexivity. }
    assert (Hp1 : hprev (set_next m p n) best = p).
    { unfold hprev, set_next, off_next, off_prev.
      rewrite load64_store64_other by (destruct Hpb as [C | C]; [contradiction | lia]).
      reflexivity. }
    rewrite Hn1, Hp1.
    destruct (Z.eqb_spec n NULL) as [En | En]; cbn [negb];
      cbn [with_mem with_free_list_head heap_mem free_list_head
           allocated_list_head free_addr start_addr end_addr].
    + repeat split; try reflexivity.
      * intros _. unfold hnext, set_next, off_next.
        rewrite load64_store64_same. apply uw_small, Hnw.
      * intros; contradiction.
      * intros a Ha _. unfold set_next, off_next.
        apply store64_outside. destruct Ha as [C | Ha]; [contradiction | lia].
    + repeat split; try reflexivity.
      * intros _. unfold hnext, set_prev, set_next, off_next, off_prev.
        rewrite load64_store64_other
          by (destruct Hpn as [C | [C | C]]; [contradiction | contradiction | lia]).
        rewrite load64_store64_same. apply uw_small, Hnw.
      * intros _. unfold hprev, set_prev, off_prev.
        rewrite load64_store64_same. apply uw_small, Hpw.
      * intros a Ha1 Ha2. unfold set_prev, set_next, off_next, off_prev.
        rewrite store64_outside
          by (destruct Ha2 as [C | Ha2]; [contradiction | lia]).
        apply store64_outside. destruct Ha1 as [C | Ha1]; [contradiction | lia].
Qed.

Lemma unlink_allocated_spec (s : state) (h : Z) :
  let m := heap_mem s in
  let p := hprev m h in
  let n := hnext m h in
  (p = NULL \/ apart p h) ->
  (n = NULL \/ apart n h) ->
  (p = NULL \/ n = NULL \/ apart p n) ->
  allocated_list_head (unlink_allocated s h)
  = (if p =? NULL then n else allocated_list_head s) /\
  free_list_head (unlink_allocated s h) = free_list_head s /\
  free_addr (unlink_allocated s h) = free_addr s /\
  start_addr (unlink_allocated s h) = start_addr s /\
  end_addr (unlink_allocated s h) = end_addr s /\
  (p <> NULL -> hnext (heap_mem (unlink_allocated s h)) p = n) /\
  (n <> NULL -> hprev (heap_mem (unlink_allocated s h)) n = p) /\
  (forall a, (p = NULL \/ a < p \/ p + 8 <= a) ->
             (n = NULL \/ a < n + 8 \/ n + 16 <= a) ->
             heap_mem (unlink_allocated s h) a = m a).
Proof.
  intros m p n Hpb Hnb Hpn.
  pose proof (hprev_range m h) as Hpw. fold p in Hpw.
  pose proof (hnext_range m h) as Hnw. fold n in Hnw.
  unfold apart in *. unfold unlink_allocated. fold m. fold p. fold n.
  destruct (Z.eqb_spec n NULL) as [En | En]; cbn [negb].
  - fold p. destruct (Z.eqb_spec p NULL) as [Ep | Ep]; cbn [negb];
      cbn [with_mem with_allocated_list_head heap_mem free_list_head
           allocated_list_head free_addr start_addr end_addr]; fold n.
    + repeat split; try reflexivity; intros; contradiction.
    + repeat split; try reflexivity.
      * intros _. unfold hnext, set_next, off_next.
        rewrite load64_store64_same. apply uw_small, Hnw.
      * intros; contradiction.
      * intros a Ha _. unfold set_next, off_next.
        apply store64_outside. destruct Ha as [C | Ha]; [contradiction | lia].
  - assert (Hn1 : hnext (set_prev m n p) h = n).
    { unfold hnext, set_prev, off_next, off_prev.
      rewrite load64_store64_other by (destruct Hnb as [C | C]; [contradiction | lia]).
      reflexivity. }
    assert (Hp1 : hprev (set_prev m n p) h = p).
    { unfold hprev, set_prev, off_prev.
      rewrite load64_store64_other by (destruct Hnb as [C | C]; [contradiction | lia]).
      reflexivity. }
    rewrite Hp1, Hn1.
    destruct (Z.eqb_spec p NULL) as [Ep | Ep]; cbn [negb];
      cbn [with_mem with_allocated_list_head heap_mem free_list_head
           allocated_list_head free_addr start_addr end_addr].
    + repeat split; try reflexivity.
      * intros; contradiction.
      * intros _. unfold hprev, set_prev, off_prev.
        rewrite load64_store64_same. apply uw_small, Hpw.
      * intros a _ Ha. unfold set_prev, off_prev.
        apply store64_outside. destruct Ha as [C | Ha]; [contradiction | lia].
    + repeat split; try reflexivity.
      * intros _. unfold hnext, set_next, off_next.
        rewrite load64_store64_same. apply uw_small, Hnw.
      * intros _. unfold hprev, set_prev, set_next, off_next, off_prev.
        rewrite load64_store64_other
          by (destruct Hpn as [C | [C | C]]; [contradiction | contradiction | lia]).
        rewrite load64_store64_same. apply uw_small, Hpw.
      * intros a Ha1 Ha2. unfold set_prev, set_next, off_next, off_prev.
        rewrite store64_outside
          by (destruct Ha1 as [C | Ha1]; [contradiction | lia]).
        apply store64_outside. destruct Ha2 as [C | Ha2]; [contradiction | lia].
Qed.

Lemma splice_head_fields (m : mem) (head h : Z) :
  is_word head -> is_word h ->
  (head = NULL \/ apart head h) ->
  hnext (splice_head m head h) h = head /\
  hprev (splice_head m head h) h = NULL /\
  (head <> NULL -> hprev (splice_head m head h) head = h).
Proof.
  intros Hw Hh Hap. unfold apart in Hap. unfold splice_head.
  assert (Hn : hnext (set_prev (set_next m h head) h NULL) h = head).
  { unfold hnext, set_prev, set_next, off_next, off_prev.
    rewrite load64_store64_other by lia.
    rewrite load64_store64_same. apply uw_small, Hw. }
  assert (Hp : hprev (set_prev (set_next m h head) h NULL) h = NULL).
  { unfold hprev, set_prev, off_prev. rewrite load64_store64_same. reflexivity. }
  rewrite Hn.
  destruct (Z.eqb_spec head NULL) as [E | E]; cbn [negb].
  - repeat split; try assumption. intros; contradiction.
  - destruct Hap as [C | Hap]; [contradiction|].
    repeat split.
    + unfold hnext, off_next. unfold set_prev at 1. unfold off_prev at 1.
      rewrite load64_store64_other by lia. exact Hn.
    + unfold hprev, off_prev. unfold set_prev at 1. unfold off_prev at 1.
      rewrite load64_store64_other by lia. exact Hp.
    + intros _. unfold hprev, off_prev. unfold set_prev at 1. unfold off_prev at 1.
      rewrite load64_store64_same. apply uw_small, Hh.
Qed.

(** *** Running out of space *)

(** C2, as stated, fails: in the state after [x = malloc(24)] the free list
    is empty and the cursor is [65608]; [malloc(3 GB)] bumps, finds the end
    of the new block beyond [end_addr] and returns [NULL], but the cursor
    is then [65616]: line 240 stored the padded cursor before the check. *)
Lemma out_of_space_moves_cursor :
  exists s',
    malloc 1 example_heap state_x (3 * 2 ^ 30) = Ok (s', NULL) /\
    free_list_head state_x = NULL /\
    sw (HEADER_TO_BLOCK (bump_header state_x) + 3 * 2 ^ 30) > end_addr state_x /\
    free_addr state_x = 65608 /\
    free_addr s' = 65616.
Proof.
  eexists. split; [reflexivity|].
  repeat split; vm_compute; reflexivity.
Qed.

(** The links written by lines 249-257 when the old head lies at least 16
    bytes below the new header: the stores to the two headers do not reach
    each other's [next] and [prev] fields. *)
Lemma splice_head_links (m : mem) (head h : Z) :
  is_word head -> is_word h ->
  (head = NULL \/ head + 16 <= h) ->
  hnext (splice_head m head h) h = head /\
  hprev (splice_head m head h) h = NULL /\
  (head <> NULL -> hprev (splice_head m head h) head = h).
Proof.
  intros Hw Hh Hap. unfold splice_head.
  assert (Hn : hnext (set_prev (set_next m h head) h NULL) h = head).
  { unfold hnext, set_prev, set_next, off_next, off_prev.
    rewrite load64_store64_other by lia.
    rewrite load64_store64_same. apply uw_small, Hw. }
  assert (Hp : hprev (set_prev (set_next m h head) h NULL) h = NULL).
  { unfold hprev, set_prev, off_prev. rewrite load64_store64_same. reflexivity. }
  rewrite Hn.
  destruct (Z.eqb_spec head NULL) as [E | E]; cbn [negb].
  - repeat split; try assumption. intros; contradiction.
  - destruct Hap as [C | Hap]; [contradiction|].
    repeat split.
    + unfold hnext, off_next. unfold set_prev at 1. unfold off_prev at 1.
      rewrite load64_store64_other by lia. exact Hn.
    + unfold hprev, off_prev. unfold set_prev at 1. unfold off_prev at 1.
      rewrite load64_store64_other by lia. exact Hp.
    + intros _. unfold hprev, off_prev. unfold set_prev at 1. unfold off_prev at 1.
      rewrite load64_store64_same. apply uw_small, Hh.
Qed.

Lemma bump_links (s : state) (size : Z) :
  is_word (allocated_list_head s) ->
  allocated_list_head s = NULL \/ allocated_list_head s + 16 <= bump_header s ->
  hnext (heap_mem (fst (bump_stores s size))) (bump_header s) = allocated_list_head s /\
  hprev (heap_mem (fst (bump_stores s size))) (bump_header s) = NULL /\
  (allocated_list_head s <> NULL ->
   hprev (heap_mem (fst (bump_stores s size))) (allocated_list_head s) = bump_header s).
Proof.
  intros Hhw Hap.
  assert (Haw : is_word (bump_header s)) by (unfold bump_header; apply uw_range).
  destruct (splice_head_links (heap_mem s) (allocated_list_head s) (bump_header s)
                              Hhw Haw Hap) as (Fn & Fp & Fh).
  rewrite bump_mem.
  split; [|split].
  - etransitivity; [|exact Fn]. apply hnext_ext. intros i Hi.
    unfold set_allocated, set_size, off_allocated, off_size.
    rewrite store8_outside by lia. apply store64_outside. lia.
  - etransitivity; [|exact Fp]. apply hprev_ext. intros i Hi.
    unfold set_allocated, set_size, off_allocated, off_size.
    rewrite store8_outside by lia. apply store64_outside. lia.
  - intros Hne. etransitivity; [|exact (Fh Hne)]. apply hprev_ext. intros i Hi.
    destruct Hap as [C | Hap]; [contradiction|].
    unfold set_allocated, set_size, off_allocated, off_size.
    rewrite store8_outside by lia. apply store64_outside. lia.
Qed.

(** C2 (amended): when [malloc(size)], [size > 0], finds no sufficient block
    on the free list, the header at the padded cursor lies inside the
    region, the head of the allocated list, if any, lies at least 16 bytes
    below it (as every header written by an earlier call does), and the end
    of the new block would lie beyond [end_addr], the call returns [NULL];
    the new header is the head of the allocated list, linked in front of
    the old head ([next] is the old head, [prev] is null, the old head's
    [prev] is the new header), marked allocated, with the requested size;
    and the cursor has been moved to the padded address at which that
    header was written, not past the block. *)
Theorem malloc_out_of_space (fuel : nat) (heap : Z) (s s0 : state) (size : Z)
    (l : list Z) :
  init heap s = Ok s0 -> 0 < size < modulus ->
  chain (heap_mem s0) (free_list_head s0) l ->
  all_free (heap_mem s0) l ->
  Forall (fun x => hsize (heap_mem s0) x < size) l ->
  (length l < fuel)%nat ->
  start_addr s0 <= bump_header s0 ->
  bump_header s0 + 32 <= end_addr s0 ->
  is_word (allocated_list_head s0) ->
  allocated_list_head s0 = NULL \/ allocated_list_head s0 + 16 <= bump_header s0 ->
  sw (HEADER_TO_BLOCK (bump_header s0) + size) > end_addr s0 ->
  exists s',
    malloc fuel heap s size = Ok (s', NULL) /\
    allocated_list_head s' = bump_header s0 /\
    hnext (heap_mem s') (bump_header s0) = allocated_list_head s0 /\
    hprev (heap_mem s') (bump_header s0) = NULL /\
    (allocated_list_head s0 <> NULL ->
     hprev (heap_mem s') (allocated_list_head s0) = bump_header s0) /\
    hallocated (heap_mem s') (allocated_list_head s') = true /\
    hsize (heap_mem s') (allocated_list_head s') = size /\
    free_addr s' = align_up (free_addr s0) /\
    uw (free_addr s') = allocated_list_head s' /\
    start_addr s' = start_addr s0 /\
    end_addr s' = end_addr s0 /\
    free_list_head s' = free_list_head s0.
Proof.
  intros Hi Hsz Hc Hf Hsmall Hlen Hlo Hhi Hhw Hap Hover.
  exists (fst (bump_stores s0 size)).
  destruct (bump_out_of_space s0 size Hover) as [Hp Hcur].
  destruct (bump_frame s0 size) as (Hst & Hen & Hfl).
  destruct (bump_links s0 size Hhw Hap) as (Ln & Lp & Lh).
  rewrite (malloc_bump fuel heap s s0 size l) by (try assumption; lia).
  rewrite (bump_in_region s0 size Hlo Hhi).
  rewrite (surjective_pairing (bump_stores s0 size)) at 1. rewrite Hp.
  rewrite bump_head.
  split; [reflexivity|]. split; [reflexivity|].
  split; [exact Ln|]. split; [exact Lp|]. split; [exact Lh|].
  split; [apply bump_flag|].
  split; [apply bump_size; unfold is_word; lia|].
  split; [exact Hcur|].
  split; [rewrite Hcur; reflexivity|].
  split; [exact Hst|]. split; [exact Hen | exact Hfl].
Qed.

Lemma malloc_out_of_space_witness :
  exists s',
    malloc 1 example_heap state_x (3 * 2 ^ 30) = Ok (s', NULL) /\
    allocated_list_head s' = bump_header state_x /\
    hnext (heap_mem s') (bump_header state_x) = allocated_list_head state_x /\
    hprev (heap_mem s') (bump_header state_x) = NULL /\
    (allocated_list_head state_x <> NULL ->
     hprev (heap_mem s') (allocated_list_head state_x) = bump_header state_x) /\
    hallocated (heap_mem s') (allocated_list_head s') = true /\
    hsize (heap_mem s') (allocated_list_head s') = 3 * 2 ^ 30 /\
    free_addr s' = align_up (free_addr state_x) /\
    uw (free_addr s') = allocated_list_head s' /\
    start_addr s' = start_addr state_x /\
    end_addr s' = end_addr state_x /\
    free_list_head s' = free_list_head state_x.
Proof.
  apply (malloc_out_of_space 1 example_heap state_x state_x (3 * 2 ^ 30) []).
  - reflexivity.
  - rewrite modulus_eq. lia.
  - vm_compute. reflexivity.
  - constructor.
  - constructor.
  - simpl. lia.
  - apply Z.leb_le. vm_compute. reflexivity.
  - apply Z.leb_le. vm_compute. reflexivity.
  - unfold is_word. split; [apply Z.leb_le | apply Z.ltb_lt]; vm_compute; reflexivity.
  - right. apply Z.leb_le. vm_compute. reflexivity.
  - vm_compute. reflexivity.
Defined.

(** When the header at the padded cursor does not lie inside the region,
    the stores of lines 249-261 go outside it: the cursor of the state
    after [malloc(2147483600)] is [end_addr], and [malloc(1)] writes its
    header at [end_addr + 16]. *)
Example full_heap_store_outside :
  exists s1,
    malloc 1 example_heap initial_state 2147483600 = Ok (s1, 65584) /\
    free_addr s1 = end_addr s1 /\
    malloc 1 example_heap s1 1 = Fatal (StoreOutsideRegion (end_addr s1 + 16)).
Proof.
  eexists. split; [reflexivity|].
  split; vm_compute; reflexivity.
Qed.

(** ** Well-formed heaps *)

Lemma heap_wf_invariant (s : state) (fl al : list Z) :
  heap_wf s fl al -> lists_invariant s.
Proof.
  intros [? ? ? ? ? ? ? ? ? ? ? ?]. exists fl, al. repeat split; assumption.
Qed.

Lemma last_null_or_in (l : list Z) :
  (l = [] /\ last l NULL = NULL) \/ (l <> [] /\ In (last l NULL) l).
Proof.
  destruct l as [|a l] using rev_ind.
  - left. split; reflexivity.
  - right. split; [destruct l; discriminate|].
    rewrite last_last. apply in_or_app. right. left. reflexivity.
Qed.

Lemma hd_null_or_in (l : list Z) :
  (l = [] /\ hd NULL l = NULL) \/ (l <> [] /\ In (hd NULL l) l).
Proof.
  destruct l as [|a l].
  - left. split; reflexivity.
  - right. split; [discriminate | left; reflexivity].
Qed.

Lemma dll_neighbours (m : mem) (head x : Z) (l1 l2 : list Z) :
  chain m head (l1 ++ x :: l2) ->
  back_links m NULL (l1 ++ x :: l2) ->
  hnext m x = hd NULL l2 /\ hprev m x = last l1 NULL.
Proof.
  intros Hc Hb.
  unfold chain in Hc. apply path_app in Hc. destruct Hc as (mid & _ & Hc2).
  cbn [path] in Hc2. destruct Hc2 as (_ & _ & Hc2).
  apply back_links_app in Hb. destruct Hb as (_ & Hb2).
  cbn [back_links] in Hb2. destruct Hb2 as (Hpx & _).
  split; [exact (path_head _ _ _ Hc2) | exact Hpx].
Qed.

Section Members.

Variables (s : state) (fl al : list Z).
Hypothesis Hwf : heap_wf s fl al.

Lemma wf_member (h : Z) :
  In h (fl ++ al) ->
  0 < h /\ h + 32 <= free_addr s /\ h + 32 + hsize (heap_mem s) h <= free_addr s /\
  free_addr s < 2 ^ 61 /\ is_word h /\ h <> NULL.
Proof.
  intros Hin. destruct (wf_below _ _ _ Hwf h Hin) as [Hpos Hend].
  pose proof (wf_cursor _ _ _ Hwf) as Hc. pose proof (wf_end _ _ _ Hwf) as He.
  pose proof (hsize_range (heap_mem s) h) as Hs.
  unfold block_end, sizeof_header in Hend. unfold is_word, NULL in *.
  rewrite modulus_eq in *. change (2 ^ 61) with 2305843009213693952 in *.
  repeat split; lia.
Qed.

Lemma wf_sep (h h' : Z) :
  In h (fl ++ al) -> In h' (fl ++ al) -> h = h' \/ apart h h'.
Proof.
  intros Hh Hh'. destruct (Z.eq_dec h h') as [E | E]; [left; exact E|].
  right. unfold apart.
  pose proof (hsize_range (heap_mem s) h) as Hs.
  pose proof (hsize_range (heap_mem s) h') as Hs'.
  unfold is_word in *.
  destruct (wf_apart _ _ _ Hwf h h' Hh Hh' E) as [C | C];
    unfold block_end, sizeof_header in C; lia.
Qed.

Lemma wf_free_head : free_list_head s = hd NULL fl.
Proof. apply (path_head (heap_mem s)). apply (wf_free_chain _ _ _ Hwf). Qed.

Lemma wf_alloc_head : allocated_list_head s = hd NULL al.
Proof. apply (path_head (heap_mem s)). apply (wf_alloc_chain _ _ _ Hwf). Qed.

End Members.

Lemma nodup_app_disjoint (A B : list Z) (y : Z) :
  NoDup (A ++ B) -> In y A -> In y B -> False.
Proof.
  induction A as [|a A IH]; intros Hnd HA HB; [contradiction|].
  simpl in Hnd. apply NoDup_cons_iff in Hnd. destruct Hnd as (Hna & Hnd).
  destruct HA as [E | HA].
  - subst a. apply Hna. apply in_or_app. right. exact HB.
  - exact (IH Hnd HA HB).
Qed.

(** Moving header [x] from one doubly-linked list to the front of the
    other: [m1] is the memory after the unlinking stores, then come
    [splice_head] and the store of the flag. *)
Section Move.

Variables (m m1 : mem) (hs hdst x : Z) (l1 l2 dst : list Z) (b : bool).

Let p := last l1 NULL.
Let n := hd NULL l2.
Let L := (l1 ++ x :: l2) ++ dst.
Let m3 := set_allocated (splice_head m1 hdst x) x b.

Hypothesis Hsc : chain m hs (l1 ++ x :: l2).
Hypothesis Hsb : back_links m NULL (l1 ++ x :: l2).
Hypothesis Hdc : chain m hdst dst.
Hypothesis Hdb : back_links m NULL dst.
Hypothesis Hnd : NoDup L.
Hypothesis Hsep : forall a c, In a L -> In c L -> a = c \/ apart a c.
Hypothesis Hword : forall a, In a L -> is_word a.
Hypothesis H1n : p <> NULL -> hnext m1 p = n.
Hypothesis H1p : n <> NULL -> hprev m1 n = p.
Hypothesis H1f :
  forall a, (p = NULL \/ a < p \/ p + 8 <= a) ->
            (n = NULL \/ a < n + 8 \/ n + 16 <= a) -> m1 a = m a.

Lemma move_x_in : In x L.
Proof. unfold L. apply in_or_app. left. apply in_elt. Qed.

Lemma move_src_in (y : Z) : In y (l1 ++ l2) -> In y L /\ y <> x.
Proof.
  intros Hy. split.
  - unfold L. apply in_or_app. left. apply in_app_or in Hy.
    apply in_or_app. destruct Hy; [left | right; right]; assumption.
  - intros E. subst y. unfold L in Hnd. apply NoDup_app_remove_r in Hnd.
    apply NoDup_remove_2 in Hnd. contradiction.
Qed.

Lemma move_dst_in (y : Z) : In y dst -> In y L /\ y <> x.
Proof.
  intros Hy. split.
  - unfold L. apply in_or_app. right. exact Hy.
  - intros E. subst y.
    apply (nodup_app_disjoint _ _ x Hnd); [apply in_elt | exact Hy].
Qed.

Lemma move_p : p = NULL \/ (In p l1 /\ p <> NULL /\ In p L /\ apart p x).
Proof.
  destruct (last_null_or_in l1) as [(_ & E) | (_ & Hin)]; [left; exact E|].
  right. fold p in Hin.
  assert (HpL : In p L /\ p <> x)
    by (apply move_src_in; apply in_or_app; left; exact Hin).
  destruct HpL as (HpL & Hpx).
  repeat split; try assumption.
  - pose proof (path_nonnull _ _ _ _ Hsc) as Hnn. rewrite Forall_forall in Hnn.
    apply Hnn. apply in_or_app. left. exact Hin.
  - destruct (Hsep p x HpL move_x_in); [contradiction | assumption].
Qed.

Lemma move_n : n = NULL \/ (In n l2 /\ n <> NULL /\ In n L /\ apart n x).
Proof.
  destruct (hd_null_or_in l2) as [(_ & E) | (_ & Hin)]; [left; exact E|].
  right. fold n in Hin.
  assert (HnL : In n L /\ n <> x)
    by (apply move_src_in; apply in_or_app; right; exact Hin).
  destruct HnL as (HnL & Hnx).
  repeat split; try assumption.
  - pose proof (path_nonnull _ _ _ _ Hsc) as Hnn. rewrite Forall_forall in Hnn.
    apply Hnn. apply in_or_app. right. right. exact Hin.
  - destruct (Hsep n x HnL move_x_in); [contradiction | assumption].
Qed.

Lemma move_hdst :
  hdst = hd NULL dst /\
  (hdst = NULL \/ (In hdst dst /\ hdst <> NULL /\ In hdst L /\ apart hdst x)).
Proof.
  pose proof (path_head _ _ _ Hdc) as E. split; [exact E|].
  destruct (hd_null_or_in dst) as [(_ & E') | (_ & Hin)];
    [left; congruence|].
  right. rewrite <- E in Hin.
  destruct (move_dst_in hdst Hin) as (HL & Hx).
  repeat split; try assumption.
  - pose proof (path_nonnull _ _ _ _ Hdc) as Hnn. rewrite Forall_forall in Hnn.
    apply Hnn. exact Hin.
  - destruct (Hsep hdst x HL move_x_in); [contradiction | assumption].
Qed.

Lemma move_hdst_word : is_word hdst.
Proof.
  destruct move_hdst as (_ & [E | (_ & _ & HL & _)]).
  - rewrite E. apply NULL_word.
  - apply Hword, HL.
Qed.

(** The bytes written after the unlinking. *)
Lemma move_frame31 (a : Z) :
  a < x \/ x + 16 <= a -> a <> x + 24 ->
  hdst = NULL \/ a < hdst + 8 \/ hdst + 16 <= a ->
  m3 a = m1 a.
Proof.
  intros Hx Hf Hd. unfold m3, set_allocated, off_allocated.
  rewrite store8_outside by exact Hf.
  apply splice_head_outside; [apply move_hdst_word | exact Hx | exact Hd].
Qed.

(** The bytes written in all. *)
Lemma move_frame3 (a : Z) :
  p = NULL \/ a < p \/ p + 8 <= a ->
  n = NULL \/ a < n + 8 \/ n + 16 <= a ->
  a < x \/ x + 16 <= a -> a <> x + 24 ->
  hdst = NULL \/ a < hdst + 8 \/ hdst + 16 <= a ->
  m3 a = m a.
Proof.
  intros Hp Hn Hx Hf Hd. rewrite move_frame31 by assumption.
  apply H1f; assumption.
Qed.

Lemma move_rel (y z : Z) :
  In y L -> z = NULL \/ In z L -> z = NULL \/ y = z \/ apart y z.
Proof.
  intros Hy [E | Hz]; [left; exact E | right; apply Hsep; assumption].
Qed.

Lemma move_p_rel (y : Z) : In y L -> p = NULL \/ y = p \/ apart y p.
Proof.
  intros Hy. apply move_rel; [exact Hy|].
  destruct move_p as [E | (_ & _ & H & _)]; [left | right]; assumption.
Qed.

Lemma move_n_rel (y : Z) : In y L -> n = NULL \/ y = n \/ apart y n.
Proof.
  intros Hy. apply move_rel; [exact Hy|].
  destruct move_n as [E | (_ & _ & H & _)]; [left | right]; assumption.
Qed.

Lemma move_hdst_rel (y : Z) : In y L -> hdst = NULL \/ y = hdst \/ apart y hdst.
Proof.
  intros Hy. apply move_rel; [exact Hy|].
  destruct move_hdst as (_ & [E | (_ & _ & H & _)]); [left | right]; assumption.
Qed.

Ltac move_facts y Hy :=
  pose proof (move_p_rel y Hy);
  pose proof (move_n_rel y Hy);
  pose proof (move_hdst_rel y Hy);
  pose proof (Hsep y x Hy move_x_in);
  unfold apart, NULL in *.

Lemma move_size (y : Z) : In y L -> hsize m3 y = hsize m y.
Proof.
  intros Hy. apply hsize_ext. intros i Hi. move_facts y Hy.
  apply move_frame3; unfold NULL; lia.
Qed.

Lemma move_flag_other (y : Z) :
  In y L -> y <> x -> hallocated m3 y = hallocated m y.
Proof.
  intros Hy Hyx. apply hallocated_ext. move_facts y Hy.
  apply move_frame3; unfold NULL; lia.
Qed.

Lemma move_flag_x : hallocated m3 x = b.
Proof. apply hallocated_set_allocated. Qed.

Lemma move_payload (a : Z) :
  (forall h, In h L -> a < h \/ h + 32 <= a) -> m3 a = m a.
Proof.
  intros Ha.
  pose proof (Ha x move_x_in) as Hax.
  apply move_frame3.
  - destruct move_p as [E | (_ & _ & H & _)]; [left; exact E|].
    right. specialize (Ha p H). lia.
  - destruct move_n as [E | (_ & _ & H & _)]; [left; exact E|].
    right. specialize (Ha n H). lia.
  - lia.
  - lia.
  - destruct move_hdst as (_ & [E | (_ & _ & H & _)]); [left; exact E|].
    right. specialize (Ha hdst H). lia.
Qed.

Lemma move_next_other (y : Z) :
  In y L -> y <> x -> y <> p -> hnext m3 y = hnext m y.
Proof.
  intros Hy Hyx Hyp. apply hnext_ext. intros i Hi. move_facts y Hy.
  apply move_frame3; unfold NULL; lia.
Qed.

Lemma move_prev_other (y : Z) :
  In y L -> y <> x -> y <> n -> y <> hdst -> hprev m3 y = hprev m y.
Proof.
  intros Hy Hyx Hyn Hyd. apply hprev_ext. intros i Hi. move_facts y Hy.
  apply move_frame3; unfold NULL; lia.
Qed.

Lemma move_src :
  chain m3 (match l1 with [] => n | _ => hs end) (l1 ++ l2) /\
  back_links m3 NULL (l1 ++ l2).
Proof.
  assert (Hnds : NoDup (l1 ++ x :: l2))
    by (unfold L in Hnd; apply NoDup_app_remove_r in Hnd; exact Hnd).
  assert (Hnot_dst : forall y, In y (l1 ++ l2) -> y <> hdst).
  { intros y Hy E.
    destruct move_hdst as (_ & [E0 | (Hin & _)]).
    - pose proof (path_nonnull _ _ _ _ Hsc) as Hnn. rewrite Forall_forall in Hnn.
      apply (Hnn y); [|congruence].
      apply in_app_or in Hy. apply in_or_app.
      destruct Hy; [left | right; right]; assumption.
    - subst y. apply (nodup_app_disjoint _ _ hdst Hnd); [|exact Hin].
      apply in_app_or in Hy. apply in_or_app.
      destruct Hy; [left | right; right]; assumption. }
  destruct (unlink_dll m m3 hs x l1 l2 Hsc Hsb Hnds) as (_ & _ & Hc & Hb).
  - fold p. fold n. intros Hp.
    destruct move_p as [E | (Hin & _ & HL & Hap)]; [contradiction|].
    rewrite <- (H1n Hp). apply hnext_ext. intros i Hi.
    pose proof (move_hdst_rel p HL) as Hd.
    assert (p <> hdst) by (apply Hnot_dst; apply in_or_app; left; exact Hin).
    unfold apart, NULL in *. apply move_frame31; unfold NULL; lia.
  - fold p. intros y Hy Hyp.
    destruct (move_src_in y Hy) as (HL & Hyx).
    apply move_next_other; assumption.
  - fold p. fold n. intros Hn.
    destruct move_n as [E | (Hin & _ & HL & Hap)]; [contradiction|].
    rewrite <- (H1p Hn). apply hprev_ext. intros i Hi.
    pose proof (move_hdst_rel n HL) as Hd.
    assert (n <> hdst) by (apply Hnot_dst; apply in_or_app; right; exact Hin).
    unfold apart, NULL in *. apply move_frame31; unfold NULL; lia.
  - fold n. intros y Hy Hyn.
    destruct (move_src_in y Hy) as (HL & Hyx).
    apply move_prev_other; try assumption. apply Hnot_dst, Hy.
  - split; assumption.
Qed.

Lemma move_dst :
  chain m3 x (x :: dst) /\ back_links m3 NULL (x :: dst).
Proof.
  assert (Hndd : NoDup dst)
    by (unfold L in Hnd; apply NoDup_app_remove_l in Hnd; exact Hnd).
  assert (Hxn : x <> NULL).
  { pose proof (path_nonnull _ _ _ _ Hsc) as Hnn. rewrite Forall_forall in Hnn.
    apply Hnn, in_elt. }
  assert (Hxw : is_word x) by (apply Hword, move_x_in).
  assert (Hdx : hdst = NULL \/ apart hdst x).
  { destruct move_hdst as (_ & [E | (_ & _ & _ & H)]); [left | right]; assumption. }
  destruct (splice_head_fields m1 hdst x move_hdst_word Hxw Hdx) as (Fn & Fp & Fh).
  assert (Hnot_src : forall y, In y dst -> y <> p /\ y <> n).
  { intros y Hy. split; intros E; subst y.
    - destruct move_p as [E | (Hin & Hp & _)].
      + pose proof (path_nonnull _ _ _ _ Hdc) as Hnn. rewrite Forall_forall in Hnn.
        exact (Hnn p Hy E).
      + apply (nodup_app_disjoint _ _ p Hnd); [|exact Hy].
        apply in_or_app. left. exact Hin.
    - destruct move_n as [E | (Hin & Hp & _)].
      + pose proof (path_nonnull _ _ _ _ Hdc) as Hnn. rewrite Forall_forall in Hnn.
        exact (Hnn n Hy E).
      + apply (nodup_app_disjoint _ _ n Hnd); [|exact Hy].
        apply in_or_app. right. right. exact Hin. }
  apply (push_dll m m3 hdst x dst Hdc Hdb Hndd Hxn).
  - rewrite <- Fn. apply hnext_ext. intros i Hi.
    unfold m3, set_allocated, off_allocated. apply store8_outside. lia.
  - rewrite <- Fp. apply hprev_ext. intros i Hi.
    unfold m3, set_allocated, off_allocated. apply store8_outside. lia.
  - intros Hd. rewrite <- (Fh Hd). apply hprev_ext. intros i Hi.
    unfold m3, set_allocated, off_allocated. apply store8_outside.
    destruct Hdx as [C | Hap]; [contradiction|]. unfold apart in Hap. lia.
  - intros y Hy. destruct (move_dst_in y Hy) as (HL & Hyx).
    apply move_next_other; try assumption. apply Hnot_src, Hy.
  - intros y Hy Hyd. destruct (move_dst_in y Hy) as (HL & Hyx).
    apply move_prev_other; try assumption. apply Hnot_src, Hy.
Qed.

End Move.

Lemma move_permutation (l1 l2 dst : list Z) (x : Z) :
  Permutation ((l1 ++ x :: l2) ++ dst) ((l1 ++ l2) ++ x :: dst).
Proof.
  rewrite <- !app_assoc. cbn [app].
  apply Permutation_app_head.
  change (x :: l2 ++ dst) with ((x :: l2) ++ dst).
  apply Permutation_sym.
  apply (Permutation_trans (Permutation_sym (Permutation_middle l2 dst x))).
  apply Permutation_refl.
Qed.

Lemma source_head (l1 : list Z) (hs n : Z) :
  (forall y, In y l1 -> y <> NULL) ->
  (if last l1 NULL =? NULL then n else hs)
  = match l1 with [] => n | _ => hs end.
Proof.
  intros Hnn. destruct (last_null_or_in l1) as [(E & El) | (E & Hin)].
  - subst l1. reflexivity.
  - specialize (Hnn _ Hin).
    destruct (Z.eqb_spec (last l1 NULL) NULL); [contradiction|].
    destruct l1; [contradiction | reflexivity].
Qed.

(** The reuse path keeps the heap well formed: [best] moves from the free
    list to the front of the allocated list, sizes and payloads are as
    before. *)
Lemma reuse_wf (s : state) (l1 l2 al : list Z) (best : Z) :
  heap_wf s (l1 ++ best :: l2) al ->
  heap_wf (fst (reuse s best)) (l1 ++ l2) (best :: al) /\
  (forall y, In y ((l1 ++ best :: l2) ++ al) ->
             hsize (heap_mem (fst (reuse s best))) y = hsize (heap_mem s) y) /\
  (forall a, (forall h, In h ((l1 ++ best :: l2) ++ al) -> a < h \/ h + 32 <= a) ->
             heap_mem (fst (reuse s best)) a = heap_mem s a).
Proof.
  intros Hwf.
  set (m := heap_mem s).
  set (L := (l1 ++ best :: l2) ++ al).
  pose proof (wf_free_chain _ _ _ Hwf) as Hsc.
  pose proof (wf_free_back _ _ _ Hwf) as Hsb.
  pose proof (wf_alloc_chain _ _ _ Hwf) as Hdc.
  pose proof (wf_alloc_back _ _ _ Hwf) as Hdb.
  pose proof (wf_nodup _ _ _ Hwf) as Hnd.
  pose proof (wf_sep _ _ _ Hwf) as Hsep.
  assert (Hword : forall a, In a L -> is_word a)
    by (intros a Ha; apply (wf_member _ _ _ Hwf a Ha)).
  destruct (dll_neighbours _ _ _ _ _ Hsc Hsb) as (Hn & Hp).
  fold m in Hsc, Hsb, Hdc, Hdb, Hn, Hp.
  pose proof (move_p m (free_list_head s) best l1 l2 al Hsc Hnd Hsep) as Mp.
  pose proof (move_n m (free_list_head s) best l1 l2 al Hsc Hnd Hsep) as Mn.
  assert (Hpn : last l1 NULL = NULL \/ hd NULL l2 = NULL
                \/ apart (last l1 NULL) (hd NULL l2)).
  { destruct Mp as [E | (Hin1 & _ & HL1 & _)]; [left; exact E|].
    destruct Mn as [E | (Hin2 & _ & HL2 & _)]; [right; left; exact E|].
    right. right. destruct (Hsep _ _ HL1 HL2) as [E | Hap]; [|exact Hap].
    exfalso. apply NoDup_app_remove_r in Hnd.
    apply NoDup_remove_1 in Hnd.
    apply (nodup_app_disjoint _ _ (last l1 NULL) Hnd); [exact Hin1|].
    rewrite E. exact Hin2. }
  destruct (unlink_free_spec s best) as (Gf & Ga & Gc & Gs & Ge & U1 & U2 & U3).
  { fold m. rewrite Hp. destruct Mp as [E | (_ & _ & _ & H)]; [left | right]; assumption. }
  { fold m. rewrite Hn. destruct Mn as [E | (_ & _ & _ & H)]; [left | right]; assumption. }
  { fold m. rewrite Hp, Hn. exact Hpn. }
  fold m in Gf, U1, U2, U3. rewrite Hp, Hn in *.
  set (s1 := unlink_free s best) in *.
  set (m1 := heap_mem s1) in *.
  assert (Em : heap_mem (fst (reuse s best))
               = set_allocated (splice_head m1 (allocated_list_head s) best) best true).
  { unfold reuse. cbn [fst with_mem heap_mem]. fold s1. rewrite Ga. reflexivity. }
  assert (Hnn1 : forall y, In y l1 -> y <> NULL).
  { intros y Hy. pose proof (path_nonnull _ _ _ _ Hsc) as Hnn.
    rewrite Forall_forall in Hnn. apply Hnn. apply in_or_app. left. exact Hy. }
  destruct (move_src m m1 (free_list_head s) (allocated_list_head s) best
                     l1 l2 al true Hsc Hsb Hdc Hnd Hsep Hword U1 U2 U3)
    as (Cs & Bs).
  destruct (move_dst m m1 (free_list_head s) (allocated_list_head s) best
                     l1 l2 al true Hsc Hdc Hdb Hnd Hsep Hword U3)
    as (Cd & Bd).
  pose proof (move_size m m1 (free_list_head s) (allocated_list_head s) best
                        l1 l2 al true Hsc Hdc Hnd Hsep Hword U3) as Msz.
  pose proof (move_flag_other m m1 (free_list_head s) (allocated_list_head s) best
                        l1 l2 al true Hsc Hdc Hnd Hsep Hword U3) as Mfl.
  pose proof (move_payload m m1 (free_list_head s) (allocated_list_head s) best
                        l1 l2 al true Hsc Hdc Hnd Hsep Hword U3) as Mpay.
  rewrite <- Em in Cs, Bs, Cd, Bd, Msz, Mfl, Mpay.
  pose proof (move_permutation l1 l2 al best) as Hperm.
  assert (Hin : forall y, In y ((l1 ++ l2) ++ best :: al) -> In y L).
  { intros y Hy. apply (Permutation_in _ (Permutation_sym Hperm)). exact Hy. }
  split; [|split; [exact Msz | exact Mpay]].
  constructor.
  - unfold reuse. cbn [fst with_mem with_allocated_list_head start_addr].
    fold s1. rewrite Gs. apply (wf_start _ _ _ Hwf).
  - unfold reuse. cbn [fst with_mem with_allocated_list_head free_addr end_addr].
    fold s1. rewrite Gc, Ge. apply (wf_cursor _ _ _ Hwf).
  - unfold reuse. cbn [fst with_mem with_allocated_list_head end_addr].
    fold s1. rewrite Ge. apply (wf_end _ _ _ Hwf).
  - replace (free_list_head (fst (reuse s best)))
      with (match l1 with [] => hd NULL l2 | _ => free_list_head s end).
    + exact Cs.
    + unfold reuse. cbn [fst with_mem with_allocated_list_head free_list_head].
      fold s1. rewrite Gf. symmetry. apply source_head, Hnn1.
  - exact Bs.
  - exact Cd.
  - exact Bd.
  - unfold all_free. apply Forall_forall. intros y Hy.
    destruct (move_src_in best l1 l2 al Hnd y Hy) as (HL & Hyx).
    rewrite (Mfl y HL Hyx).
    pose proof (wf_free_flags _ _ _ Hwf) as Hff. unfold all_free in Hff.
    rewrite Forall_forall in Hff. apply Hff.
    apply in_app_or in Hy. apply in_or_app.
    destruct Hy; [left | right; right]; assumption.
  - unfold all_allocated. constructor.
    + rewrite Em. apply hallocated_set_allocated.
    + apply Forall_forall. intros y Hy.
      destruct (move_dst_in best l1 l2 al Hnd y Hy) as (HL & Hyx).
      rewrite (Mfl y HL Hyx).
      pose proof (wf_alloc_flags _ _ _ Hwf) as Haf. unfold all_allocated in Haf.
      rewrite Forall_forall in Haf. apply Haf, Hy.
  - apply (Permutation_NoDup Hperm). exact Hnd.
  - intros h Hh. specialize (Hin h Hh).
    unfold block_end. rewrite (Msz h Hin).
    unfold reuse. cbn [fst with_mem with_allocated_list_head free_addr].
    fold s1. rewrite Gc. apply (wf_below _ _ _ Hwf h Hin).
  - intros h h' Hh Hh' Hne.
    pose proof (Hin h Hh) as HL. pose proof (Hin h' Hh') as HL'.
    unfold block_end. rewrite (Msz h HL), (Msz h' HL').
    apply (wf_apart _ _ _ Hwf h h' HL HL' Hne).
Qed.

Lemma in_app_swap (A B : list Z) (y : Z) : In y (A ++ B) -> In y (B ++ A).
Proof.
  intros H. apply in_app_or in H. apply in_or_app. tauto.
Qed.

(** [free] of an allocated block keeps the heap well formed: the header
    moves from the allocated list to the front of the free list. *)
Lemma free_wf (s : state) (fl l1 l2 : list Z) (ptr : Z) :
  heap_wf s fl (l1 ++ BLOCK_TO_HEADER ptr :: l2) ->
  ptr <> NULL ->
  exists s',
    free s ptr = Ok s' /\
    heap_wf s' (BLOCK_TO_HEADER ptr :: fl) (l1 ++ l2) /\
    (forall y, In y (fl ++ l1 ++ BLOCK_TO_HEADER ptr :: l2) ->
               hsize (heap_mem s') y = hsize (heap_mem s) y) /\
    (forall a, (forall h, In h (fl ++ l1 ++ BLOCK_TO_HEADER ptr :: l2) ->
                          a < h \/ h + 32 <= a) ->
               heap_mem s' a = heap_mem s a).
Proof.
  intros Hwf Hptr.
  set (x := BLOCK_TO_HEADER ptr) in *.
  set (m := heap_mem s).
  set (L := (l1 ++ x :: l2) ++ fl).
  pose proof (wf_alloc_chain _ _ _ Hwf) as Hsc.
  pose proof (wf_alloc_back _ _ _ Hwf) as Hsb.
  pose proof (wf_free_chain _ _ _ Hwf) as Hdc.
  pose proof (wf_free_back _ _ _ Hwf) as Hdb.
  assert (Hnd : NoDup L).
  { apply (Permutation_NoDup (Permutation_app_comm fl (l1 ++ x :: l2))).
    apply (wf_nodup _ _ _ Hwf). }
  assert (Hsep : forall a c, In a L -> In c L -> a = c \/ apart a c).
  { intros a c Ha Hc. apply (wf_sep _ _ _ Hwf); apply in_app_swap; assumption. }
  assert (Hword : forall a, In a L -> is_word a).
  { intros a Ha. apply (wf_member _ _ _ Hwf a). apply in_app_swap, Ha. }
  destruct (dll_neighbours _ _ _ _ _ Hsc Hsb) as (Hn & Hp).
  fold m in Hsc, Hsb, Hdc, Hdb, Hn, Hp.
  pose proof (move_p m (allocated_list_head s) x l1 l2 fl Hsc Hnd Hsep) as Mp.
  pose proof (move_n m (allocated_list_head s) x l1 l2 fl Hsc Hnd Hsep) as Mn.
  assert (Hpn : last l1 NULL = NULL \/ hd NULL l2 = NULL
                \/ apart (last l1 NULL) (hd NULL l2)).
  { destruct Mp as [E | (Hin1 & _ & HL1 & _)]; [left; exact E|].
    destruct Mn as [E | (Hin2 & _ & HL2 & _)]; [right; left; exact E|].
    right. right. destruct (Hsep _ _ HL1 HL2) as [E | Hap]; [|exact Hap].
    exfalso. apply NoDup_app_remove_r in Hnd.
    apply NoDup_remove_1 in Hnd.
    apply (nodup_app_disjoint _ _ (last l1 NULL) Hnd); [exact Hin1|].
    rewrite E. exact Hin2. }
  destruct (unlink_allocated_spec s x) as (Ga & Gf & Gc & Gs & Ge & U1 & U2 & U3).
  { fold m. rewrite Hp. destruct Mp as [E | (_ & _ & _ & H)]; [left | right]; assumption. }
  { fold m. rewrite Hn. destruct Mn as [E | (_ & _ & _ & H)]; [left | right]; assumption. }
  { fold m. rewrite Hp, Hn. exact Hpn. }
  fold m in Ga, U1, U2, U3. rewrite Hp, Hn in *.
  set (s1 := unlink_allocated s x) in *.
  set (m1 := heap_mem s1) in *.
  set (m3 := set_allocated (splice_head m1 (free_list_head s) x) x false).
  assert (Hflag : hallocated m x = true).
  { pose proof (wf_alloc_flags _ _ _ Hwf) as Haf. unfold all_allocated in Haf.
    rewrite Forall_forall in Haf. apply Haf, in_elt. }
  exists (with_mem (with_free_list_head s1 x) m3).
  split.
  { unfold free. destruct (Z.eqb_spec ptr NULL); [contradiction|].
    fold x. fold m. rewrite Hflag. cbn [negb]. fold s1. fold m1.
    rewrite Gf. reflexivity. }
  assert (Hnn1 : forall y, In y l1 -> y <> NULL).
  { intros y Hy. pose proof (path_nonnull _ _ _ _ Hsc) as Hnn.
    rewrite Forall_forall in Hnn. apply Hnn. apply in_or_app. left. exact Hy. }
  destruct (move_src m m1 (allocated_list_head s) (free_list_head s) x
                     l1 l2 fl false Hsc Hsb Hdc Hnd Hsep Hword U1 U2 U3)
    as (Cs & Bs).
  destruct (move_dst m m1 (allocated_list_head s) (free_list_head s) x
                     l1 l2 fl false Hsc Hdc Hdb Hnd Hsep Hword U3)
    as (Cd & Bd).
  pose proof (move_size m m1 (allocated_list_head s) (free_list_head s) x
                        l1 l2 fl false Hsc Hdc Hnd Hsep Hword U3) as Msz.
  pose proof (move_flag_other m m1 (allocated_list_head s) (free_list_head s) x
                        l1 l2 fl false Hsc Hdc Hnd Hsep Hword U3) as Mfl.
  pose proof (move_payload m m1 (allocated_list_head s) (free_list_head s) x
                        l1 l2 fl false Hsc Hdc Hnd Hsep Hword U3) as Mpay.
  fold m3 in Cs, Bs, Cd, Bd, Msz, Mfl, Mpay.
  assert (Hperm : Permutation (fl ++ l1 ++ x :: l2) ((x :: fl) ++ l1 ++ l2)).
  { cbn [app]. apply Permutation_sym.
    apply (Permutation_trans (Permutation_middle fl (l1 ++ l2) x)).
    apply Permutation_app_head.
    apply Permutation_middle. }
  assert (Hin : forall y, In y ((x :: fl) ++ l1 ++ l2) -> In y L).
  { intros y Hy. apply in_app_swap.
    apply (Permutation_in _ (Permutation_sym Hperm)). exact Hy. }
  cbn [with_mem with_free_list_head heap_mem].
  split; [|split].
  - constructor;
      cbn [with_mem with_free_list_head heap_mem free_list_head
           allocated_list_head free_addr start_addr end_addr].
    + rewrite Gs. apply (wf_start _ _ _ Hwf).
    + rewrite Gc, Ge. apply (wf_cursor _ _ _ Hwf).
    + rewrite Ge. apply (wf_end _ _ _ Hwf).
    + exact Cd.
    + exact Bd.
    + rewrite Ga. rewrite source_head by exact Hnn1. exact Cs.
    + exact Bs.
    + unfold all_free. constructor.
      * apply hallocated_set_allocated.
      * apply Forall_forall. intros y Hy.
        destruct (move_dst_in x l1 l2 fl Hnd y Hy) as (HL & Hyx).
        rewrite (Mfl y HL Hyx).
        pose proof (wf_free_flags _ _ _ Hwf) as Hff. unfold all_free in Hff.
        rewrite Forall_forall in Hff. apply Hff, Hy.
    + unfold all_allocated. apply Forall_forall. intros y Hy.
      destruct (move_src_in x l1 l2 fl Hnd y Hy) as (HL & Hyx).
      rewrite (Mfl y HL Hyx).
      pose proof (wf_alloc_flags _ _ _ Hwf) as Haf. unfold all_allocated in Haf.
      rewrite Forall_forall in Haf. apply Haf.
      apply in_app_or in Hy. apply in_or_app.
      destruct Hy; [left | right; right]; assumption.
    + apply (Permutation_NoDup Hperm). apply (wf_nodup _ _ _ Hwf).
    + intros h Hh. specialize (Hin h Hh).
      unfold block_end. rewrite (Msz h Hin). rewrite Gc.
      apply (wf_below _ _ _ Hwf h). apply in_app_swap, Hin.
    + intros h h' Hh Hh' Hne.
      pose proof (Hin h Hh) as HL. pose proof (Hin h' Hh') as HL'.
      unfold block_end. rewrite (Msz h HL), (Msz h' HL').
      apply (wf_apart _ _ _ Hwf h h'); try apply in_app_swap; assumption.
  - intros y Hy. apply Msz. apply in_app_swap, Hy.
  - intros a Ha. apply Mpay. intros h Hh. apply Ha. apply in_app_swap, Hh.
Qed.

Lemma two_62 : 2 ^ 62 = 4611686018427387904.
Proof. reflexivity. Qed.

Lemma two_61 : 2 ^ 61 = 2305843009213693952.
Proof. reflexivity. Qed.

(** A successful bump keeps the heap well formed: the new header goes to
    the front of the allocated list and its block ends at the new cursor. *)
Lemma bump_wf (s : state) (fl al : list Z) (size : Z) :
  heap_wf s fl al ->
  0 < size < 2 ^ 62 ->
  snd (bump_stores s size) <> NULL ->
  heap_wf (fst (bump_stores s size)) fl (bump_header s :: al) /\
  snd (bump_stores s size) = bump_header s + 32 /\
  BLOCK_TO_HEADER (snd (bump_stores s size)) = bump_header s /\
  free_addr s < bump_header s /\
  hsize (heap_mem (fst (bump_stores s size))) (bump_header s) = size /\
  (forall y, In y (fl ++ al) ->
             hsize (heap_mem (fst (bump_stores s size))) y = hsize (heap_mem s) y) /\
  (forall a, a < bump_header s ->
             (forall h, In h (fl ++ al) -> a < h \/ h + 32 <= a) ->
             heap_mem (fst (bump_stores s size)) a = heap_mem s a).
Proof.
  intros Hwf Hsize Hres.
  pose proof (wf_cursor _ _ _ Hwf) as Hcur.
  pose proof (wf_end _ _ _ Hwf) as Hend.
  rewrite two_62 in Hsize. rewrite two_61 in Hend.
  assert (Hcur' : 0 <= free_addr s < half - 16) by (rewrite half_eq; lia).
  destruct (align_up_nonneg (free_addr s) Hcur') as (_ & Hpad & _).
  clear Hcur'.
  assert (Hbh : bump_header s = align_up (free_addr s)).
  { unfold bump_header. apply uw_small. rewrite modulus_eq. lia. }
  set (a := bump_header s) in *.
  assert (Hb : HEADER_TO_BLOCK a = a + 32).
  { unfold HEADER_TO_BLOCK, sizeof_header. apply uw_small. rewrite modulus_eq. lia. }
  assert (Haw : is_word a) by (unfold is_word; rewrite modulus_eq; lia).
  assert (Hsw : sw (HEADER_TO_BLOCK a + size) = a + 32 + size).
  { rewrite Hb. apply sw_small. rewrite half_eq. lia. }
  assert (Hfit : sw (HEADER_TO_BLOCK a + size) <= end_addr s).
  { destruct (Z_gt_le_dec (sw (HEADER_TO_BLOCK a + size)) (end_addr s))
      as [Hover | Hfit]; [|exact Hfit].
    exfalso. apply Hres. apply (bump_out_of_space s size Hover). }
  destruct (bump_fits s size Hfit) as (Hp & Hfa). fold a in Hp, Hfa.
  rewrite Hsw in Hfa, Hfit.
  destruct (bump_frame s size) as (Gs & Ge & Gf).
  pose proof (bump_head s size) as Gh. fold a in Gh.
  set (m := heap_mem s).
  set (m' := heap_mem (fst (bump_stores s size))).
  pose proof (wf_alloc_head _ _ _ Hwf) as Hha.
  assert (Hmem : forall y, In y (fl ++ al) -> 0 < y /\ y + 32 <= free_addr s)
    by (intros y Hy; destruct (wf_member _ _ _ Hwf y Hy) as (? & ? & _); split; assumption).
  assert (Hhead : allocated_list_head s = NULL \/
                  (In (allocated_list_head s) al /\ allocated_list_head s <> NULL)).
  { rewrite Hha. destruct (hd_null_or_in al) as [(_ & E) | (_ & Hin)];
      [left; exact E | right; split; [exact Hin|]].
    apply (wf_member _ _ _ Hwf). apply in_or_app. right. exact Hin. }
  assert (Hhw : is_word (allocated_list_head s)).
  { destruct Hhead as [E | (Hin & _)]; [rewrite E; apply NULL_word|].
    apply (wf_member _ _ _ Hwf). apply in_or_app. right. exact Hin. }
  assert (Hout : forall i,
             i < a ->
             allocated_list_head s = NULL \/
             i < allocated_list_head s + 8 \/ allocated_list_head s + 16 <= i ->
             m' i = m i).
  { intros i Hi Hh. apply bump_outside; [exact Hhw | left; exact Hi | exact Hh]. }
  assert (Hrel : forall y, In y (fl ++ al) ->
             allocated_list_head s = NULL \/ y = allocated_list_head s \/
             apart y (allocated_list_head s)).
  { intros y Hy. destruct Hhead as [E | (Hin & _)]; [left; exact E|].
    right. apply (wf_sep _ _ _ Hwf); [exact Hy | apply in_or_app; right; exact Hin]. }
  assert (Hsz : forall y, In y (fl ++ al) -> hsize m' y = hsize m y).
  { intros y Hy. apply hsize_ext. intros i Hi.
    pose proof (Hmem y Hy). pose proof (Hrel y Hy). unfold apart, NULL in *.
    apply Hout; unfold NULL; lia. }
  assert (Hfl : forall y, In y (fl ++ al) -> hallocated m' y = hallocated m y).
  { intros y Hy. apply hallocated_ext.
    pose proof (Hmem y Hy). pose proof (Hrel y Hy). unfold apart, NULL in *.
    apply Hout; unfold NULL; lia. }
  assert (Hnx : forall y, In y (fl ++ al) -> hnext m' y = hnext m y).
  { intros y Hy. apply hnext_ext. intros i Hi.
    pose proof (Hmem y Hy). pose proof (Hrel y Hy). unfold apart, NULL in *.
    apply Hout; unfold NULL; lia. }
  assert (Hpv : forall y, In y (fl ++ al) -> y <> allocated_list_head s ->
                          hprev m' y = hprev m y).
  { intros y Hy Hne. apply hprev_ext. intros i Hi.
    pose proof (Hmem y Hy). pose proof (Hrel y Hy). unfold apart, NULL in *.
    apply Hout; unfold NULL; lia. }
  assert (Hap : allocated_list_head s = NULL \/ apart (allocated_list_head s) a).
  { destruct Hhead as [E | (Hin & _)]; [left; exact E|]. right.
    assert (In (allocated_list_head s) (fl ++ al)) by (apply in_or_app; right; exact Hin).
    pose proof (Hmem _ H). unfold apart. lia. }
  destruct (splice_head_fields m (allocated_list_head s) a Hhw Haw Hap)
    as (Fn & Fp & Fh).
  assert (Em : m' = set_allocated
                      (set_size (splice_head m (allocated_list_head s) a) a size)
                      a true) by apply bump_mem.
  assert (Fn' : hnext m' a = allocated_list_head s).
  { rewrite <- Fn. rewrite Em. apply hnext_ext. intros i Hi.
    unfold set_allocated, set_size, off_allocated, off_size.
    rewrite store8_outside by lia. apply store64_outside. lia. }
  assert (Fp' : hprev m' a = NULL).
  { rewrite <- Fp. rewrite Em. apply hprev_ext. intros i Hi.
    unfold set_allocated, set_size, off_allocated, off_size.
    rewrite store8_outside by lia. apply store64_outside. lia. }
  assert (Fh' : allocated_list_head s <> NULL -> hprev m' (allocated_list_head s) = a).
  { intros Hne. rewrite <- (Fh Hne). rewrite Em. apply hprev_ext. intros i Hi.
    destruct Hap as [C | Hap]; [contradiction|]. unfold apart in Hap.
    unfold set_allocated, set_size, off_allocated, off_size.
    rewrite store8_outside by lia. apply store64_outside. lia. }
  assert (Hnotin : ~ In a (fl ++ al)).
  { intros Hin. pose proof (Hmem a Hin). lia. }
  assert (Hndal : NoDup al) by (apply (NoDup_app_remove_l _ _ (wf_nodup _ _ _ Hwf))).
  destruct (push_dll m m' (allocated_list_head s) a al
                     (wf_alloc_chain _ _ _ Hwf) (wf_alloc_back _ _ _ Hwf) Hndal)
    as (Cd & Bd); try assumption.
  { unfold NULL. lia. }
  { intros y Hy. apply Hnx. apply in_or_app. right. exact Hy. }
  { intros y Hy Hne. apply Hpv; [apply in_or_app; right; exact Hy | exact Hne]. }
  assert (Hsa : hsize m' a = size).
  { apply bump_size. unfold is_word. rewrite modulus_eq. lia. }
  assert (Hin' : forall y, In y (fl ++ a :: al) -> y = a \/ In y (fl ++ al)).
  { intros y Hy. apply in_app_or in Hy. destruct Hy as [Hy | [Hy | Hy]].
    - right. apply in_or_app. left. exact Hy.
    - left. symmetry. exact Hy.
    - right. apply in_or_app. right. exact Hy. }
  split; [|repeat split; try assumption].
  - constructor.
    + rewrite Gs. apply (wf_start _ _ _ Hwf).
    + rewrite Hfa, Ge. lia.
    + rewrite Ge. rewrite two_61. exact Hend.
    + rewrite Gf. fold m'. apply (path_frame m); [|apply (wf_free_chain _ _ _ Hwf)].
      intros y Hy. apply Hnx. apply in_or_app. left. exact Hy.
    + fold m'. apply (back_links_frame m); [|apply (wf_free_back _ _ _ Hwf)].
      intros y Hy. apply Hpv; [apply in_or_app; left; exact Hy|].
      intros E. destruct Hhead as [E0 | (Hin & _)].
      * apply (wf_member _ _ _ Hwf y); [apply in_or_app; left; exact Hy | congruence].
      * apply (nodup_app_disjoint _ _ y (wf_nodup _ _ _ Hwf)); [exact Hy|].
        rewrite E. exact Hin.
    + rewrite Gh. exact Cd.
    + exact Bd.
    + unfold all_free. apply Forall_forall. intros y Hy. fold m'.
      rewrite Hfl by (apply in_or_app; left; exact Hy).
      pose proof (wf_free_flags _ _ _ Hwf) as Hff. unfold all_free in Hff.
      rewrite Forall_forall in Hff. apply Hff, Hy.
    + unfold all_allocated. constructor; [apply bump_flag|].
      apply Forall_forall. intros y Hy. fold m'.
      rewrite Hfl by (apply in_or_app; right; exact Hy).
      pose proof (wf_alloc_flags _ _ _ Hwf) as Haf. unfold all_allocated in Haf.
      rewrite Forall_forall in Haf. apply Haf, Hy.
    + apply (Permutation_NoDup (Permutation_middle fl al a)).
      constructor; [exact Hnotin | apply (wf_nodup _ _ _ Hwf)].
    + intros h Hh. fold m'. rewrite Hfa. unfold block_end, sizeof_header.
      destruct (Hin' h Hh) as [E | Hold].
      * subst h. rewrite Hsa. lia.
      * rewrite (Hsz h Hold). destruct (wf_member _ _ _ Hwf h Hold) as (? & ? & ? & _).
        unfold m. lia.
    + intros h h' Hh Hh' Hne. fold m'. unfold block_end, sizeof_header.
      destruct (Hin' h Hh) as [E | Hold]; destruct (Hin' h' Hh') as [E' | Hold'].
      * congruence.
      * subst h. rewrite (Hsz h' Hold').
        destruct (wf_member _ _ _ Hwf h' Hold') as (? & ? & ? & _). unfold m. lia.
      * subst h'. rewrite (Hsz h Hold).
        destruct (wf_member _ _ _ Hwf h Hold) as (? & ? & ? & _). unfold m. lia.
      * rewrite (Hsz h Hold), (Hsz h' Hold').
        apply (wf_apart _ _ _ Hwf h h' Hold Hold' Hne).
  - rewrite Hp. exact Hb.
  - rewrite Hp. apply header_block_header. exact Haw.
  - lia.
  - intros a0 Ha0 Hh. apply Hout; [exact Ha0|].
    destruct Hhead as [E | (Hin & _)]; [left; exact E|]. right.
    assert (HinL : In (allocated_list_head s) (fl ++ al))
      by (apply in_or_app; right; exact Hin).
    specialize (Hh _ HinL). lia.
Qed.

(** ** Calls on a well-formed heap *)

Lemma HEAP_SIZE_eq : HEAP_SIZE = 2147483648.
Proof. reflexivity. Qed.

Lemma init_ok (heap : Z) (s : state) (fl al : list Z) :
  mapping_ok heap -> heap_ok s fl al ->
  exists s0, init heap s = Ok s0 /\ heap_wf s0 fl al.
Proof.
  intros Hmap [Hwf | (Hs & Hf & Ha & -> & ->)].
  - exists s. split; [|exact Hwf]. apply init_initialised, (wf_start _ _ _ Hwf).
  - unfold mapping_ok in Hmap. rewrite two_61 in Hmap.
    change (2 ^ 31) with 2147483648 in Hmap.
    assert (Hh : heap <> MAP_FAILED) by (unfold MAP_FAILED; rewrite modulus_eq; lia).
    rewrite (init_first heap s Hs Hh). eexists. split; [reflexivity|].
    assert (Hsw : sw heap = heap) by (apply sw_small; rewrite half_eq; lia).
    assert (Hse : sw (heap + HEAP_SIZE) = heap + 2147483648)
      by (rewrite HEAP_SIZE_eq; apply sw_small; rewrite half_eq; lia).
    rewrite Hsw, Hse, Hf, Ha.
    constructor; cbn [start_addr free_addr end_addr free_list_head
                      allocated_list_head heap_mem app]; unfold chain;
      cbn [path back_links]; try reflexivity; try exact I;
      try (constructor; fail); try lia; try (rewrite two_61; lia).
    + intros h [].
    + intros h h' [].
Qed.

Lemma scan_fuel_mono (m : mem) (size : Z) (fuel : nat) :
  forall (fuel' : nat) (current best r : Z),
    (fuel <= fuel')%nat ->
    scan fuel m size current best = Ok r ->
    scan fuel' m size current best = Ok r.
Proof.
  induction fuel as [|fuel IH]; intros fuel' current best r Hle Hs;
    [discriminate|].
  destruct fuel' as [|fuel']; [lia|].
  cbn [scan] in Hs |- *.
  destruct (current =? NULL); [exact Hs|].
  destruct (hallocated m current); [exact Hs|].
  destruct (exact_fit m size (if improves m size current best then current else best));
    [exact Hs|].
  apply IH; [lia | exact Hs].
Qed.

(** A completed [malloc] that returns a block leaves a well-formed heap
    with the new block in front of the allocated list. *)
Lemma malloc_wf (fuel : nat) (heap : Z) (s s' : state) (fl al : list Z)
    (size p : Z) :
  mapping_ok heap -> heap_ok s fl al ->
  0 < size < 2 ^ 62 ->
  malloc fuel heap s size = Ok (s', p) ->
  p <> NULL ->
  exists fl',
    heap_wf s' fl' (BLOCK_TO_HEADER p :: al) /\
    p = BLOCK_TO_HEADER p + 32 /\
    size <= hsize (heap_mem s') (BLOCK_TO_HEADER p) /\
    (forall y, In y al -> hsize (heap_mem s') y = hsize (heap_mem s) y).
Proof.
  intros Hmap Hok Hsize Hm Hp.
  destruct (init_ok heap s fl al Hmap Hok) as (s0 & Hi & Hwf).
  assert (Hmem0 : heap_mem s0 = heap_mem s).
  { unfold init in Hi. destruct (start_addr s =? 0).
    - destruct (heap =? MAP_FAILED); [discriminate|]. inversion Hi. reflexivity.
    - inversion Hi. reflexivity. }
  rewrite <- Hmem0.
  unfold malloc in Hm. rewrite Hi in Hm. cbn [bind] in Hm.
  destruct (Z.eqb_spec size 0); [lia|].
  destruct (scan fuel (heap_mem s0) size (free_list_head s0) NULL) as [best| |] eqn:Es;
    try discriminate.
  cbn [bind] in Hm.
  apply (scan_fuel_mono _ _ _ (max fuel (S (length fl)))) in Es; [|lia].
  rewrite (scan_select (heap_mem s0) size fl) in Es
    by (try apply (wf_free_chain _ _ _ Hwf); try apply (wf_free_flags _ _ _ Hwf); lia).
  injection Es as Eb. symmetry in Eb.
  pose proof (path_nonnull _ _ _ _ (wf_free_chain _ _ _ Hwf)) as Hnn.
  assert (Hnull : NULL <> NULL -> size < hsize (heap_mem s0) NULL)
    by (intros C; contradiction).
  destruct (select_best_spec (heap_mem s0) size fl NULL Hnull Hnn)
    as [(E & _) | (l1 & l2 & E & Hle & _)].
  - rewrite <- Eb in E. rewrite E in Hm. cbn [Z.eqb NULL negb] in Hm.
    assert (Hb : bump_stores s0 size = (s', p))
      by (apply bump_ok_inv in Hm; symmetry; apply Hm).
    assert (Hs' : s' = fst (bump_stores s0 size)) by (rewrite Hb; reflexivity).
    assert (Hp' : p = snd (bump_stores s0 size)) by (rewrite Hb; reflexivity).
    rewrite Hp' in Hp.
    destruct (bump_wf s0 fl al size Hwf Hsize Hp)
      as (Hwf' & Hq & Hbh & _ & Hsz & Hold & _).
    exists fl. rewrite Hs', Hp', Hbh.
    split; [|split; [|split]].
    + exact Hwf'.
    + exact Hq.
    + rewrite Hsz. lia.
    + intros y Hy. apply Hold. apply in_or_app. right. exact Hy.
  - rewrite <- Eb in E, Hle.
    assert (Hin : In best (fl ++ al))
      by (apply in_or_app; left; rewrite E; apply in_elt).
    destruct (wf_member _ _ _ Hwf best Hin) as (Hpos & Hb32 & _ & Hcur & Hw & Hbn).
    destruct (Z.eqb_spec best NULL); [contradiction|]. cbn [negb] in Hm.
    assert (Hr : reuse s0 best = (s', p)) by (inversion Hm; reflexivity).
    assert (Hs' : s' = fst (reuse s0 best)) by (rewrite Hr; reflexivity).
    assert (Hp' : p = HEADER_TO_BLOCK best) by (rewrite <- (reuse_pointer s0 best), Hr; reflexivity).
    assert (Hbh : BLOCK_TO_HEADER p = best)
      by (rewrite Hp'; apply header_block_header, Hw).
    assert (Hq : p = best + 32).
    { rewrite Hp'. unfold HEADER_TO_BLOCK, sizeof_header. apply uw_small.
      rewrite two_61 in Hcur. rewrite modulus_eq. lia. }
    rewrite E in Hwf.
    destruct (reuse_wf s0 l1 l2 al best Hwf) as (Hwf' & Hold & _).
    exists (l1 ++ l2). rewrite Hbh, Hs'.
    split; [|split; [|split]].
    + exact Hwf'.
    + exact Hq.
    + rewrite Hold by (apply in_or_app; left; apply in_elt). exact Hle.
    + intros y Hy. apply Hold. apply in_or_app. right. exact Hy.
Qed.

(** On a well-formed heap [malloc] neither loops nor reaches [ERROR], given
    one unit of fuel per free header and one more: it completes, unless it
    takes the bump path with a header that does not lie inside the
    region. *)
Lemma malloc_total (fuel : nat) (heap : Z) (s : state) (fl al : list Z)
    (size : Z) :
  mapping_ok heap -> heap_ok s fl al -> (length fl < fuel)%nat ->
  exists s0,
    init heap s = Ok s0 /\ heap_wf s0 fl al /\
    ((exists s' p, malloc fuel heap s size = Ok (s', p)) \/
     (size <> 0 /\
      select_best (heap_mem s0) size fl NULL = NULL /\
      (bump_header s0 < start_addr s0 \/ end_addr s0 < bump_header s0 + 32) /\
      malloc fuel heap s size = Fatal (StoreOutsideRegion (bump_header s0)))).
Proof.
  intros Hmap Hok Hlen.
  destruct (init_ok heap s fl al Hmap Hok) as (s0 & Hi & Hwf).
  exists s0. split; [exact Hi|]. split; [exact Hwf|].
  unfold malloc. rewrite Hi. cbn [bind].
  destruct (Z.eqb_spec size 0) as [E0 | E0]; [left; eexists; eexists; reflexivity|].
  rewrite (scan_select (heap_mem s0) size fl)
    by (try apply (wf_free_chain _ _ _ Hwf); try apply (wf_free_flags _ _ _ Hwf);
        exact Hlen).
  cbn [bind].
  destruct (Z.eqb_spec (select_best (heap_mem s0) size fl NULL) NULL) as [Eb | Eb];
    cbn [negb].
  - destruct (Z_le_gt_dec (start_addr s0) (bump_header s0)) as [Hlo | Hlo];
      [destruct (Z_le_gt_dec (bump_header s0 + 32) (end_addr s0)) as [Hhi | Hhi]|].
    + left. exists (fst (bump_stores s0 size)), (snd (bump_stores s0 size)).
      rewrite (bump_in_region s0 size Hlo Hhi), <- surjective_pairing. reflexivity.
    + right. split; [exact E0|]. split; [exact Eb|].
      split; [right; lia|]. apply bump_not_in_region. right. lia.
    + right. split; [exact E0|]. split; [exact Eb|].
      split; [left; lia|]. apply bump_not_in_region. left. lia.
  - left. exists (fst (reuse s0 (select_best (heap_mem s0) size fl NULL))),
           (snd (reuse s0 (select_best (heap_mem s0) size fl NULL))).
    rewrite <- surjective_pairing. reflexivity.
Qed.

Lemma memcpy_outside (m : mem) (dst src n a : Z) :
  a < dst \/ dst + n <= a -> memcpy m dst src n a = m a.
Proof.
  intros H. unfold memcpy.
  destruct (Z.leb_spec dst a); [|reflexivity].
  destruct (Z.ltb_spec a (dst + n)); [lia | reflexivity].
Qed.

(** Stores into the payload of one block leave the heap well formed. *)
Lemma payload_write_wf (s : state) (fl al : list Z) (m' : mem) (h0 : Z) :
  heap_wf s fl al ->
  In h0 (fl ++ al) ->
  (forall a, a < h0 + 32 \/ block_end (heap_mem s) h0 <= a -> m' a = heap_mem s a) ->
  heap_wf (with_mem s m') fl al.
Proof.
  intros Hwf Hin Hfr.
  set (m := heap_mem s) in *.
  assert (Hhdr : forall y, In y (fl ++ al) ->
                 forall i, y <= i < y + 32 -> m' i = m i).
  { intros y Hy i Hi. apply Hfr.
    destruct (Z.eq_dec h0 y) as [E | E]; [left; lia|].
    pose proof (hsize_range m y) as Hr. unfold is_word in Hr.
    destruct (wf_apart _ _ _ Hwf h0 y Hin Hy E) as [C | C];
      fold m in C; unfold block_end, sizeof_header in *; lia. }
  assert (Hnx : forall y, In y (fl ++ al) -> hnext m' y = hnext m y).
  { intros y Hy. apply hnext_ext. intros i Hi. apply (Hhdr y Hy). lia. }
  assert (Hpv : forall y, In y (fl ++ al) -> hprev m' y = hprev m y).
  { intros y Hy. apply hprev_ext. intros i Hi. apply (Hhdr y Hy). lia. }
  assert (Hsz : forall y, In y (fl ++ al) -> hsize m' y = hsize m y).
  { intros y Hy. apply hsize_ext. intros i Hi. apply (Hhdr y Hy). lia. }
  assert (Hfl : forall y, In y (fl ++ al) -> hallocated m' y = hallocated m y).
  { intros y Hy. apply hallocated_ext. apply (Hhdr y Hy). lia. }
  constructor; cbn [with_mem start_addr free_addr end_addr free_list_head
                    allocated_list_head heap_mem].
  - apply (wf_start _ _ _ Hwf).
  - apply (wf_cursor _ _ _ Hwf).
  - apply (wf_end _ _ _ Hwf).
  - apply (path_frame m); [|apply (wf_free_chain _ _ _ Hwf)].
    intros y Hy. apply Hnx. apply in_or_app. left. exact Hy.
  - apply (back_links_frame m); [|apply (wf_free_back _ _ _ Hwf)].
    intros y Hy. apply Hpv. apply in_or_app. left. exact Hy.
  - apply (path_frame m); [|apply (wf_alloc_chain _ _ _ Hwf)].
    intros y Hy. apply Hnx. apply in_or_app. right. exact Hy.
  - apply (back_links_frame m); [|apply (wf_alloc_back _ _ _ Hwf)].
    intros y Hy. apply Hpv. apply in_or_app. right. exact Hy.
  - unfold all_free. apply Forall_forall. intros y Hy.
    rewrite Hfl by (apply in_or_app; left; exact Hy).
    pose proof (wf_free_flags _ _ _ Hwf) as Hff. unfold all_free in Hff.
    rewrite Forall_forall in Hff. apply Hff, Hy.
  - unfold all_allocated. apply Forall_forall. intros y Hy.
    rewrite Hfl by (apply in_or_app; right; exact Hy).
    pose proof (wf_alloc_flags _ _ _ Hwf) as Haf. unfold all_allocated in Haf.
    rewrite Forall_forall in Haf. apply Haf, Hy.
  - apply (wf_nodup _ _ _ Hwf).
  - intros h Hh. unfold block_end. rewrite (Hsz h Hh).
    apply (wf_below _ _ _ Hwf h Hh).
  - intros h h' Hh Hh' Hne. unfold block_end. rewrite (Hsz h Hh), (Hsz h' Hh').
    apply (wf_apart _ _ _ Hwf h h' Hh Hh' Hne).
Qed.

Lemma malloc_zero_ok (fuel : nat) (heap : Z) (s s' : state) (fl al : list Z)
    (p : Z) :
  mapping_ok heap -> heap_ok s fl al ->
  malloc fuel heap s 0 = Ok (s', p) ->
  heap_wf s' fl al.
Proof.
  intros Hmap Hok Hm.
  destruct (init_ok heap s fl al Hmap Hok) as (s0 & Hi & Hwf).
  unfold malloc in Hm. rewrite Hi in Hm. cbn in Hm.
  inversion Hm; subst. exact Hwf.
Qed.

Lemma live_block_wf (s : state) (fl al : list Z) (ptr : Z) :
  heap_ok s fl al -> live_block s ptr ->
  heap_wf s fl al /\ In (BLOCK_TO_HEADER ptr) al /\
  ptr = BLOCK_TO_HEADER ptr + 32 /\ ptr <> NULL.
Proof.
  intros Hok (al' & Hc & Hin & Hp).
  destruct Hok as [Hwf | (_ & _ & Ha & _ & ->)].
  - rewrite (chain_unique _ _ _ _ Hc (wf_alloc_chain _ _ _ Hwf)) in Hin.
    split; [exact Hwf|]. split; [exact Hin|]. split; [exact Hp|].
    assert (HL : In (BLOCK_TO_HEADER ptr) (fl ++ al))
      by (apply in_or_app; right; exact Hin).
    destruct (wf_member _ _ _ Hwf _ HL) as (Hpos & _). unfold NULL. lia.
  - exfalso. rewrite Ha in Hc. destruct al' as [|a al']; [exact Hin|].
    unfold chain in Hc. cbn [path] in Hc. destruct Hc as (E & Hn & _).
    apply Hn. symmetry. exact E.
Qed.

Lemma free_ok (s s' : state) (fl al : list Z) (ptr : Z) :
  heap_ok s fl al ->
  ptr = NULL \/ live_block s ptr ->
  free s ptr = Ok s' ->
  exists fl' al', heap_ok s' fl' al'.
Proof.
  intros Hok [E | Hlive] Hf.
  - subst ptr. cbn in Hf. inversion Hf; subst. exists fl, al. exact Hok.
  - destruct (live_block_wf s fl al ptr Hok Hlive) as (Hwf & Hin & _ & Hn).
    apply in_split in Hin. destruct Hin as (l1 & l2 & El). rewrite El in Hwf.
    destruct (free_wf s fl l1 l2 ptr Hwf Hn) as (s1 & Hf1 & Hwf1 & _).
    rewrite Hf1 in Hf. inversion Hf; subst.
    exists (BLOCK_TO_HEADER ptr :: fl), (l1 ++ l2). left. exact Hwf1.
Qed.

Lemma calloc_ok (fuel : nat) (heap : Z) (s s' : state) (fl al : list Z)
    (nmemb size p : Z) :
  mapping_ok heap -> heap_ok s fl al ->
  uw (nmemb * size) < 2 ^ 62 ->
  calloc fuel heap s nmemb size = Ok (s', p) ->
  uw (nmemb * size) = 0 \/ p <> NULL ->
  exists fl' al', heap_ok s' fl' al'.
Proof.
  intros Hmap Hok Hlt Hc Hres.
  pose proof (uw_range (nmemb * size)) as Hr.
  set (total := uw (nmemb * size)) in *.
  unfold calloc in Hc. fold total in Hc.
  destruct (malloc fuel heap s total) as [[s1 q]| |] eqn:Em; try discriminate.
  cbn [bind] in Hc.
  destruct (Z.eq_dec total 0) as [E0 | E0].
  - rewrite E0 in Em.
    pose proof (malloc_zero_ok fuel heap s s1 fl al q Hmap Hok Em) as Hwf.
    assert (q = NULL).
    { destruct (init_ok heap s fl al Hmap Hok) as (s0 & Hi & _).
      unfold malloc in Em. rewrite Hi in Em. cbn in Em. inversion Em. reflexivity. }
    subst q. cbn in Hc. inversion Hc; subst. exists fl, al. left. exact Hwf.
  - destruct (Z.eqb_spec q NULL) as [Eq | Eq]; cbn [negb] in Hc.
    + inversion Hc; subst. destruct Hres; contradiction.
    + inversion Hc; subst. clear Hc.
      destruct (malloc_wf fuel heap s s1 fl al total p Hmap Hok) as
          (fl' & Hwf & Hp & Hsz & _); try assumption; [lia|].
      exists fl', (BLOCK_TO_HEADER p :: al). left.
      apply (payload_write_wf s1 fl' (BLOCK_TO_HEADER p :: al) _ (BLOCK_TO_HEADER p) Hwf).
      * apply in_or_app. right. left. reflexivity.
      * intros a Ha. apply memset_outside.
        unfold block_end, sizeof_header in Ha. lia.
Qed.

Lemma realloc_ok (fuel : nat) (heap : Z) (s s' : state) (fl al : list Z)
    (ptr size p : Z) :
  mapping_ok heap -> heap_ok s fl al ->
  ptr = NULL \/ live_block s ptr ->
  0 <= size < 2 ^ 62 ->
  realloc fuel heap s ptr size = Ok (s', p) ->
  size = 0 \/ p <> NULL ->
  exists fl' al', heap_ok s' fl' al'.
Proof.
  intros Hmap Hok Hptr Hsize Hr Hres.
  unfold realloc in Hr.
  destruct (Z.eqb_spec ptr NULL) as [En | En].
  - destruct (Z.eq_dec size 0) as [E0 | E0].
    + subst size. exists fl, al. left.
      apply (malloc_zero_ok fuel heap s s' fl al p Hmap Hok Hr).
    + destruct Hres as [C | Hp]; [contradiction|].
      destruct (malloc_wf fuel heap s s' fl al size p Hmap Hok) as
          (fl' & Hwf & _); try assumption; [lia|].
      exists fl', (BLOCK_TO_HEADER p :: al). left. exact Hwf.
  - destruct Hptr as [C | Hlive]; [contradiction|].
    destruct (Z.eqb_spec size 0) as [E0 | E0].
    + destruct (free s ptr) as [s1| |] eqn:Ef; try discriminate.
      cbn [bind] in Hr. inversion Hr; subst.
      apply (free_ok s s' fl al ptr Hok (or_intror Hlive) Ef).
    + destruct (size <=? hsize (heap_mem s) (BLOCK_TO_HEADER ptr)) eqn:Ele.
      * inversion Hr; subst. exists fl, al. exact Hok.
      * apply Z.leb_gt in Ele.
        destruct (malloc fuel heap s size) as [[s1 q]| |] eqn:Em; try discriminate.
        cbn [bind] in Hr.
        destruct (Z.eqb_spec q NULL) as [Eq | Eq]; cbn [negb] in Hr.
        { inversion Hr; subst. destruct Hres; contradiction. }
        destruct (live_block_wf s fl al ptr Hok Hlive) as (Hwf0 & Hin & _ & _).
        destruct (malloc_wf fuel heap s s1 fl al size q Hmap Hok) as
            (fl' & Hwf & Hq & Hsz & Hold); try assumption; [lia|].
        set (n := hsize (heap_mem s1) (BLOCK_TO_HEADER ptr)) in *.
        assert (Hn : n = hsize (heap_mem s) (BLOCK_TO_HEADER ptr))
          by (apply Hold, Hin).
        set (m2 := memcpy (heap_mem s1) q ptr n) in *.
        assert (Hwf2 : heap_wf (with_mem s1 m2) fl' (BLOCK_TO_HEADER q :: al)).
        { apply (payload_write_wf s1 fl' (BLOCK_TO_HEADER q :: al) m2
                                  (BLOCK_TO_HEADER q) Hwf).
          - apply in_or_app. right. left. reflexivity.
          - intros a Ha. apply memcpy_outside.
            unfold block_end, sizeof_header in Ha. lia. }
        apply in_split in Hin. destruct Hin as (l1 & l2 & El).
        rewrite El in Hwf2.
        change (BLOCK_TO_HEADER q :: l1 ++ BLOCK_TO_HEADER ptr :: l2)
          with ((BLOCK_TO_HEADER q :: l1) ++ BLOCK_TO_HEADER ptr :: l2) in Hwf2.
        destruct (free_wf _ fl' (BLOCK_TO_HEADER q :: l1) l2 ptr Hwf2 En)
          as (s3 & Hf3 & Hwf3 & _).
        rewrite Hf3 in Hr. cbn [bind] in Hr. inversion Hr; subst.
        exists (BLOCK_TO_HEADER ptr :: fl'), ((BLOCK_TO_HEADER p :: l1) ++ l2).
        left. exact Hwf3.
Qed.

(** ** Runs without failed allocations *)

Lemma good_run_ok (heap : Z) (s : state) :
  mapping_ok heap -> good_run heap s -> exists fl al, heap_ok s fl al.
Proof.
  intros Hmap Hrun. induction Hrun as
      [ | s fuel size s' p _ IH Hsize Hm Hres
        | s ptr s' _ IH Hptr Hf
        | s fuel nmemb size s' p _ IH Hlt Hc Hres
        | s fuel ptr size s' p _ IH Hptr Hsize Hr Hres
        | s ptr m' _ IH Hlive Hst ].
  - exists [], []. right. repeat split; reflexivity.
  - destruct IH as (fl & al & Hok).
    destruct (Z.eq_dec size 0) as [E0 | E0].
    + subst size. exists fl, al. left.
      apply (malloc_zero_ok fuel heap s s' fl al p Hmap Hok Hm).
    + destruct Hres as [C | Hp]; [contradiction|].
      destruct (malloc_wf fuel heap s s' fl al size p Hmap Hok) as
          (fl' & Hwf & _); try assumption; [lia|].
      exists fl', (BLOCK_TO_HEADER p :: al). left. exact Hwf.
  - destruct IH as (fl & al & Hok). apply (free_ok s s' fl al ptr Hok Hptr Hf).
  - destruct IH as (fl & al & Hok).
    apply (calloc_ok fuel heap s s' fl al nmemb size p Hmap Hok Hlt Hc Hres).
  - destruct IH as (fl & al & Hok).
    apply (realloc_ok fuel heap s s' fl al ptr size p Hmap Hok Hptr Hsize Hr Hres).
  - destruct IH as (fl & al & Hok).
    destruct (live_block_wf s fl al ptr Hok Hlive) as (Hwf & Hin & Hp & _).
    exists fl, al. left.
    apply (payload_write_wf s fl al m' (BLOCK_TO_HEADER ptr) Hwf).
    + apply in_or_app. right. exact Hin.
    + intros a Ha. apply Hst. unfold block_end, sizeof_header in Ha. lia.
Qed.

(** X3: in a run without failed allocations the list invariant holds after
    every completed call: both lists are null-terminated and doubly linked,
    no header is on both or twice on one, and the flags agree with the
    lists. *)
Theorem good_run_invariant (heap : Z) (s : state) :
  mapping_ok heap -> good_run heap s -> lists_invariant s.
Proof.
  intros Hmap Hrun.
  destruct (good_run_ok heap s Hmap Hrun) as (fl & al & [Hwf | Hinit]).
  - apply (heap_wf_invariant s fl al Hwf).
  - destruct Hinit as (_ & Hf & Ha & -> & ->).
    exists [], []. unfold chain. cbn [path back_links app].
    repeat split; try assumption; constructor.
Qed.

Lemma example_heap_ok : mapping_ok example_heap.
Proof. unfold mapping_ok, example_heap. rewrite two_61. change (2 ^ 31) with 2147483648. lia. Qed.

Ltac run_size := rewrite two_62; lia.

Ltac live al :=
  right; exists al; unfold chain; cbn [path];
  repeat split; try (vm_compute; (reflexivity || discriminate));
  vm_compute; tauto.

(** The run [x = malloc(24); y = malloc(19); z = malloc(32); free(z);
    free(y); free(x)] has no failed allocation. *)
Example good_run_three_free : good_run example_heap state_three_free.
Proof.
  set (s1 := after_malloc initial_state 24).
  set (s2 := after_malloc s1 19).
  set (f1 := after_free state_xyz 65712).
  set (f2 := after_free f1 65648).
  assert (R1 : good_run example_heap s1).
  { apply (run_malloc example_heap initial_state 8 24 s1 65584);
      [apply run_start | run_size | reflexivity | right; discriminate]. }
  assert (R2 : good_run example_heap s2).
  { apply (run_malloc example_heap s1 8 19 s2 65648);
      [exact R1 | run_size | reflexivity | right; discriminate]. }
  assert (R3 : good_run example_heap state_xyz).
  { apply (run_malloc example_heap s2 8 32 state_xyz 65712);
      [exact R2 | run_size | reflexivity | right; discriminate]. }
  assert (F1 : good_run example_heap f1).
  { apply (run_free example_heap state_xyz 65712 f1);
      [exact R3 | live [65680; 65616; 65552] | reflexivity]. }
  assert (F2 : good_run example_heap f2).
  { apply (run_free example_heap f1 65648 f2);
      [exact F1 | live [65616; 65552] | reflexivity]. }
  apply (run_free example_heap f2 65584 state_three_free);
    [exact F2 | live [65552] | reflexivity].
Qed.

Lemma three_free_invariant : lists_invariant state_three_free.
Proof.
  apply (good_run_invariant example_heap state_three_free).
  - exact example_heap_ok.
  - exact good_run_three_free.
Defined.

(** ** A run with a failed allocation *)

(** C5 fails on the code: on a fresh process [malloc(3 GB)] returns [NULL]
    but leaves its header at [65552] on the allocated list and the cursor
    at [65552]; the header of the following [malloc(8)] is written at
    [65568], 16 bytes further, and its [prev] field lies over the
    [allocated] flag of the first header.  After the two calls the
    allocated list is [65568; 65552] and the header at [65552] is marked
    free: the invariant does not hold. *)
Theorem phantom_header_breaks_invariant :
  pointer_after (malloc 1 example_heap initial_state (3 * 2 ^ 30)) = Some NULL /\
  pointer_after
    (malloc 1 example_heap (after_malloc initial_state (3 * 2 ^ 30)) 8)
  = Some 65600 /\
  chain (heap_mem state_phantom) (allocated_list_head state_phantom)
        [65568; 65552] /\
  hallocated (heap_mem state_phantom) 65552 = false /\
  ~ lists_invariant state_phantom.
Proof.
  assert (Hc : chain (heap_mem state_phantom) (allocated_list_head state_phantom)
                     [65568; 65552]).
  { unfold chain. cbn [path].
    repeat split; vm_compute; (reflexivity || discriminate). }
  assert (Hfree : hallocated (heap_mem state_phantom) 65552 = false)
    by (vm_compute; reflexivity).
  split; [vm_compute; reflexivity|].
  split; [vm_compute; reflexivity|].
  split; [exact Hc|]. split; [exact Hfree|].
  intros (fl & al & _ & Hal & _ & _ & _ & _ & Hflag).
  rewrite (chain_unique _ _ _ _ Hal Hc) in Hflag.
  apply Forall_inv_tail, Forall_inv in Hflag. cbv beta in Hflag.
  rewrite Hfree in Hflag. discriminate.
Qed.

(** * Further properties of the code *)

(** ** Globals that a call leaves alone *)

Lemma reuse_globals (s : state) (best : Z) :
  free_addr (fst (reuse s best)) = free_addr s /\
  start_addr (fst (reuse s best)) = start_addr s /\
  end_addr (fst (reuse s best)) = end_addr s.
Proof.
  unfold reuse, unlink_free.
  destruct (hprev (heap_mem s) best =? NULL);
    match goal with |- context [if ?c then _ else _] => destruct c end;
    repeat split; reflexivity.
Qed.

Lemma free_globals (s s' : state) (ptr : Z) :
  free s ptr = Ok s' ->
  free_addr s' = free_addr s /\
  start_addr s' = start_addr s /\
  end_addr s' = end_addr s.
Proof.
  unfold free. destruct (ptr =? NULL).
  - intros H. inversion H. repeat split; reflexivity.
  - destruct (negb (hallocated (heap_mem s) (BLOCK_TO_HEADER ptr))); [discriminate|].
    intros H. inversion H. clear H. unfold unlink_allocated.
    destruct (negb (hnext (heap_mem s) (BLOCK_TO_HEADER ptr) =? NULL));
      match goal with |- context [if ?c then _ else _] => destruct c end;
      repeat split; reflexivity.
Qed.

Lemma init_globals (heap : Z) (s s0 : state) :
  init heap s = Ok s0 ->
  heap_mem s0 = heap_mem s /\
  free_list_head s0 = free_list_head s /\
  allocated_list_head s0 = allocated_list_head s /\
  (start_addr s <> 0 -> s0 = s) /\
  (start_addr s = 0 ->
   start_addr s0 = sw heap /\ free_addr s0 = sw heap /\
   end_addr s0 = sw (sw heap + HEAP_SIZE)).
Proof.
  unfold init. destruct (Z.eqb_spec (start_addr s) 0) as [E | E].
  - destruct (heap =? MAP_FAILED); [discriminate|].
    intros H. inversion H. cbn.
    repeat split; try reflexivity; contradiction.
  - intros H. inversion H. subst s0.
    repeat split; try reflexivity; contradiction.
Qed.

(** A byte of the payload of one block lies in no header. *)
Lemma payload_outside_headers (s : state) (fl al : list Z) (y a : Z) :
  heap_wf s fl al -> In y (fl ++ al) ->
  y + 32 <= a < block_end (heap_mem s) y ->
  forall h, In h (fl ++ al) -> a < h \/ h + 32 <= a.
Proof.
  intros Hwf Hy Ha h Hh.
  destruct (Z.eq_dec y h) as [E | E]; [subst h; right; lia|].
  pose proof (hsize_range (heap_mem s) h) as Hr. unfold is_word in Hr.
  destruct (wf_apart _ _ _ Hwf y h Hy Hh E) as [C | C];
    unfold block_end, sizeof_header in *; lia.
Qed.

(** ** The heap inside its mapping *)

Lemma run_ok_heap_ok (s : state) (fl al : list Z) :
  run_ok s fl al -> heap_ok s fl al.
Proof. intros [(H & _) | H]; [left | right]; exact H. Qed.

Lemma init_region (heap : Z) (s : state) (fl al : list Z) :
  mapping_ok heap -> run_ok s fl al ->
  exists s0,
    init heap s = Ok s0 /\ region_ok s0 fl al /\ heap_mem s0 = heap_mem s /\
    (start_addr s <> 0 -> s0 = s).
Proof.
  intros Hmap Hrun.
  destruct (init_ok heap s fl al Hmap (run_ok_heap_ok _ _ _ Hrun)) as (s0 & Hi & Hwf).
  destruct (init_globals heap s s0 Hi) as (Hm & _ & _ & Hsame & Hfirst).
  exists s0. split; [exact Hi|]. split; [|split; assumption].
  destruct Hrun as [Hreg | (Hs & _ & _ & -> & ->)].
  - rewrite (Hsame (wf_start _ _ _ (proj1 Hreg))). exact Hreg.
  - destruct (Hfirst Hs) as (E1 & E2 & E3).
    unfold mapping_ok in Hmap. rewrite two_61 in Hmap.
    change (2 ^ 31) with 2147483648 in Hmap.
    assert (Hsw : sw heap = heap) by (apply sw_small; rewrite half_eq; lia).
    rewrite Hsw in E1, E2, E3.
    rewrite sw_small in E3 by (rewrite HEAP_SIZE_eq, half_eq; lia).
    split; [exact Hwf|]. rewrite E1, E2, E3.
    split; [lia|]. split; [reflexivity|]. intros y [].
Qed.

Lemma bump_header_aligned (s : state) :
  0 <= free_addr s < 2 ^ 61 -> bump_header s mod 16 = 0.
Proof.
  intros H. rewrite two_61 in H.
  assert (Hc : 0 <= free_addr s < half - 16) by (rewrite half_eq; lia).
  destruct (align_up_nonneg (free_addr s) Hc) as (_ & Hpad & Hmod).
  unfold bump_header. rewrite uw_small; [exact Hmod|].
  rewrite modulus_eq. lia.
Qed.

(** A completed [malloc] that returns a block, in full: the new heap, the
    sizes and payloads it keeps, and which path was taken. *)
Lemma malloc_step (fuel : nat) (heap : Z) (s s' : state) (fl al : list Z)
    (size p : Z) :
  mapping_ok heap -> run_ok s fl al ->
  0 < size < 2 ^ 62 ->
  malloc fuel heap s size = Ok (s', p) ->
  p <> NULL ->
  exists fl',
    region_ok s' fl' (BLOCK_TO_HEADER p :: al) /\
    p = BLOCK_TO_HEADER p + 32 /\
    size <= hsize (heap_mem s') (BLOCK_TO_HEADER p) /\
    (forall y, In y (fl ++ al) -> hsize (heap_mem s') y = hsize (heap_mem s) y) /\
    (forall y a, In y (fl ++ al) ->
                 y + 32 <= a < block_end (heap_mem s) y ->
                 heap_mem s' a = heap_mem s a) /\
    ((exists l1 l2,
         fl = l1 ++ BLOCK_TO_HEADER p :: l2 /\ fl' = l1 ++ l2 /\
         free_addr s' = free_addr s)
     \/
     (fl' = fl /\ ~ In (BLOCK_TO_HEADER p) (fl ++ al) /\
      hsize (heap_mem s') (BLOCK_TO_HEADER p) = size /\
      free_addr s' = p + size)).
Proof.
  intros Hmap Hrun Hsize Hm Hp.
  destruct (init_region heap s fl al Hmap Hrun)
    as (s0 & Hi & (Hwf & Hlow & Hend & Hhdr) & Hmem0 & Hsame).
  rewrite <- Hmem0.
  unfold malloc in Hm. rewrite Hi in Hm. cbn [bind] in Hm.
  destruct (Z.eqb_spec size 0); [lia|].
  destruct (scan fuel (heap_mem s0) size (free_list_head s0) NULL) as [best| |] eqn:Es;
    try discriminate.
  cbn [bind] in Hm.
  apply (scan_fuel_mono _ _ _ (max fuel (S (length fl)))) in Es; [|lia].
  rewrite (scan_select (heap_mem s0) size fl) in Es
    by (try apply (wf_free_chain _ _ _ Hwf); try apply (wf_free_flags _ _ _ Hwf); lia).
  injection Es as Eb. symmetry in Eb.
  pose proof (path_nonnull _ _ _ _ (wf_free_chain _ _ _ Hwf)) as Hnn.
  assert (Hnull : NULL <> NULL -> size < hsize (heap_mem s0) NULL)
    by (intros C; contradiction).
  destruct (select_best_spec (heap_mem s0) size fl NULL Hnull Hnn)
    as [(E & _) | (l1 & l2 & E & Hle & _)].
  - rewrite <- Eb in E. rewrite E in Hm. cbn [Z.eqb NULL negb] in Hm.
    assert (Hb : bump_stores s0 size = (s', p))
      by (apply bump_ok_inv in Hm; symmetry; apply Hm).
    assert (Hs' : s' = fst (bump_stores s0 size)) by (rewrite Hb; reflexivity).
    assert (Hp' : p = snd (bump_stores s0 size)) by (rewrite Hb; reflexivity).
    rewrite Hp' in Hp.
    destruct (bump_wf s0 fl al size Hwf Hsize Hp)
      as (Hwf' & Hq & Hbh & Hab & Hsz & Hold & Hfr).
    destruct (bump_frame s0 size) as (Gs & Ge & _).
    pose proof (wf_cursor _ _ _ Hwf) as Hcur. pose proof (wf_end _ _ _ Hwf) as He.
    assert (Hal : bump_header s0 mod 16 = 0) by (apply bump_header_aligned; lia).
    assert (Hnotin : ~ In (bump_header s0) (fl ++ al)).
    { intros Hin. destruct (wf_member _ _ _ Hwf _ Hin) as (_ & H32 & _). lia. }
    assert (Hfa : free_addr (fst (bump_stores s0 size)) = bump_header s0 + 32 + size).
    { rewrite two_61 in He. rewrite two_62 in Hsize.
      assert (Hbw : bump_header s0 < free_addr s0 + 17).
      { assert (Hc : 0 <= free_addr s0 < half - 16) by (rewrite half_eq; lia).
        destruct (align_up_nonneg (free_addr s0) Hc) as (_ & Hpad & _).
        unfold bump_header. rewrite uw_small; [lia|]. rewrite modulus_eq. lia. }
      assert (Hb32 : HEADER_TO_BLOCK (bump_header s0) = bump_header s0 + 32).
      { unfold HEADER_TO_BLOCK, sizeof_header. apply uw_small. rewrite modulus_eq. lia. }
      assert (Hsw : sw (HEADER_TO_BLOCK (bump_header s0) + size)
                    = bump_header s0 + 32 + size).
      { rewrite Hb32. apply sw_small. rewrite half_eq. lia. }
      destruct (Z_gt_le_dec (sw (HEADER_TO_BLOCK (bump_header s0) + size))
                            (end_addr s0)) as [Hover | Hfit].
      - exfalso. apply Hp. apply (bump_out_of_space s0 size Hover).
      - destruct (bump_fits s0 size Hfit) as (_ & F). rewrite F. exact Hsw. }
    exists fl. rewrite Hs', Hp', Hbh.
    split; [|split; [|split; [|split; [|split]]]].
    + split; [exact Hwf'|]. rewrite Gs, Ge, Hfa.
      split; [lia|]. split; [exact Hend|].
      intros y Hy. apply in_app_or in Hy. destruct Hy as [Hy | [Hy | Hy]].
      * rewrite Hold by (apply in_or_app; left; exact Hy).
        apply Hhdr. apply in_or_app. left. exact Hy.
      * subst y. rewrite Hsz. repeat split; [exact Hal | lia | lia].
      * rewrite Hold by (apply in_or_app; right; exact Hy).
        apply Hhdr. apply in_or_app. right. exact Hy.
    + exact Hq.
    + rewrite Hsz. lia.
    + exact Hold.
    + intros y a Hy Ha. apply Hfr.
      * destruct (wf_member _ _ _ Hwf y Hy) as (_ & _ & Hbe & _).
        unfold block_end, sizeof_header in Ha. lia.
      * apply (payload_outside_headers s0 fl al y a Hwf Hy Ha).
    + right. repeat split; try assumption. rewrite Hfa, Hq. reflexivity.
  - rewrite <- Eb in E, Hle.
    assert (Hin : In best (fl ++ al))
      by (apply in_or_app; left; rewrite E; apply in_elt).
    destruct (wf_member _ _ _ Hwf best Hin) as (Hpos & Hb32 & _ & Hcur & Hw & Hbn).
    destruct (Z.eqb_spec best NULL); [contradiction|]. cbn [negb] in Hm.
    assert (Hr : reuse s0 best = (s', p)) by (inversion Hm; reflexivity).
    assert (Hs' : s' = fst (reuse s0 best)) by (rewrite Hr; reflexivity).
    assert (Hp' : p = HEADER_TO_BLOCK best)
      by (rewrite <- (reuse_pointer s0 best), Hr; reflexivity).
    assert (Hbh : BLOCK_TO_HEADER p = best)
      by (rewrite Hp'; apply header_block_header, Hw).
    assert (Hq : p = best + 32).
    { rewrite Hp'. unfold HEADER_TO_BLOCK, sizeof_header. apply uw_small.
      rewrite two_61 in Hcur. rewrite modulus_eq. lia. }
    assert (Hinit : start_addr s <> 0).
    { intros C. destruct Hrun as [(Hw0 & _) | (_ & _ & _ & Efl & _)].
      - apply (wf_start _ _ _ Hw0 C).
      - rewrite Efl in E. destruct l1; discriminate. }
    pose proof Hwf as Hwf0. rewrite E in Hwf.
    destruct (reuse_wf s0 l1 l2 al best Hwf) as (Hwf' & Hold & Hfr).
    destruct (reuse_globals s0 best) as (Gc & Gs & Ge).
    rewrite <- E in Hold, Hfr.
    exists (l1 ++ l2). rewrite Hbh, Hs'.
    split; [|split; [|split; [|split; [|split]]]].
    + split; [exact Hwf'|]. rewrite Gc, Gs, Ge.
      split; [exact Hlow|]. split; [exact Hend|].
      intros y Hy.
      assert (HyL : In y (fl ++ al)).
      { rewrite E. apply (Permutation_in _ (Permutation_sym (move_permutation l1 l2 al best))).
        exact Hy. }
      rewrite (Hold y HyL). apply Hhdr, HyL.
    + exact Hq.
    + rewrite Hold by exact Hin. exact Hle.
    + exact Hold.
    + intros y a Hy Ha. apply Hfr.
      apply (payload_outside_headers s0 fl al y a Hwf0 Hy Ha).
    + left. exists l1, l2. split; [rewrite E; reflexivity|]. split; [reflexivity|].
      rewrite Gc. rewrite (Hsame Hinit). reflexivity.
Qed.

(** [free] of a live block, in full. *)
Lemma free_step (s : state) (fl al : list Z) (ptr : Z) :
  region_ok s fl al ->
  In (BLOCK_TO_HEADER ptr) al -> ptr <> NULL ->
  exists s' l1 l2,
    al = l1 ++ BLOCK_TO_HEADER ptr :: l2 /\
    free s ptr = Ok s' /\
    region_ok s' (BLOCK_TO_HEADER ptr :: fl) (l1 ++ l2) /\
    (forall y, In y (fl ++ al) -> hsize (heap_mem s') y = hsize (heap_mem s) y) /\
    (forall y a, In y (fl ++ al) ->
                 y + 32 <= a < block_end (heap_mem s) y ->
                 heap_mem s' a = heap_mem s a) /\
    free_list_head s' = BLOCK_TO_HEADER ptr /\
    hallocated (heap_mem s') (BLOCK_TO_HEADER ptr) = false.
Proof.
  intros (Hwf & Hlow & Hend & Hhdr) Hin Hn.
  pose proof Hwf as Hwf0.
  apply in_split in Hin. destruct Hin as (l1 & l2 & El). rewrite El in Hwf.
  destruct (free_wf s fl l1 l2 ptr Hwf Hn) as (s' & Hf & Hwf' & Hsz & Hfr).
  rewrite <- El in Hsz, Hfr.
  destruct (free_globals s s' ptr Hf) as (Gc & Gs & Ge).
  exists s', l1, l2.
  split; [exact El|]. split; [exact Hf|].
  split; [|split; [exact Hsz|split; [|split]]].
  - split; [exact Hwf'|]. rewrite Gc, Gs, Ge.
    split; [exact Hlow|]. split; [exact Hend|].
    intros y Hy.
    assert (HyL : In y (fl ++ al)).
    { rewrite El. cbn [app] in Hy. destruct Hy as [Hy | Hy].
      - subst y. apply in_or_app. right. apply in_elt.
      - apply in_app_or in Hy. apply in_or_app. destruct Hy as [Hy | Hy];
          [left; exact Hy | right].
        apply in_app_or in Hy. apply in_or_app.
        destruct Hy; [left | right; right]; assumption. }
    rewrite (Hsz y HyL). apply Hhdr, HyL.
  - intros y a Hy Ha. apply Hfr.
    apply (payload_outside_headers s fl al y a Hwf0 Hy Ha).
  - apply (path_head (heap_mem s') _ _ (wf_free_chain _ _ _ Hwf')).
  - apply (Forall_inv (wf_free_flags _ _ _ Hwf')).
Qed.

(** Stores into the payload of one block, in full. *)
Lemma payload_write_region (s : state) (fl al : list Z) (m' : mem) (h0 : Z) :
  region_ok s fl al ->
  In h0 (fl ++ al) ->
  (forall a, a < h0 + 32 \/ block_end (heap_mem s) h0 <= a -> m' a = heap_mem s a) ->
  region_ok (with_mem s m') fl al /\
  (forall y, In y (fl ++ al) -> hsize m' y = hsize (heap_mem s) y).
Proof.
  intros (Hwf & Hlow & Hend & Hhdr) Hin Hfr.
  assert (Hsz : forall y, In y (fl ++ al) -> hsize m' y = hsize (heap_mem s) y).
  { intros y Hy. apply hsize_ext. intros i Hi. apply Hfr.
    destruct (Z.eq_dec h0 y) as [E | E]; [left; lia|].
    pose proof (hsize_range (heap_mem s) y) as Hr. unfold is_word in Hr.
    destruct (wf_apart _ _ _ Hwf h0 y Hin Hy E) as [C | C];
      unfold block_end, sizeof_header in *; lia. }
  split; [|exact Hsz].
  split; [apply (payload_write_wf s fl al m' h0 Hwf Hin Hfr)|].
  cbn [with_mem start_addr free_addr end_addr heap_mem].
  split; [exact Hlow|]. split; [exact Hend|].
  intros y Hy. rewrite (Hsz y Hy). apply Hhdr, Hy.
Qed.

Lemma live_block_region (s : state) (fl al : list Z) (ptr : Z) :
  run_ok s fl al -> live_block s ptr ->
  region_ok s fl al /\ In (BLOCK_TO_HEADER ptr) al /\
  ptr = BLOCK_TO_HEADER ptr + 32 /\ ptr <> NULL.
Proof.
  intros Hrun Hlive.
  destruct (live_block_wf s fl al ptr (run_ok_heap_ok _ _ _ Hrun) Hlive)
    as (Hwf & Hin & Hp & Hn).
  split; [|repeat split; assumption].
  destruct Hrun as [Hreg | (Hs & _)]; [exact Hreg|].
  exfalso. apply (wf_start _ _ _ Hwf Hs).
Qed.

Lemma malloc_zero_region (fuel : nat) (heap : Z) (s s' : state) (fl al : list Z)
    (p : Z) :
  mapping_ok heap -> run_ok s fl al ->
  malloc fuel heap s 0 = Ok (s', p) ->
  region_ok s' fl al /\ p = NULL.
Proof.
  intros Hmap Hrun Hm.
  destruct (init_region heap s fl al Hmap Hrun) as (s0 & Hi & Hreg & _).
  unfold malloc in Hm. rewrite Hi in Hm. cbn in Hm.
  inversion Hm; subst. split; [exact Hreg | reflexivity].
Qed.

(** In a run without failed allocations the heap stays inside its
    mapping. *)
Lemma good_run_region (heap : Z) (s : state) :
  mapping_ok heap -> good_run heap s -> exists fl al, run_ok s fl al.
Proof.
  intros Hmap Hrun. induction Hrun as
      [ | s fuel size s' p _ IH Hsize Hm Hres
        | s ptr s' _ IH Hptr Hf
        | s fuel nmemb size s' p _ IH Hlt Hc Hres
        | s fuel ptr size s' p _ IH Hptr Hsize Hr Hres
        | s ptr m' _ IH Hlive Hst ].
  - exists [], []. right. repeat split; reflexivity.
  - destruct IH as (fl & al & Hok).
    destruct (Z.eq_dec size 0) as [E0 | E0].
    + subst size. exists fl, al. left.
      apply (malloc_zero_region fuel heap s s' fl al p Hmap Hok Hm).
    + destruct Hres as [C | Hp]; [contradiction|].
      destruct (malloc_step fuel heap s s' fl al size p Hmap Hok) as
          (fl' & Hreg & _); try assumption; [lia|].
      exists fl', (BLOCK_TO_HEADER p :: al). left. exact Hreg.
  - destruct IH as (fl & al & Hok).
    destruct Hptr as [E | Hlive].
    + subst ptr. cbn in Hf. inversion Hf; subst. exists fl, al. exact Hok.
    + destruct (live_block_region s fl al ptr Hok Hlive) as (Hreg & Hin & _ & Hn).
      destruct (free_step s fl al ptr Hreg Hin Hn)
        as (s1 & l1 & l2 & _ & Hf1 & Hreg1 & _).
      rewrite Hf1 in Hf. inversion Hf; subst.
      exists (BLOCK_TO_HEADER ptr :: fl), (l1 ++ l2). left. exact Hreg1.
  - destruct IH as (fl & al & Hok).
    pose proof (uw_range (nmemb * size)) as Hr.
    set (total := uw (nmemb * size)) in *.
    unfold calloc in Hc. fold total in Hc.
    destruct (malloc fuel heap s total) as [[s1 q]| |] eqn:Em; try discriminate.
    cbn [bind] in Hc.
    destruct (Z.eq_dec total 0) as [E0 | E0].
    + rewrite E0 in Em.
      destruct (malloc_zero_region fuel heap s s1 fl al q Hmap Hok Em) as (Hreg & ->).
      cbn in Hc. inversion Hc; subst. exists fl, al. left. exact Hreg.
    + destruct (Z.eqb_spec q NULL) as [Eq | Eq]; cbn [negb] in Hc.
      * inversion Hc; subst. destruct Hres; contradiction.
      * inversion Hc; subst. clear Hc.
        destruct (malloc_step fuel heap s s1 fl al total p Hmap Hok) as
            (fl' & Hreg & Hp & Hsz & _); try assumption; [lia|].
        exists fl', (BLOCK_TO_HEADER p :: al). left.
        apply (payload_write_region s1 fl' (BLOCK_TO_HEADER p :: al) _
                                    (BLOCK_TO_HEADER p) Hreg).
        -- apply in_or_app. right. left. reflexivity.
        -- intros a Ha. apply memset_outside.
           unfold block_end, sizeof_header in Ha. lia.
  - destruct IH as (fl & al & Hok).
    unfold realloc in Hr.
    destruct (Z.eqb_spec ptr NULL) as [En | En].
    + destruct (Z.eq_dec size 0) as [E0 | E0].
      * subst size. exists fl, al. left.
        apply (malloc_zero_region fuel heap s s' fl al p Hmap Hok Hr).
      * destruct Hres as [C | Hp]; [contradiction|].
        destruct (malloc_step fuel heap s s' fl al size p Hmap Hok) as
            (fl' & Hreg & _); try assumption; [lia|].
        exists fl', (BLOCK_TO_HEADER p :: al). left. exact Hreg.
    + destruct Hptr as [C | Hlive]; [contradiction|].
      destruct (live_block_region s fl al ptr Hok Hlive) as (Hreg & Hin & _ & Hn).
      destruct (Z.eqb_spec size 0) as [E0 | E0].
      * destruct (free_step s fl al ptr Hreg Hin Hn)
          as (s1 & l1 & l2 & _ & Hf1 & Hreg1 & _).
        rewrite Hf1 in Hr. cbn [bind] in Hr. inversion Hr; subst.
        exists (BLOCK_TO_HEADER ptr :: fl), (l1 ++ l2). left. exact Hreg1.
      * destruct (size <=? hsize (heap_mem s) (BLOCK_TO_HEADER ptr)) eqn:Ele.
        { inversion Hr; subst. exists fl, al. exact Hok. }
        apply Z.leb_gt in Ele.
        destruct (malloc fuel heap s size) as [[s1 q]| |] eqn:Em; try discriminate.
        cbn [bind] in Hr.
        destruct (Z.eqb_spec q NULL) as [Eq | Eq]; cbn [negb] in Hr.
        { inversion Hr; subst. destruct Hres; contradiction. }
        destruct (malloc_step fuel heap s s1 fl al size q Hmap Hok) as
            (fl' & Hreg1 & Hq & Hsz & Hold & _); try assumption; [lia|].
        set (n := hsize (heap_mem s1) (BLOCK_TO_HEADER ptr)) in *.
        assert (Hnn : n = hsize (heap_mem s) (BLOCK_TO_HEADER ptr))
          by (apply Hold; apply in_or_app; right; exact Hin).
        set (m2 := memcpy (heap_mem s1) q ptr n) in *.
        destruct (payload_write_region s1 fl' (BLOCK_TO_HEADER q :: al) m2
                                       (BLOCK_TO_HEADER q) Hreg1) as (Hreg2 & _).
        { apply in_or_app. right. left. reflexivity. }
        { intros a Ha. apply memcpy_outside.
          unfold block_end, sizeof_header in Ha. lia. }
        destruct (free_step (with_mem s1 m2) fl' (BLOCK_TO_HEADER q :: al) ptr Hreg2)
          as (s3 & l1 & l2 & _ & Hf3 & Hreg3 & _); [right; exact Hin | exact Hn |].
        rewrite Hf3 in Hr. cbn [bind] in Hr. inversion Hr; subst.
        exists (BLOCK_TO_HEADER ptr :: fl'), (l1 ++ l2). left. exact Hreg3.
  - destruct IH as (fl & al & Hok).
    destruct (live_block_region s fl al ptr Hok Hlive) as (Hreg & Hin & Hp & _).
    exists fl, al. left.
    apply (payload_write_region s fl al m' (BLOCK_TO_HEADER ptr) Hreg).
    + apply in_or_app. right. exact Hin.
    + intros a Ha. apply Hst. unfold block_end, sizeof_header in Ha. lia.
Qed.

(** ** Example runs *)

Lemma good_run_x : good_run example_heap state_x.
Proof.
  apply (run_malloc example_heap initial_state 1 24 state_x 65584);
    [apply run_start | run_size | reflexivity | right; discriminate].
Qed.

Lemma good_run_xyz : good_run example_heap state_xyz.
Proof.
  set (s1 := after_malloc initial_state 24).
  set (s2 := after_malloc s1 19).
  assert (R1 : good_run example_heap s1).
  { apply (run_malloc example_heap initial_state 8 24 s1 65584);
      [apply run_start | run_size | reflexivity | right; discriminate]. }
  assert (R2 : good_run example_heap s2).
  { apply (run_malloc example_heap s1 8 19 s2 65648);
      [exact R1 | run_size | reflexivity | right; discriminate]. }
  apply (run_malloc example_heap s2 8 32 state_xyz 65712);
    [exact R2 | run_size | reflexivity | right; discriminate].
Qed.

Ltac live_in al :=
  exists al; unfold chain; cbn [path];
  repeat split; try (vm_compute; (reflexivity || discriminate));
  vm_compute; tauto.

Lemma live_x_in_x : live_block state_x 65584.
Proof. live_in [65552]. Qed.

Lemma live_x_in_xyz : live_block state_xyz 65584.
Proof. live_in [65680; 65616; 65552]. Qed.

Lemma live_y_in_xyz : live_block state_xyz 65648.
Proof. live_in [65680; 65616; 65552]. Qed.

Lemma good_run_x_written : good_run example_heap state_x_written.
Proof.
  apply (run_store example_heap state_x 65584); [exact good_run_x | exact live_x_in_x |].
  intros a Ha. apply store8_outside.
  assert (E : hsize (heap_mem state_x) (BLOCK_TO_HEADER 65584) = 24)
    by (vm_compute; reflexivity).
  rewrite E in Ha. lia.
Qed.

Lemma good_run_xyz_written : good_run example_heap state_xyz_written.
Proof.
  apply (run_store example_heap state_xyz 65584);
    [exact good_run_xyz | exact live_x_in_xyz |].
  intros a Ha. apply store8_outside.
  assert (E : hsize (heap_mem state_xyz) (BLOCK_TO_HEADER 65584) = 24)
    by (vm_compute; reflexivity).
  rewrite E in Ha. lia.
Qed.

Lemma live_x_in_x_written : live_block state_x_written 65584.
Proof. live_in [65552]. Qed.

Lemma live_x_in_xyz_written : live_block state_xyz_written 65584.
Proof. live_in [65680; 65616; 65552]. Qed.

Lemma good_run_x_written_freed : good_run example_heap state_x_written_freed.
Proof.
  apply (run_free example_heap state_x_written 65584);
    [exact good_run_x_written | right; exact live_x_in_x_written | reflexivity].
Qed.

Lemma good_run_full : good_run example_heap state_full.
Proof.
  apply (run_malloc example_heap initial_state 8 2147483600 state_full 65584);
    [apply run_start | run_size | reflexivity | right; discriminate].
Qed.

(** ** [init] *)

(** X1: the first [init] with a mapping at a non-null address records the
    region [start, start + 2 GiB) with the cursor at its start and leaves
    the lists and memory alone; from then on [init] changes nothing,
    whatever [mmap] would return. *)
Theorem init_once (heap : Z) (s : state) :
  is_word heap -> heap <> NULL -> heap <> MAP_FAILED ->
  start_addr s = 0 ->
  exists s0,
    init heap s = Ok s0 /\
    start_addr s0 = sw heap /\ start_addr s0 <> 0 /\
    free_addr s0 = start_addr s0 /\
    end_addr s0 = sw (start_addr s0 + 2147483648) /\
    free_list_head s0 = free_list_head s /\
    allocated_list_head s0 = allocated_list_head s /\
    heap_mem s0 = heap_mem s /\
    (forall heap', init heap' s0 = Ok s0).
Proof.
  intros Hw Hn Hf Hs.
  rewrite (init_first heap s Hs Hf). eexists. split; [reflexivity|].
  cbn [start_addr free_addr end_addr free_list_head allocated_list_head heap_mem].
  assert (Hnz : sw heap <> 0).
  { unfold sw, is_word, NULL in *. rewrite modulus_eq, half_eq in *.
    destruct (Z_lt_le_dec heap 9223372036854775808).
    - rewrite Z.mod_small by lia. lia.
    - replace ((heap + 9223372036854775808) mod 18446744073709551616)
        with (heap - 9223372036854775808); [lia|].
      apply (Z.mod_unique _ _ 1); lia. }
  repeat split; try reflexivity; try assumption.
  intros heap'. apply init_initialised. exact Hnz.
Qed.

Lemma init_once_witness :
  exists s0,
    init example_heap initial_state = Ok s0 /\
    start_addr s0 = sw example_heap /\ start_addr s0 <> 0 /\
    free_addr s0 = start_addr s0 /\
    end_addr s0 = sw (start_addr s0 + 2147483648) /\
    free_list_head s0 = free_list_head initial_state /\
    allocated_list_head s0 = allocated_list_head initial_state /\
    heap_mem s0 = heap_mem initial_state /\
    (forall heap', init heap' s0 = Ok s0).
Proof.
  apply (init_once example_heap initial_state).
  - unfold is_word, example_heap. rewrite modulus_eq. lia.
  - vm_compute. discriminate.
  - vm_compute. discriminate.
  - reflexivity.
Defined.

(** X2: on a process whose heap is not yet initialised, a failing [mmap]
    makes [malloc] (for every size, zero included), [calloc] and
    [realloc(NULL, size)] end in the fatal mapping error. *)
Theorem mmap_failure_is_fatal (fuel : nat) (s : state) (nmemb size : Z) :
  start_addr s = 0 ->
  malloc fuel MAP_FAILED s size = Fatal MmapFailed /\
  calloc fuel MAP_FAILED s nmemb size = Fatal MmapFailed /\
  realloc fuel MAP_FAILED s NULL size = Fatal MmapFailed.
Proof.
  intros Hs.
  assert (Hm : forall n, malloc fuel MAP_FAILED s n = Fatal MmapFailed).
  { intros n. unfold malloc. rewrite (init_mmap_failed s Hs). reflexivity. }
  split; [apply Hm|]. split.
  - unfold calloc. rewrite Hm. reflexivity.
  - unfold realloc. cbn [Z.eqb NULL]. apply Hm.
Qed.

Lemma mmap_failure_is_fatal_witness :
  malloc 1 MAP_FAILED initial_state 0 = Fatal MmapFailed /\
  calloc 1 MAP_FAILED initial_state 4 0 = Fatal MmapFailed /\
  realloc 1 MAP_FAILED initial_state NULL 0 = Fatal MmapFailed.
Proof.
  apply (mmap_failure_is_fatal 1 initial_state 4 0).
  - reflexivity.
Defined.

(** ** Live blocks *)

Lemma live_block_intro (s : state) (fl al : list Z) (h p : Z) :
  heap_wf s fl al -> In h al -> p = h + 32 -> live_block s p.
Proof.
  intros Hwf Hin Hp.
  assert (HL : In h (fl ++ al)) by (apply in_or_app; right; exact Hin).
  destruct (wf_member _ _ _ Hwf h HL) as (Hpos & _ & _ & Hcur & Hw & _).
  assert (Hb : BLOCK_TO_HEADER p = h).
  { subst p. unfold BLOCK_TO_HEADER, sizeof_header.
    replace (h + 32 - 32) with h by lia. apply uw_small, Hw. }
  exists al. rewrite Hb. split; [apply (wf_alloc_chain _ _ _ Hwf)|].
  split; [exact Hin | exact Hp].
Qed.

(** X4: in a run without failed allocations every live block is 16-byte
    aligned and lies, header included, inside the 2 GiB mapping and below
    the cursor; it overlaps no other live block. *)
Theorem live_blocks_in_region (heap : Z) (s : state) (p : Z) :
  mapping_ok heap -> good_run heap s -> live_block s p ->
  p mod 16 = 0 /\
  start_addr s < p - 32 /\
  p + hsize (heap_mem s) (BLOCK_TO_HEADER p) <= free_addr s /\
  free_addr s <= end_addr s /\
  end_addr s = start_addr s + 2147483648 /\
  (forall q, live_block s q -> q <> p ->
             p + hsize (heap_mem s) (BLOCK_TO_HEADER p) <= q - 32 \/
             q + hsize (heap_mem s) (BLOCK_TO_HEADER q) <= p - 32).
Proof.
  intros Hmap Hrun Hp.
  destruct (good_run_region heap s Hmap Hrun) as (fl & al & Hok).
  destruct (live_block_region s fl al p Hok Hp)
    as ((Hwf & Hlow & Hend & Hhdr) & Hinp & Ep & _).
  set (hp := BLOCK_TO_HEADER p) in *.
  assert (HLp : In hp (fl ++ al)) by (apply in_or_app; right; exact Hinp).
  destruct (Hhdr hp HLp) as (Hal & Hst & _).
  destruct (wf_member _ _ _ Hwf hp HLp) as (_ & _ & Hbe & _).
  pose proof (wf_cursor _ _ _ Hwf) as Hcur.
  rewrite HEAP_SIZE_eq in Hend.
  split.
  { rewrite Ep. replace (hp + 32) with (hp + 2 * 16) by lia.
    rewrite Z.mod_add by lia. exact Hal. }
  split; [lia|]. split; [lia|]. split; [lia|]. split; [exact Hend|].
  intros q Hq Hne.
  destruct (live_block_region s fl al q Hok Hq) as (_ & Hinq & Eq & _).
  set (hq := BLOCK_TO_HEADER q) in *.
  assert (HLq : In hq (fl ++ al)) by (apply in_or_app; right; exact Hinq).
  assert (Hpq : hp <> hq) by (intros C; apply Hne; rewrite Ep, Eq, C; reflexivity).
  pose proof (wf_apart _ _ _ Hwf hp hq HLp HLq Hpq) as Hap.
  unfold block_end, sizeof_header in Hap. lia.
Qed.

Lemma live_blocks_in_region_witness :
  65584 mod 16 = 0 /\
  start_addr state_x < 65584 - 32 /\
  65584 + hsize (heap_mem state_x) (BLOCK_TO_HEADER 65584) <= free_addr state_x /\
  free_addr state_x <= end_addr state_x /\
  end_addr state_x = start_addr state_x + 2147483648 /\
  (forall q, live_block state_x q -> q <> 65584 ->
             65584 + hsize (heap_mem state_x) (BLOCK_TO_HEADER 65584) <= q - 32 \/
             q + hsize (heap_mem state_x) (BLOCK_TO_HEADER q) <= 65584 - 32).
Proof.
  apply (live_blocks_in_region example_heap state_x 65584).
  - exact example_heap_ok.
  - exact good_run_x.
  - exact live_x_in_x.
Defined.

(** ** [malloc] in a run without failed allocations *)

(** X5: in a run without failed allocations, a [malloc(size)] that returns
    a block returns a live block of at least [size] bytes; every block
    that was live stays live with its size and its contents, whatever the
    client has stored there, and does not overlap the new block. *)
Theorem malloc_fresh_block (fuel : nat) (heap : Z) (s s' : state)
    (size p : Z) :
  mapping_ok heap -> good_run heap s ->
  0 < size < 2 ^ 62 ->
  malloc fuel heap s size = Ok (s', p) ->
  p <> NULL ->
  live_block s' p /\
  size <= hsize (heap_mem s') (BLOCK_TO_HEADER p) /\
  (forall q, live_block s q ->
     live_block s' q /\
     hsize (heap_mem s') (BLOCK_TO_HEADER q) = hsize (heap_mem s) (BLOCK_TO_HEADER q) /\
     (forall a, q <= a < q + hsize (heap_mem s) (BLOCK_TO_HEADER q) ->
                heap_mem s' a = heap_mem s a) /\
     (q + hsize (heap_mem s) (BLOCK_TO_HEADER q) <= p - 32 \/
      p + hsize (heap_mem s') (BLOCK_TO_HEADER p) <= q - 32)).
Proof.
  intros Hmap Hrun Hsize Hm Hp.
  destruct (good_run_region heap s Hmap Hrun) as (fl & al & Hok).
  destruct (malloc_step fuel heap s s' fl al size p Hmap Hok Hsize Hm Hp)
    as (fl' & (Hwf' & _) & Ep & Hle & Hold & Hpay & _).
  set (hp := BLOCK_TO_HEADER p) in *.
  assert (HLp' : In hp (fl' ++ hp :: al)) by (apply in_elt).
  split; [apply (live_block_intro s' fl' (hp :: al) hp p Hwf'); [left; reflexivity | exact Ep]|].
  split; [exact Hle|].
  intros q Hq.
  destruct (live_block_region s fl al q Hok Hq) as (_ & Hinq & Eq & _).
  set (hq := BLOCK_TO_HEADER q) in *.
  assert (HLq : In hq (fl ++ al)) by (apply in_or_app; right; exact Hinq).
  assert (HLq' : In hq (fl' ++ hp :: al))
    by (apply in_or_app; right; right; exact Hinq).
  assert (Hpq : hp <> hq).
  { intros C. pose proof (wf_nodup _ _ _ Hwf') as Hnd.
    apply NoDup_remove_2 in Hnd. apply Hnd. rewrite C.
    apply in_or_app. right. exact Hinq. }
  pose proof (wf_apart _ _ _ Hwf' hp hq HLp' HLq' Hpq) as Hap.
  unfold block_end, sizeof_header in Hap. rewrite (Hold hq HLq) in Hap.
  split; [apply (live_block_intro s' fl' (hp :: al) hq q Hwf'); [right; exact Hinq | exact Eq]|].
  split; [apply Hold, HLq|].
  split.
  - intros a Ha. apply (Hpay hq a HLq). unfold block_end, sizeof_header. lia.
  - lia.
Qed.

Lemma malloc_fresh_block_witness :
  live_block (after_malloc state_x_written 19) 65648 /\
  19 <= hsize (heap_mem (after_malloc state_x_written 19)) (BLOCK_TO_HEADER 65648) /\
  (forall q, live_block state_x_written q ->
     live_block (after_malloc state_x_written 19) q /\
     hsize (heap_mem (after_malloc state_x_written 19)) (BLOCK_TO_HEADER q)
     = hsize (heap_mem state_x_written) (BLOCK_TO_HEADER q) /\
     (forall a, q <= a < q + hsize (heap_mem state_x_written) (BLOCK_TO_HEADER q) ->
                heap_mem (after_malloc state_x_written 19) a
                = heap_mem state_x_written a) /\
     (q + hsize (heap_mem state_x_written) (BLOCK_TO_HEADER q) <= 65648 - 32 \/
      65648 + hsize (heap_mem (after_malloc state_x_written 19)) (BLOCK_TO_HEADER 65648)
      <= q - 32)).
Proof.
  apply (malloc_fresh_block 8 example_heap state_x_written
                            (after_malloc state_x_written 19) 19 65648).
  - exact example_heap_ok.
  - exact good_run_x_written.
  - run_size.
  - reflexivity.
  - discriminate.
Defined.

(** The byte the client stored at [x] is still there after [malloc(19)]. *)
Example written_byte_survives_malloc :
  heap_mem state_x_written 65584 = 7 /\
  heap_mem (after_malloc state_x_written 19) 65584 = 7.
Proof. split; vm_compute; reflexivity. Qed.

(** X6: in a run without failed allocations, with more fuel than there are
    headers on the free list, [malloc] never runs out of fuel and never
    reaches the consistency error "Allocated block on free list": it
    completes, or it takes the bump path when the header at the padded
    cursor no longer fits below [end_addr] and stores outside the
    region. *)
Theorem malloc_completes_or_stores_outside (fuel : nat) (heap : Z) (s : state)
    (size : Z) (fl : list Z) :
  mapping_ok heap -> good_run heap s ->
  chain (heap_mem s) (free_list_head s) fl ->
  (length fl < fuel)%nat ->
  (exists s' p, malloc fuel heap s size = Ok (s', p)) \/
  (malloc fuel heap s size = Fatal (StoreOutsideRegion (bump_header s)) /\
   size <> 0 /\
   Forall (fun x => hsize (heap_mem s) x < size) fl /\
   start_addr s <> 0 /\
   free_addr s < bump_header s <= free_addr s + 16 /\
   end_addr s < bump_header s + 32).
Proof.
  intros Hmap Hrun Hc Hlen.
  destruct (good_run_region heap s Hmap Hrun) as (fl0 & al & Hok).
  assert (E : fl = fl0).
  { destruct Hok as [(Hwf & _) | (_ & Hf & _ & -> & _)].
    - apply (chain_unique _ _ _ _ Hc (wf_free_chain _ _ _ Hwf)).
    - apply (chain_unique _ _ _ _ Hc). rewrite Hf. reflexivity. }
  subst fl0.
  destruct (init_region heap s fl al Hmap Hok) as (s0 & Hi & Hreg0 & Hmem0 & Hsame).
  destruct (malloc_total fuel heap s fl al size Hmap (run_ok_heap_ok _ _ _ Hok) Hlen)
    as (s0' & Hi' & _ & [Hm | (Hz & Eb & Hout & Hm)]); [left; exact Hm|].
  rewrite Hi in Hi'. injection Hi' as <-.
  destruct Hreg0 as (Hwf0 & Hlow0 & Hend0 & _).
  pose proof (wf_cursor _ _ _ Hwf0) as Hcur. pose proof (wf_end _ _ _ Hwf0) as He.
  rewrite two_61 in He.
  assert (Hc0 : 0 <= free_addr s0 < half - 16) by (rewrite half_eq; lia).
  destruct (align_up_nonneg (free_addr s0) Hc0) as (_ & Hpad & _).
  assert (Hbh : bump_header s0 = align_up (free_addr s0)).
  { unfold bump_header. apply uw_small. rewrite modulus_eq. lia. }
  assert (Hhi : end_addr s0 < bump_header s0 + 32)
    by (destruct Hout as [C | H]; [lia | exact H]).
  assert (Hinit : start_addr s <> 0).
  { intros C. destruct (init_globals heap s s0 Hi) as (_ & _ & _ & _ & Hfirst).
    destruct (Hfirst C) as (E1 & E2 & _).
    rewrite Hbh, Hend0, E1, HEAP_SIZE_eq in Hhi. rewrite E2 in Hhi, Hpad. lia. }
  rewrite (Hsame Hinit) in *.
  right. split; [exact Hm|]. split; [exact Hz|].
  split.
  { pose proof (path_nonnull _ _ _ _ Hc) as Hnn.
    assert (Hnull : NULL <> NULL -> size < hsize (heap_mem s) NULL)
      by (intros C; contradiction).
    destruct (select_best_spec (heap_mem s) size fl NULL Hnull Hnn)
      as [(_ & HF) | (l1 & l2 & E & _)].
    - rewrite Forall_forall in HF |- *. intros x Hx.
      destruct (Z_lt_le_dec (hsize (heap_mem s) x) size) as [H | H]; [exact H|].
      destruct (HF x Hx H) as (C & _). exfalso. apply C. reflexivity.
    - exfalso. rewrite Eb in E. rewrite Forall_forall in Hnn.
      apply (Hnn NULL); [rewrite E; apply in_elt | reflexivity]. }
  split; [exact Hinit|]. split; [lia | exact Hhi].
Qed.

Lemma malloc_completes_or_stores_outside_witness :
  (exists s' p, malloc 1 example_heap state_full 1 = Ok (s', p)) \/
  (malloc 1 example_heap state_full 1
   = Fatal (StoreOutsideRegion (bump_header state_full)) /\
   1 <> 0 /\
   Forall (fun x => hsize (heap_mem state_full) x < 1) [] /\
   start_addr state_full <> 0 /\
   free_addr state_full < bump_header state_full <= free_addr state_full + 16 /\
   end_addr state_full < bump_header state_full + 32).
Proof.
  apply (malloc_completes_or_stores_outside 1 example_heap state_full 1 []).
  - exact example_heap_ok.
  - exact good_run_full.
  - vm_compute. reflexivity.
  - simpl. lia.
Defined.

(** X7: when the free list holds a block that is large enough, [malloc]
    takes a block from the free list and hands it out whole: the cursor
    does not move and the size recorded in the header stays what it was,
    however much larger than the request it is. *)
Theorem reuse_keeps_block_whole (fuel : nat) (heap : Z) (s : state) (size : Z)
    (fl : list Z) :
  mapping_ok heap -> good_run heap s ->
  0 < size < 2 ^ 62 ->
  chain (heap_mem s) (free_list_head s) fl ->
  Exists (fun x => size <= hsize (heap_mem s) x) fl ->
  (length fl < fuel)%nat ->
  exists s' p,
    malloc fuel heap s size = Ok (s', p) /\
    In (BLOCK_TO_HEADER p) fl /\
    p = BLOCK_TO_HEADER p + 32 /\
    size <= hsize (heap_mem s) (BLOCK_TO_HEADER p) /\
    hsize (heap_mem s') (BLOCK_TO_HEADER p) = hsize (heap_mem s) (BLOCK_TO_HEADER p) /\
    free_addr s' = free_addr s /\
    live_block s' p.
Proof.
  intros Hmap Hrun Hsize Hc Hex Hlen.
  destruct (good_run_region heap s Hmap Hrun) as (fl0 & al & Hok).
  assert (E : fl = fl0).
  { destruct Hok as [(Hwf & _) | (_ & Hf & _ & -> & _)].
    - apply (chain_unique _ _ _ _ Hc (wf_free_chain _ _ _ Hwf)).
    - apply (chain_unique _ _ _ _ Hc). rewrite Hf. reflexivity. }
  subst fl0.
  assert (Hwf : heap_wf s fl al).
  { destruct Hok as [(Hwf & _) | (_ & _ & _ & -> & _)]; [exact Hwf|].
    inversion Hex. }
  assert (Hmt : exists s' p, malloc fuel heap s size = Ok (s', p)).
  { destruct (malloc_total fuel heap s fl al size Hmap (run_ok_heap_ok _ _ _ Hok) Hlen)
      as (s0 & Hi & _ & [Hm | (_ & Eb & _)]); [exact Hm|].
    exfalso.
    rewrite (init_initialised heap s (wf_start _ _ _ Hwf)) in Hi.
    injection Hi as <-.
    pose proof (path_nonnull _ _ _ _ Hc) as Hnn.
    assert (Hnull : NULL <> NULL -> size < hsize (heap_mem s) NULL)
      by (intros C; contradiction).
    destruct (select_best_spec (heap_mem s) size fl NULL Hnull Hnn)
      as [(_ & HF) | (l1 & l2 & E & _)].
    - apply Exists_exists in Hex. destruct Hex as (x & Hin & Hx).
      rewrite Forall_forall in HF. destruct (HF x Hin Hx) as [C _].
      apply C. reflexivity.
    - rewrite Eb in E. rewrite Forall_forall in Hnn.
      apply (Hnn NULL); [rewrite E; apply in_elt | reflexivity]. }
  destruct Hmt as (s' & p & Hm).
  exists s', p. split; [exact Hm|].
  (* the result is a block of the free list *)
  assert (Hbest : exists best, In best fl /\ p = HEADER_TO_BLOCK best).
  { pose proof Hm as Hm'.
    rewrite malloc_initialised in Hm';
      [| exact (wf_start _ _ _ Hwf) | rewrite two_62 in Hsize; lia].
    rewrite (scan_select (heap_mem s) size fl) in Hm'
      by (try exact Hc; try apply (wf_free_flags _ _ _ Hwf); exact Hlen).
    cbn [bind] in Hm'.
    pose proof (path_nonnull _ _ _ _ Hc) as Hnn.
    assert (Hnull : NULL <> NULL -> size < hsize (heap_mem s) NULL)
      by (intros C; contradiction).
    destruct (select_best_spec (heap_mem s) size fl NULL Hnull Hnn)
      as [(E & HF) | (l1 & l2 & E & _)].
    - exfalso. apply Exists_exists in Hex. destruct Hex as (x & Hin & Hx).
      rewrite Forall_forall in HF. destruct (HF x Hin Hx) as [C _].
      apply C. reflexivity.
    - set (best := select_best (heap_mem s) size fl NULL) in *.
      assert (Hin : In best fl) by (rewrite E; apply in_elt).
      rewrite Forall_forall in Hnn. pose proof (Hnn best Hin) as Hbn.
      destruct (Z.eqb_spec best NULL); [contradiction|]. cbn [negb] in Hm'.
      exists best. split; [exact Hin|].
      rewrite <- (reuse_pointer s best). inversion Hm'. reflexivity. }
  destruct Hbest as (best & Hin & Ep).
  assert (HL : In best (fl ++ al)) by (apply in_or_app; left; exact Hin).
  destruct (wf_member _ _ _ Hwf best HL) as (Hpos & Hb32 & _ & Hcur & Hw & _).
  assert (Hpn : p <> NULL).
  { rewrite Ep. unfold HEADER_TO_BLOCK, sizeof_header.
    rewrite uw_small by (rewrite two_61 in Hcur; rewrite modulus_eq; lia).
    unfold NULL. lia. }
  destruct (malloc_step fuel heap s s' fl al size p Hmap Hok Hsize Hm Hpn)
    as (fl' & (Hwf' & _) & Eq & Hle & Hold & _ & Hpath).
  assert (Hb : BLOCK_TO_HEADER p = best)
    by (rewrite Ep; apply header_block_header, Hw).
  rewrite Hb in *.
  destruct Hpath as [(l1 & l2 & _ & _ & Hfa) | (_ & Hnot & _)];
    [|contradiction].
  split; [exact Hin|]. split; [exact Eq|].
  split; [rewrite <- (Hold best HL); exact Hle|].
  split; [apply Hold, HL|]. split; [exact Hfa|].
  apply (live_block_intro s' fl' (best :: al) best p Hwf'); [left; reflexivity | exact Eq].
Qed.

Lemma reuse_keeps_block_whole_witness :
  exists s' p,
    malloc 4 example_heap state_three_free 20 = Ok (s', p) /\
    In (BLOCK_TO_HEADER p) [65552; 65616; 65680] /\
    p = BLOCK_TO_HEADER p + 32 /\
    20 <= hsize (heap_mem state_three_free) (BLOCK_TO_HEADER p) /\
    hsize (heap_mem s') (BLOCK_TO_HEADER p)
    = hsize (heap_mem state_three_free) (BLOCK_TO_HEADER p) /\
    free_addr s' = free_addr state_three_free /\
    live_block s' p.
Proof.
  apply (reuse_keeps_block_whole 4 example_heap state_three_free 20
                                 [65552; 65616; 65680]).
  - exact example_heap_ok.
  - exact good_run_three_free.
  - run_size.
  - unfold chain. cbn [path].
    repeat split; vm_compute; (reflexivity || discriminate).
  - apply Exists_cons_hd. apply Z.leb_le. vm_compute. reflexivity.
  - simpl. lia.
Defined.

(** ** [free] in a run without failed allocations *)

Lemma in_remove_middle (l1 l2 : list Z) (x y : Z) :
  In y (l1 ++ x :: l2) -> y <> x -> In y (l1 ++ l2).
Proof.
  intros Hin Hne. apply in_app_or in Hin. apply in_or_app.
  destruct Hin as [H | [H | H]]; [left; exact H | congruence | right; exact H].
Qed.

(** X8: in a run without failed allocations, [free] of a live block
    completes without the double-free error: the header becomes the head of
    the free list and is marked free, the block keeps its size and its
    contents, the cursor does not move; every other live block stays live
    with its size and contents; a second [free] of the pointer is fatal. *)
Theorem free_live_block (heap : Z) (s : state) (ptr : Z) :
  mapping_ok heap -> good_run heap s -> live_block s ptr ->
  exists s',
    free s ptr = Ok s' /\
    free_list_head s' = BLOCK_TO_HEADER ptr /\
    hallocated (heap_mem s') (BLOCK_TO_HEADER ptr) = false /\
    hsize (heap_mem s') (BLOCK_TO_HEADER ptr)
    = hsize (heap_mem s) (BLOCK_TO_HEADER ptr) /\
    (forall a, ptr <= a < ptr + hsize (heap_mem s) (BLOCK_TO_HEADER ptr) ->
               heap_mem s' a = heap_mem s a) /\
    free_addr s' = free_addr s /\
    free s' ptr = Fatal (DoubleFree (BLOCK_TO_HEADER ptr)) /\
    (forall q, live_block s q -> q <> ptr ->
       live_block s' q /\
       hsize (heap_mem s') (BLOCK_TO_HEADER q)
       = hsize (heap_mem s) (BLOCK_TO_HEADER q) /\
       (forall a, q <= a < q + hsize (heap_mem s) (BLOCK_TO_HEADER q) ->
                  heap_mem s' a = heap_mem s a)).
Proof.
  intros Hmap Hrun Hp.
  destruct (good_run_region heap s Hmap Hrun) as (fl & al & Hok).
  destruct (live_block_region s fl al ptr Hok Hp) as (Hreg & Hinp & Ep & Hn).
  destruct (free_step s fl al ptr Hreg Hinp Hn)
    as (s' & l1 & l2 & El & Hf & (Hwf' & _) & Hsz & Hpay & Hhead & Hflag).
  destruct (free_globals s s' ptr Hf) as (Gc & _).
  set (hp := BLOCK_TO_HEADER ptr) in *.
  assert (HLp : In hp (fl ++ al)) by (apply in_or_app; right; exact Hinp).
  exists s'. split; [exact Hf|]. split; [exact Hhead|]. split; [exact Hflag|].
  split; [apply Hsz, HLp|].
  split.
  { intros a Ha. apply (Hpay hp a HLp). unfold block_end, sizeof_header. lia. }
  split; [exact Gc|].
  split; [apply free_not_allocated; [exact Hn | exact Hflag]|].
  intros q Hq Hne.
  destruct (live_block_region s fl al q Hok Hq) as (_ & Hinq & Eq & _).
  set (hq := BLOCK_TO_HEADER q) in *.
  assert (HLq : In hq (fl ++ al)) by (apply in_or_app; right; exact Hinq).
  assert (Hpq : hq <> hp) by (intros C; apply Hne; rewrite Ep, Eq, C; reflexivity).
  split.
  { apply (live_block_intro s' (hp :: fl) (l1 ++ l2) hq q Hwf'); [|exact Eq].
    apply (in_remove_middle l1 l2 hp hq); [rewrite <- El; exact Hinq | exact Hpq]. }
  split; [apply Hsz, HLq|].
  intros a Ha. apply (Hpay hq a HLq). unfold block_end, sizeof_header. lia.
Qed.

Lemma free_live_block_witness :
  exists s',
    free state_x_written 65584 = Ok s' /\
    free_list_head s' = BLOCK_TO_HEADER 65584 /\
    hallocated (heap_mem s') (BLOCK_TO_HEADER 65584) = false /\
    hsize (heap_mem s') (BLOCK_TO_HEADER 65584)
    = hsize (heap_mem state_x_written) (BLOCK_TO_HEADER 65584) /\
    (forall a, 65584 <= a
               < 65584 + hsize (heap_mem state_x_written) (BLOCK_TO_HEADER 65584) ->
               heap_mem s' a = heap_mem state_x_written a) /\
    free_addr s' = free_addr state_x_written /\
    free s' 65584 = Fatal (DoubleFree (BLOCK_TO_HEADER 65584)) /\
    (forall q, live_block state_x_written q -> q <> 65584 ->
       live_block s' q /\
       hsize (heap_mem s') (BLOCK_TO_HEADER q)
       = hsize (heap_mem state_x_written) (BLOCK_TO_HEADER q) /\
       (forall a, q <= a < q + hsize (heap_mem state_x_written) (BLOCK_TO_HEADER q) ->
                  heap_mem s' a = heap_mem state_x_written a)).
Proof.
  apply (free_live_block example_heap state_x_written 65584).
  - exact example_heap_ok.
  - exact good_run_x_written.
  - exact live_x_in_x_written.
Defined.

(** X9: in a run without failed allocations, after [free] of a live block a
    [malloc] of exactly the size recorded for that block returns the same
    pointer: the freed header is the head of the free list, an exact fit,
    and the loop stops there, so one unit of fuel is enough however long
    the free list is. *)
Theorem free_then_malloc_same (fuel : nat) (heap : Z) (s : state) (ptr : Z) :
  mapping_ok heap -> good_run heap s -> live_block s ptr ->
  exists s1 s2,
    free s ptr = Ok s1 /\
    malloc (S fuel) heap s1 (hsize (heap_mem s) (BLOCK_TO_HEADER ptr)) = Ok (s2, ptr) /\
    live_block s2 ptr.
Proof.
  intros Hmap Hrun Hp.
  destruct (good_run_region heap s Hmap Hrun) as (fl & al & Hok).
  destruct (live_block_region s fl al ptr Hok Hp)
    as (Hreg & Hinp & Ep & Hn).
  destruct (free_step s fl al ptr Hreg Hinp Hn)
    as (s1 & l1 & l2 & El & Hf & Hreg1 & Hsz & _ & Hhead & Hflag).
  set (x := BLOCK_TO_HEADER ptr) in *.
  assert (HL : In x (fl ++ al)) by (apply in_or_app; right; exact Hinp).
  destruct Hreg as (Hwf & _ & _ & Hhdr).
  destruct (Hhdr x HL) as (_ & _ & Hpos).
  destruct (wf_member _ _ _ Hwf x HL) as (Hx0 & _ & Hbe & Hcur & Hw & Hxn).
  set (n := hsize (heap_mem s) x) in *.
  assert (Hn1 : hsize (heap_mem s1) x = n) by (apply Hsz, HL).
  assert (Hsize : 0 < n < 2 ^ 62).
  { rewrite two_61 in Hcur. rewrite two_62. lia. }
  assert (Hscan : scan (S fuel) (heap_mem s1) n (free_list_head s1) NULL = Ok x).
  { apply (scan_fuel_mono _ _ 1); [lia|].
    rewrite Hhead.
    apply (scan_stops_at_exact (heap_mem s1) n [] x NULL x).
    - reflexivity.
    - exact Hxn.
    - constructor; [exact Hflag | constructor].
    - intros C. contradiction.
    - constructor.
    - exact Hn1. }
  assert (Hptr : HEADER_TO_BLOCK x = ptr).
  { unfold HEADER_TO_BLOCK, sizeof_header. rewrite Ep. apply uw_small.
    rewrite two_61 in Hcur. rewrite modulus_eq. lia. }
  assert (Hm : malloc (S fuel) heap s1 n = Ok (fst (reuse s1 x), ptr)).
  { rewrite malloc_initialised;
      [| exact (wf_start _ _ _ (proj1 Hreg1)) | lia].
    rewrite Hscan. cbn [bind].
    destruct (Z.eqb_spec x NULL); [contradiction|]. cbn [negb].
    rewrite <- Hptr. rewrite <- (reuse_pointer s1 x).
    rewrite <- surjective_pairing. reflexivity. }
  exists s1, (fst (reuse s1 x)). split; [exact Hf|]. split; [exact Hm|].
  destruct (malloc_step (S fuel) heap s1 (fst (reuse s1 x)) (x :: fl) (l1 ++ l2)
                        n ptr Hmap (or_introl Hreg1) Hsize Hm Hn)
    as (fl' & (Hwf2 & _) & _).
  apply (live_block_intro _ fl' (x :: l1 ++ l2) x ptr Hwf2); [left; reflexivity | exact Ep].
Qed.

Lemma free_then_malloc_same_witness :
  exists s1 s2,
    free state_xyz 65648 = Ok s1 /\
    malloc 1 example_heap s1 (hsize (heap_mem state_xyz) (BLOCK_TO_HEADER 65648))
    = Ok (s2, 65648) /\
    live_block s2 65648.
Proof.
  apply (free_then_malloc_same 0 example_heap state_xyz 65648).
  - exact example_heap_ok.
  - exact good_run_xyz.
  - exact live_y_in_xyz.
Defined.

(** ** [realloc] that grows, [calloc] *)

Lemma memcpy_inside (m : mem) (dst src n a : Z) :
  dst <= a < dst + n -> memcpy m dst src n a = m (src + (a - dst)).
Proof.
  intros Ha. unfold memcpy.
  destruct (Z.leb_spec dst a); [|lia].
  destruct (Z.ltb_spec a (dst + n)); [reflexivity | lia].
Qed.

(** X10: in a run without failed allocations, a [realloc] of a live block
    to more than its recorded size that returns a block returns a live
    block other than the old one, of at least the requested size, whose
    first bytes are the contents of the old block; the old header is the
    head of the free list and marked free, with its size kept. *)
Theorem realloc_grow_copies (fuel : nat) (heap : Z) (s s' : state)
    (ptr size p : Z) :
  mapping_ok heap -> good_run heap s -> live_block s ptr ->
  hsize (heap_mem s) (BLOCK_TO_HEADER ptr) < size < 2 ^ 62 ->
  realloc fuel heap s ptr size = Ok (s', p) ->
  p <> NULL ->
  (p = ptr -> False) /\
  live_block s' p /\
  size <= hsize (heap_mem s') (BLOCK_TO_HEADER p) /\
  (forall i, 0 <= i < hsize (heap_mem s) (BLOCK_TO_HEADER ptr) ->
             heap_mem s' (p + i) = heap_mem s (ptr + i)) /\
  free_list_head s' = BLOCK_TO_HEADER ptr /\
  hallocated (heap_mem s') (BLOCK_TO_HEADER ptr) = false /\
  hsize (heap_mem s') (BLOCK_TO_HEADER ptr)
  = hsize (heap_mem s) (BLOCK_TO_HEADER ptr).
Proof.
  intros Hmap Hrun Hlive Hsize Hr Hp.
  destruct (good_run_region heap s Hmap Hrun) as (fl & al & Hok).
  destruct (live_block_region s fl al ptr Hok Hlive) as (Hreg & Hin & Ep & Hn).
  set (hp := BLOCK_TO_HEADER ptr) in *.
  set (n := hsize (heap_mem s) hp) in *.
  assert (HLp : In hp (fl ++ al)) by (apply in_or_app; right; exact Hin).
  pose proof (hsize_range (heap_mem s) hp) as Hnr. unfold is_word in Hnr. fold n in Hnr.
  unfold realloc in Hr. fold hp in Hr. fold n in Hr.
  destruct (Z.eqb_spec ptr NULL); [contradiction|].
  destruct (Z.eqb_spec size 0); [lia|].
  destruct (Z.leb_spec size n); [lia|].
  destruct (malloc fuel heap s size) as [[s1 q]| |] eqn:Em; try discriminate.
  cbn [bind] in Hr.
  destruct (Z.eqb_spec q NULL) as [Eq | Eq]; cbn [negb] in Hr.
  { injection Hr as _ E. exfalso. apply Hp. rewrite <- E. exact Eq. }
  destruct (malloc_step fuel heap s s1 fl al size q Hmap Hok ltac:(lia) Em Eq)
    as (fl' & Hreg1 & Eq32 & Hle & Hsz1 & Hpay1 & _).
  set (hq := BLOCK_TO_HEADER q) in *.
  assert (Hn1 : hsize (heap_mem s1) hp = n) by (apply Hsz1, HLp).
  rewrite Hn1 in Hr.
  set (m2 := memcpy (heap_mem s1) q ptr n) in *.
  assert (HLq : In hq (fl' ++ hq :: al)) by (apply in_or_app; right; left; reflexivity).
  assert (HLp1 : In hp (fl' ++ hq :: al)) by (apply in_or_app; right; right; exact Hin).
  destruct (payload_write_region s1 fl' (hq :: al) m2 hq Hreg1 HLq) as (Hreg2 & Hsz2).
  { intros a Ha. unfold m2. apply memcpy_outside.
    unfold block_end, sizeof_header in Ha. lia. }
  assert (Hinp2 : In hp (hq :: al)) by (right; exact Hin).
  destruct (free_step (with_mem s1 m2) fl' (hq :: al) ptr Hreg2 Hinp2 Hn)
    as (s3 & l1 & l2 & El & Hf & (Hwf3 & _) & Hsz3 & Hpay3 & Hhead & Hflag).
  fold hp in El, Hf, Hwf3, Hhead, Hflag.
  cbn [heap_mem with_mem] in Hsz3, Hpay3.
  rewrite Hf in Hr. cbn [bind] in Hr. injection Hr as Es Eqp. subst s' p. fold hq.
  assert (Hne : hq <> hp).
  { intros C. destruct Hreg1 as (Hwf1 & _).
    pose proof (wf_nodup _ _ _ Hwf1) as Hnd.
    apply NoDup_remove_2 in Hnd. apply Hnd. apply in_or_app. right.
    rewrite C. exact Hin. }
  split; [intros C; apply Hne; unfold hq, hp; rewrite C; reflexivity|].
  split.
  { apply (live_block_intro s3 (hp :: fl') (l1 ++ l2) hq q Hwf3); [|exact Eq32].
    apply (in_remove_middle l1 l2 hp hq); [rewrite <- El; left; reflexivity | exact Hne]. }
  split; [rewrite (Hsz3 hq HLq), (Hsz2 hq HLq); exact Hle|].
  split.
  { intros i Hi.
    rewrite (Hpay3 hq (q + i) HLq).
    - unfold m2. rewrite memcpy_inside by lia.
      replace (ptr + (q + i - q)) with (ptr + i) by lia.
      apply (Hpay1 hp (ptr + i) HLp).
      unfold block_end, sizeof_header. fold n. lia.
    - unfold block_end, sizeof_header. rewrite (Hsz2 hq HLq). lia. }
  split; [exact Hhead|]. split; [exact Hflag|].
  rewrite (Hsz3 hp HLp1), (Hsz2 hp HLp1). exact Hn1.
Qed.

Lemma realloc_grow_copies_witness :
  (65792 = 65584 -> False) /\
  live_block (after_realloc state_xyz_written 65584 30) 65792 /\
  30 <= hsize (heap_mem (after_realloc state_xyz_written 65584 30))
              (BLOCK_TO_HEADER 65792) /\
  (forall i, 0 <= i < hsize (heap_mem state_xyz_written) (BLOCK_TO_HEADER 65584) ->
             heap_mem (after_realloc state_xyz_written 65584 30) (65792 + i)
             = heap_mem state_xyz_written (65584 + i)) /\
  free_list_head (after_realloc state_xyz_written 65584 30) = BLOCK_TO_HEADER 65584 /\
  hallocated (heap_mem (after_realloc state_xyz_written 65584 30))
             (BLOCK_TO_HEADER 65584) = false /\
  hsize (heap_mem (after_realloc state_xyz_written 65584 30)) (BLOCK_TO_HEADER 65584)
  = hsize (heap_mem state_xyz_written) (BLOCK_TO_HEADER 65584).
Proof.
  apply (realloc_grow_copies 8 example_heap state_xyz_written
                             (after_realloc state_xyz_written 65584 30) 65584 30 65792).
  - exact example_heap_ok.
  - exact good_run_xyz_written.
  - exact live_x_in_xyz_written.
  - split; [apply Z.ltb_lt; vm_compute; reflexivity | rewrite two_62; lia].
  - reflexivity.
  - discriminate.
Defined.

(** The byte [7] that the client stored at [x] is the first byte of the
    block that [realloc(x, 30)] returns; before the call that byte of the
    region was [0]. *)
Example realloc_copies_written_byte :
  heap_mem state_xyz_written 65584 = 7 /\
  heap_mem state_xyz_written 65792 = 0 /\
  heap_mem (after_realloc state_xyz_written 65584 30) 65792 = 7.
Proof. repeat split; vm_compute; reflexivity. Qed.

(** X11: in a run without failed allocations, a [calloc] of a positive
    number of bytes that returns a block returns a live block of at least
    that size whose first [nmemb * size] bytes are zero; every block that
    was live before is another block, still live, with its size and its
    contents. *)
Theorem calloc_zeroed_block (fuel : nat) (heap : Z) (s s' : state)
    (nmemb size p : Z) :
  mapping_ok heap -> good_run heap s ->
  0 < uw (nmemb * size) < 2 ^ 62 ->
  calloc fuel heap s nmemb size = Ok (s', p) ->
  p <> NULL ->
  live_block s' p /\
  uw (nmemb * size) <= hsize (heap_mem s') (BLOCK_TO_HEADER p) /\
  (forall a, p <= a < p + uw (nmemb * size) -> heap_mem s' a = 0) /\
  (forall q, live_block s q ->
             (q = p -> False) /\ live_block s' q /\
             hsize (heap_mem s') (BLOCK_TO_HEADER q)
             = hsize (heap_mem s) (BLOCK_TO_HEADER q) /\
             (forall a, q <= a < q + hsize (heap_mem s) (BLOCK_TO_HEADER q) ->
                        heap_mem s' a = heap_mem s a)).
Proof.
  intros Hmap Hrun Hsize Hc Hp.
  destruct (good_run_region heap s Hmap Hrun) as (fl & al & Hok).
  set (total := uw (nmemb * size)) in *.
  unfold calloc in Hc. fold total in Hc.
  destruct (malloc fuel heap s total) as [[s1 q]| |] eqn:Em; try discriminate.
  cbn [bind] in Hc.
  destruct (Z.eqb_spec q NULL) as [Eq | Eq]; cbn [negb] in Hc.
  { injection Hc as _ E. exfalso. apply Hp. rewrite <- E. exact Eq. }
  injection Hc as Es Eqp. subst s' q.
  destruct (malloc_step fuel heap s s1 fl al total p Hmap Hok Hsize Em Hp)
    as (fl' & Hreg1 & Ep32 & Hle & Hsz1 & Hpay1 & _).
  set (hq := BLOCK_TO_HEADER p) in *.
  set (m2 := memset (heap_mem s1) p 0 total) in *.
  assert (HLq : In hq (fl' ++ hq :: al)) by (apply in_or_app; right; left; reflexivity).
  assert (Hout : forall a, a < hq + 32 \/ block_end (heap_mem s1) hq <= a ->
                           m2 a = heap_mem s1 a).
  { intros a Ha. unfold m2. apply memset_outside.
    unfold block_end, sizeof_header in Ha. lia. }
  destruct (payload_write_region s1 fl' (hq :: al) m2 hq Hreg1 HLq Hout)
    as ((Hwf2 & _) & Hsz2).
  cbn [heap_mem with_mem].
  split.
  { apply (live_block_intro _ fl' (hq :: al) hq p Hwf2); [left; reflexivity | exact Ep32]. }
  split; [rewrite (Hsz2 hq HLq); exact Hle|].
  split; [intros a Ha; unfold m2; rewrite memset_inside by exact Ha; reflexivity|].
  intros q Hq.
  destruct (live_block_region s fl al q Hok Hq) as (Hreg & Hinq & Eq32 & Hqn).
  set (h := BLOCK_TO_HEADER q) in *.
  assert (HL : In h (fl ++ al)) by (apply in_or_app; right; exact Hinq).
  assert (HL1 : In h (fl' ++ hq :: al)) by (apply in_or_app; right; right; exact Hinq).
  destruct Hreg1 as (Hwf1 & _).
  assert (Hne : hq <> h).
  { intros C. pose proof (wf_nodup _ _ _ Hwf1) as Hnd.
    apply NoDup_remove_2 in Hnd. apply Hnd. apply in_or_app. right.
    rewrite C. exact Hinq. }
  split; [intros C; apply Hne; unfold hq, h; rewrite C; reflexivity|].
  split.
  { apply (live_block_intro _ fl' (hq :: al) h q Hwf2); [right; exact Hinq | exact Eq32]. }
  split; [rewrite (Hsz2 h HL1); apply Hsz1, HL|].
  intros a Ha.
  rewrite Hout.
  - apply (Hpay1 h a HL). unfold block_end, sizeof_header. lia.
  - pose proof (Hsz1 h HL) as Hh.
    destruct (wf_apart _ _ _ Hwf1 hq h HLq HL1 Hne) as [C | C];
      unfold block_end, sizeof_header in *; lia.
Qed.

Lemma calloc_zeroed_block_witness :
  live_block (state_after (calloc 8 example_heap state_x_written_freed 3 8)
                          state_x_written_freed) 65584 /\
  uw (3 * 8)
  <= hsize (heap_mem (state_after (calloc 8 example_heap state_x_written_freed 3 8)
                                  state_x_written_freed))
           (BLOCK_TO_HEADER 65584) /\
  (forall a, 65584 <= a < 65584 + uw (3 * 8) ->
             heap_mem (state_after (calloc 8 example_heap state_x_written_freed 3 8)
                                   state_x_written_freed) a = 0) /\
  (forall q, live_block state_x_written_freed q ->
             (q = 65584 -> False) /\
             live_block (state_after (calloc 8 example_heap state_x_written_freed 3 8)
                                     state_x_written_freed) q /\
             hsize (heap_mem (state_after
                                (calloc 8 example_heap state_x_written_freed 3 8)
                                state_x_written_freed))
                   (BLOCK_TO_HEADER q)
             = hsize (heap_mem state_x_written_freed) (BLOCK_TO_HEADER q) /\
             (forall a, q <= a
                        < q + hsize (heap_mem state_x_written_freed) (BLOCK_TO_HEADER q) ->
                        heap_mem (state_after
                                    (calloc 8 example_heap state_x_written_freed 3 8)
                                    state_x_written_freed) a
                        = heap_mem state_x_written_freed a)).
Proof.
  apply (calloc_zeroed_block 8 example_heap state_x_written_freed
           (state_after (calloc 8 example_heap state_x_written_freed 3 8)
                        state_x_written_freed) 3 8 65584).
  - exact example_heap_ok.
  - exact good_run_x_written_freed.
  - split; [vm_compute; reflexivity | rewrite two_62; vm_compute; reflexivity].
  - reflexivity.
  - discriminate.
Defined.

(** After [x = malloc(24)], a store of [7] at [x] and [free(x)], the call
    [calloc(3, 8)] reuses the block, whose first byte is still [7], and
    clears it. *)
Example calloc_clears_written_block :
  heap_mem state_x_written_freed 65584 = 7 /\
  pointer_after (calloc 8 example_heap state_x_written_freed 3 8) = Some 65584 /\
  heap_mem (state_after (calloc 8 example_heap state_x_written_freed 3 8)
                        state_x_written_freed) 65584 = 0.
Proof. repeat split; vm_compute; reflexivity. Qed.

(** ** Calls as steps on the two lists *)

Lemma remove_split (l1 l2 : list Z) (b : Z) :
  NoDup (l1 ++ b :: l2) -> remove Z.eq_dec b (l1 ++ b :: l2) = l1 ++ l2.
Proof.
  intros Hnd. apply NoDup_remove_2 in Hnd.
  rewrite remove_app, remove_cons.
  rewrite !notin_remove; [reflexivity | |];
    intros C; apply Hnd; apply in_or_app; [right | left]; exact C.
Qed.

Lemma members_after_move (l1 l2 l : list Z) (b y : Z) :
  In y ((l1 ++ b :: l2) ++ l) -> In y ((l1 ++ l2) ++ b :: l).
Proof.
  rewrite ?in_app_iff. cbn [In]. rewrite ?in_app_iff. cbn [In]. tauto.
Qed.

Lemma members_after_free (l l1 l2 : list Z) (b y : Z) :
  In y (l ++ l1 ++ b :: l2) -> In y ((b :: l) ++ l1 ++ l2).
Proof.
  cbn [app In]. rewrite ?in_app_iff. cbn [In]. rewrite ?in_app_iff. tauto.
Qed.

Lemma header_of_block (s : state) (fl al : list Z) (h : Z) :
  heap_wf s fl al -> In h (fl ++ al) ->
  BLOCK_TO_HEADER (h + 32) = h /\ h + 32 <> NULL.
Proof.
  intros Hwf Hin.
  destruct (wf_member _ _ _ Hwf h Hin) as (Hpos & _ & _ & _ & Hw & _).
  split; [|unfold NULL; lia].
  unfold BLOCK_TO_HEADER, sizeof_header.
  replace (h + 32 - 32) with h by lia. apply uw_small, Hw.
Qed.

(** [malloc] when no block of the free list is large enough and the region
    has room: the bump path, with a new header. *)
Lemma step_bump (fuel : nat) (heap : Z) (s : state) (fl al : list Z) (size : Z) :
  mapping_ok heap -> region_ok s fl al -> (length fl < fuel)%nat ->
  0 < size < 2 ^ 62 ->
  Forall (fun x => hsize (heap_mem s) x < size) fl ->
  free_addr s + 48 + size <= end_addr s ->
  exists s' h,
    malloc fuel heap s size = Ok (s', h + 32) /\
    BLOCK_TO_HEADER (h + 32) = h /\
    region_ok s' fl (h :: al) /\
    ~ In h (fl ++ al) /\
    hsize (heap_mem s') h = size /\
    (forall y, In y (fl ++ al) -> hsize (heap_mem s') y = hsize (heap_mem s) y) /\
    free_addr s' <= free_addr s + 48 + size /\
    end_addr s' = end_addr s.
Proof.
  intros Hmap Hreg Hlen Hsize Hsmall Hroom.
  pose proof Hreg as (Hwf & _).
  pose proof (wf_cursor _ _ _ Hwf) as Hcur. pose proof (wf_end _ _ _ Hwf) as He.
  rewrite two_61 in He.
  assert (Hc : 0 <= free_addr s < half - 16) by (rewrite half_eq; lia).
  destruct (align_up_nonneg (free_addr s) Hc) as (_ & Hpad & _).
  assert (Hbh : bump_header s = align_up (free_addr s)).
  { unfold bump_header. apply uw_small. rewrite modulus_eq. lia. }
  assert (Hlow : start_addr s <= free_addr s) by apply Hreg.
  assert (Hm : malloc fuel heap s size = Ok (bump_stores s size)).
  { rewrite malloc_initialised;
      [| exact (wf_start _ _ _ Hwf) | lia].
    rewrite (scan_select (heap_mem s) size fl)
      by (try apply (wf_free_chain _ _ _ Hwf); try apply (wf_free_flags _ _ _ Hwf);
          exact Hlen).
    rewrite select_best_none;
      [| apply (path_nonnull _ _ _ _ (wf_free_chain _ _ _ Hwf)) | exact Hsmall].
    cbn [bind Z.eqb NULL negb]. apply bump_in_region; lia. }
  assert (Hb32 : HEADER_TO_BLOCK (bump_header s) = bump_header s + 32).
  { unfold HEADER_TO_BLOCK, sizeof_header. apply uw_small. rewrite modulus_eq. lia. }
  assert (Hsw : sw (HEADER_TO_BLOCK (bump_header s) + size) = bump_header s + 32 + size).
  { rewrite Hb32. apply sw_small. rewrite half_eq. rewrite two_62 in Hsize. lia. }
  assert (Hfit : sw (HEADER_TO_BLOCK (bump_header s) + size) <= end_addr s)
    by (rewrite Hsw; lia).
  destruct (bump_fits s size Hfit) as (Hp & Hfa).
  rewrite Hb32 in Hp. rewrite Hsw in Hfa.
  destruct (bump_frame s size) as (_ & Ge & _).
  rewrite (surjective_pairing (bump_stores s size)) in Hm. rewrite Hp in Hm.
  assert (Hpn : bump_header s + 32 <> NULL) by (unfold NULL; lia).
  destruct (malloc_step fuel heap s (fst (bump_stores s size)) fl al size (bump_header s + 32)
                        Hmap (or_introl Hreg) Hsize Hm Hpn)
    as (fl' & Hreg' & Eq & Hle & Hold & _ & Hpath).
  assert (Hh : BLOCK_TO_HEADER (bump_header s + 32) = bump_header s) by lia.
  rewrite Hh in *.
  exists (fst (bump_stores s size)), (bump_header s).
  split; [exact Hm|]. split; [exact Hh|].
  destruct Hpath as [(l1 & l2 & E & _) | (-> & Hnot & Hsz & _)].
  - exfalso.
    assert (Hin : In (bump_header s) fl) by (rewrite E; apply in_elt).
    rewrite Forall_forall in Hsmall. pose proof (Hsmall _ Hin) as Hlt.
    rewrite Hold in Hle by (apply in_or_app; left; exact Hin). lia.
  - split; [exact Hreg'|]. split; [exact Hnot|]. split; [exact Hsz|].
    split; [exact Hold|]. split; [rewrite Hfa; lia | exact Ge].
Qed.

(** [malloc] when the loop selects [b]: the reuse path. *)
Lemma step_reuse (fuel : nat) (heap : Z) (s : state) (fl al : list Z)
    (size b : Z) :
  mapping_ok heap -> region_ok s fl al -> (length fl < fuel)%nat ->
  0 < size < 2 ^ 62 ->
  select_best (heap_mem s) size fl NULL = b -> b <> NULL ->
  exists s',
    malloc fuel heap s size = Ok (s', b + 32) /\
    BLOCK_TO_HEADER (b + 32) = b /\
    In b fl /\
    region_ok s' (remove Z.eq_dec b fl) (b :: al) /\
    (forall y, In y (fl ++ al) -> In y (remove Z.eq_dec b fl ++ b :: al)) /\
    (forall y, In y (fl ++ al) -> hsize (heap_mem s') y = hsize (heap_mem s) y) /\
    free_addr s' = free_addr s /\
    end_addr s' = end_addr s.
Proof.
  intros Hmap Hreg Hlen Hsize Hsel Hb.
  pose proof Hreg as (Hwf & _).
  pose proof (path_nonnull _ _ _ _ (wf_free_chain _ _ _ Hwf)) as Hnn.
  assert (Hnull : NULL <> NULL -> size < hsize (heap_mem s) NULL)
    by (intros C; contradiction).
  assert (Hin : In b fl).
  { destruct (select_best_spec (heap_mem s) size fl NULL Hnull Hnn)
      as [(E & _) | (l1 & l2 & E & _)].
    - rewrite Hsel in E. contradiction.
    - rewrite Hsel in E. rewrite E. apply in_elt. }
  assert (HL : In b (fl ++ al)) by (apply in_or_app; left; exact Hin).
  destruct (header_of_block s fl al b Hwf HL) as (Hh & Hpn).
  destruct (wf_member _ _ _ Hwf b HL) as (Hpos & Hbel & _ & Hcur & Hw & _).
  assert (Hb32 : HEADER_TO_BLOCK b = b + 32).
  { unfold HEADER_TO_BLOCK, sizeof_header. apply uw_small.
    rewrite two_61 in Hcur. unfold is_word in Hw. rewrite modulus_eq in *. lia. }
  assert (Hm : malloc fuel heap s size = Ok (fst (reuse s b), b + 32)).
  { rewrite malloc_initialised;
      [| exact (wf_start _ _ _ Hwf) | lia].
    rewrite (scan_select (heap_mem s) size fl)
      by (try apply (wf_free_chain _ _ _ Hwf); try apply (wf_free_flags _ _ _ Hwf);
          exact Hlen).
    rewrite Hsel. cbn [bind].
    destruct (Z.eqb_spec b NULL); [contradiction|]. cbn [negb].
    rewrite <- Hb32. rewrite <- (reuse_pointer s b).
    rewrite <- surjective_pairing. reflexivity. }
  destruct (malloc_step fuel heap s (fst (reuse s b)) fl al size (b + 32)
                        Hmap (or_introl Hreg) Hsize Hm Hpn)
    as (fl' & Hreg' & _ & _ & Hold & _ & Hpath).
  rewrite Hh in *.
  destruct (reuse_globals s b) as (Gc & _ & Ge).
  exists (fst (reuse s b)).
  split; [exact Hm|]. split; [reflexivity|]. split; [exact Hin|].
  destruct Hpath as [(l1 & l2 & E & -> & _) | (_ & Hnot & _)]; [|contradiction].
  assert (Hrm : remove Z.eq_dec b fl = l1 ++ l2).
  { rewrite E. apply remove_split. rewrite <- E.
    apply (NoDup_app_remove_r _ _ (wf_nodup _ _ _ Hwf)). }
  rewrite Hrm.
  split; [exact Hreg'|].
  split; [intros y Hy; rewrite E in Hy; apply members_after_move, Hy|].
  split; [exact Hold|]. split; [exact Gc | exact Ge].
Qed.

(** [free] of the block of header [h] of the allocated list. *)
Lemma step_free (s : state) (fl al : list Z) (h : Z) :
  region_ok s fl al -> In h al ->
  exists s',
    free s (h + 32) = Ok s' /\
    region_ok s' (h :: fl) (remove Z.eq_dec h al) /\
    (forall y, In y (fl ++ al) -> In y ((h :: fl) ++ remove Z.eq_dec h al)) /\
    (forall y, In y (fl ++ al) -> hsize (heap_mem s') y = hsize (heap_mem s) y) /\
    free_addr s' = free_addr s /\
    end_addr s' = end_addr s.
Proof.
  intros Hreg Hin.
  pose proof Hreg as (Hwf & _).
  assert (HL : In h (fl ++ al)) by (apply in_or_app; right; exact Hin).
  destruct (header_of_block s fl al h Hwf HL) as (Hh & Hpn).
  rewrite <- Hh in Hin.
  destruct (free_step s fl al (h + 32) Hreg Hin Hpn)
    as (s' & l1 & l2 & El & Hf & Hreg' & Hsz & _).
  rewrite Hh in *.
  destruct (free_globals s s' (h + 32) Hf) as (Gc & _ & Ge).
  assert (Hrm : remove Z.eq_dec h al = l1 ++ l2).
  { rewrite El. apply remove_split. rewrite <- El.
    apply (NoDup_app_remove_l _ _ (wf_nodup _ _ _ Hwf)). }
  exists s'. rewrite Hrm.
  split; [exact Hf|]. split; [exact Hreg'|].
  split; [intros y Hy; rewrite El in Hy; apply members_after_free, Hy|].
  split; [exact Hsz|]. split; [exact Gc | exact Ge].
Qed.

(** [realloc] that has to grow a block, when no block of the free list is
    large enough and the region has room. *)
Lemma step_realloc_grow (fuel : nat) (heap : Z) (s : state) (fl al : list Z)
    (size h : Z) :
  mapping_ok heap -> region_ok s fl al -> (length fl < fuel)%nat ->
  In h al ->
  hsize (heap_mem s) h < size < 2 ^ 62 ->
  Forall (fun x => hsize (heap_mem s) x < size) fl ->
  free_addr s + 48 + size <= end_addr s ->
  exists s' h',
    realloc fuel heap s (h + 32) size = Ok (s', h' + 32) /\
    BLOCK_TO_HEADER (h' + 32) = h' /\
    ~ In h' (fl ++ al) /\
    region_ok s' (h :: fl) (h' :: remove Z.eq_dec h al) /\
    (forall y, In y (fl ++ al) -> In y ((h :: fl) ++ h' :: remove Z.eq_dec h al)) /\
    hsize (heap_mem s') h' = size /\
    (forall y, In y (fl ++ al) -> hsize (heap_mem s') y = hsize (heap_mem s) y) /\
    free_addr s' <= free_addr s + 48 + size /\
    end_addr s' = end_addr s.
Proof.
  intros Hmap Hreg Hlen Hin Hsize Hsmall Hroom.
  pose proof Hreg as (Hwf & _).
  assert (HL : In h (fl ++ al)) by (apply in_or_app; right; exact Hin).
  destruct (header_of_block s fl al h Hwf HL) as (Hh & Hpn).
  pose proof (hsize_range (heap_mem s) h) as Hr. unfold is_word in Hr.
  destruct (step_bump fuel heap s fl al size Hmap Hreg Hlen ltac:(lia) Hsmall Hroom)
    as (s1 & h' & Hm & Hh' & Hreg1 & Hnot & Hsz' & Hold & Hfa & Ge).
  pose proof Hreg1 as (Hwf1 & _).
  assert (HL' : In h' (fl ++ h' :: al)) by (apply in_or_app; right; left; reflexivity).
  destruct (header_of_block s1 fl (h' :: al) h' Hwf1 HL') as (_ & Hpn').
  set (m2 := memcpy (heap_mem s1) (h' + 32) (h + 32) (hsize (heap_mem s1) h)).
  assert (Hn1 : hsize (heap_mem s1) h = hsize (heap_mem s) h) by (apply Hold, HL).
  destruct (payload_write_region s1 fl (h' :: al) m2 h' Hreg1 HL') as (Hreg2 & Hsz2).
  { intros a Ha. unfold m2. apply memcpy_outside.
    unfold block_end, sizeof_header in Ha. lia. }
  assert (Hin2 : In h (h' :: al)) by (right; exact Hin).
  destruct (step_free (with_mem s1 m2) fl (h' :: al) h Hreg2 Hin2)
    as (s3 & Hf & Hreg3 & Hmem3 & Hsz3 & Gc3 & Ge3).
  cbn [heap_mem with_mem free_addr end_addr] in Hsz3, Gc3, Ge3.
  assert (Hne : h <> h').
  { intros C. apply Hnot. rewrite <- C. exact HL. }
  assert (Hrm : remove Z.eq_dec h (h' :: al) = h' :: remove Z.eq_dec h al).
  { cbn [remove]. destruct (Z.eq_dec h h'); [contradiction | reflexivity]. }
  rewrite Hrm in Hreg3, Hmem3.
  assert (Hup : forall y, In y (fl ++ al) -> In y (fl ++ h' :: al)).
  { intros y. rewrite ?in_app_iff. cbn [In]. tauto. }
  exists s3, h'.
  split.
  { unfold realloc. rewrite Hh.
    destruct (Z.eqb_spec (h + 32) NULL); [contradiction|].
    destruct (Z.eqb_spec size 0); [lia|].
    destruct (Z.leb_spec size (hsize (heap_mem s) h)); [lia|].
    rewrite Hm. cbn [bind].
    destruct (Z.eqb_spec (h' + 32) NULL); [contradiction|]. cbn [negb].
    fold m2. rewrite Hf. reflexivity. }
  split; [exact Hh'|]. split; [exact Hnot|]. split; [exact Hreg3|].
  split; [intros y Hy; apply Hmem3, Hup, Hy|].
  split; [rewrite (Hsz3 h' HL'), (Hsz2 h' HL'); exact Hsz'|].
  split.
  { intros y Hy. rewrite (Hsz3 y (Hup y Hy)), (Hsz2 y (Hup y Hy)). apply Hold, Hy. }
  split; [rewrite Gc3; exact Hfa | rewrite Ge3; exact Ge].
Qed.

(** The loop body on one header, case by case. *)
Lemma select_best_skip (m : mem) (size x best : Z) (l : list Z) :
  hsize m x < size -> best = NULL \/ size < hsize m best ->
  select_best m size (x :: l) best = select_best m size l best.
Proof.
  intros Hx Hb. cbn [select_best]. unfold improves, exact_fit.
  destruct (Z.leb_spec size (hsize m x)); [lia|].
  rewrite !andb_false_r. cbn [orb andb].
  destruct (Z.eqb_spec best NULL); [reflexivity|]. cbn [negb andb].
  destruct Hb as [C | Hb]; [contradiction|].
  destruct (Z.eqb_spec (hsize m best) size); [lia | reflexivity].
Qed.

Lemma select_best_take (m : mem) (size x best : Z) (l : list Z) :
  size < hsize m x -> best = NULL \/ hsize m x < hsize m best ->
  select_best m size (x :: l) best = select_best m size l x.
Proof.
  intros Hx Hb. cbn [select_best]. unfold improves, exact_fit.
  destruct (Z.leb_spec size (hsize m x)); [|lia].
  assert (E : (best =? NULL) && true
              || negb (best =? NULL) && true && (hsize m x <? hsize m best) = true).
  { destruct (Z.eqb_spec best NULL); [reflexivity|]. cbn [negb andb orb].
    destruct Hb as [C | Hb]; [contradiction|]. apply Z.ltb_lt, Hb. }
  rewrite E.
  destruct (Z.eqb_spec (hsize m x) size); [lia|].
  rewrite andb_false_r. reflexivity.
Qed.

(** ** The demonstration program *)

Lemma memtest_from_fresh : memtest_from 8 example_heap initial_state = Ok memtest.
Proof. vm_compute. reflexivity. Qed.

Lemma malloc_after_init (fuel : nat) (heap : Z) (s s0 : state) (size : Z) :
  init heap s = Ok s0 -> start_addr s0 <> 0 ->
  malloc fuel heap s size = malloc fuel heap s0 size.
Proof.
  intros Hi Hs. unfold malloc. rewrite Hi, (init_initialised heap s0 Hs). reflexivity.
Qed.

Lemma chain_null (m : mem) (l : list Z) : chain m NULL l -> l = [].
Proof. intros Hc. apply (chain_unique m l [] NULL Hc). reflexivity. Qed.

Lemma in_app_right (l l' : list Z) (y : Z) :
  In y (l ++ l') -> ~ In y l -> In y l'.
Proof.
  intros H Hn. apply in_app_or in H. destruct H as [H | H]; [contradiction | exact H].
Qed.

Ltac members := cbn [app In]; auto 10.

(** X12: the demonstration program does what its messages announce.  From a
    state of a run without failed allocations whose free list is empty and
    whose region has 512 free bytes (or is not yet mapped), and with fuel
    for a free list of three headers, all calls complete and the pointers
    printed are [x; y; z; a; b; c; d; e] with [a = x], [b] a new block,
    [c = x], [d = x] and [e = z]. *)
Theorem memtest_announced (fuel : nat) (heap : Z) (s : state) :
  mapping_ok heap -> good_run heap s ->
  free_list_head s = NULL ->
  start_addr s = 0 \/ free_addr s + 512 <= end_addr s ->
  (3 < fuel)%nat ->
  exists x y z b,
    memtest_from fuel heap s = Ok [x; y; z; x; b; x; x; z] /\
    NoDup [x; y; z; b] /\ ~ In NULL [x; y; z; b].
Proof.
  intros Hmap Hrun Hfree Hroom Hfuel.
  destruct (good_run_region heap s Hmap Hrun) as (fl & al & Hok).
  assert (Efl : fl = []).
  { destruct Hok as [(Hwf & _) | (_ & _ & _ & E & _)]; [|exact E].
    pose proof (wf_free_chain _ _ _ Hwf) as Hc. rewrite Hfree in Hc.
    apply (chain_null _ _ Hc). }
  subst fl.
  destruct (init_region heap s [] al Hmap Hok) as (s0 & Hi & Hreg0 & Hmem0 & Hsame).
  pose proof Hreg0 as (Hwf0 & Hlow0 & Hend0 & _).
  assert (Hroom0 : free_addr s0 + 512 <= end_addr s0).
  { destruct (init_globals heap s s0 Hi) as (_ & _ & _ & _ & Hfirst).
    destruct (Z.eq_dec (start_addr s) 0) as [E | E].
    - destruct (Hfirst E) as (E1 & E2 & _). rewrite Hend0, E1, E2, HEAP_SIZE_eq. lia.
    - rewrite (Hsame E). destruct Hroom as [C | H]; [contradiction | exact H]. }
  assert (Hlen0 : (length (@nil Z) < fuel)%nat) by (simpl; lia).
  assert (Hlen1 : (length [0] < fuel)%nat) by (simpl; lia).
  assert (Hlen2 : (length [0; 0] < fuel)%nat) by (simpl; lia).
  assert (Hlen3 : (length [0; 0; 0] < fuel)%nat) by (simpl; lia).
  (* x = malloc(24), y = malloc(19), z = malloc(32) *)
  destruct (step_bump fuel heap s0 [] al 24 Hmap Hreg0 Hlen0
                      ltac:(rewrite two_62; lia) (Forall_nil _) ltac:(lia))
    as (s1 & hx & Hm1 & Bx & Hreg1 & Nx & Sx1 & _ & Hfa1 & He1).
  rewrite <- (malloc_after_init fuel heap s s0 24 Hi (wf_start _ _ _ Hwf0)) in Hm1.
  destruct (step_bump fuel heap s1 [] (hx :: al) 19 Hmap Hreg1 Hlen0
                      ltac:(rewrite two_62; lia) (Forall_nil _) ltac:(lia))
    as (s2 & hy & Hm2 & By & Hreg2 & Ny & Sy2 & Hold2 & Hfa2 & He2).
  destruct (step_bump fuel heap s2 [] (hy :: hx :: al) 32 Hmap Hreg2 Hlen0
                      ltac:(rewrite two_62; lia) (Forall_nil _) ltac:(lia))
    as (s3 & hz & Hm3 & Bz & Hreg3 & Nz & Sz3 & Hold3 & Hfa3 & He3).
  assert (Hxy : hy <> hx) by (intros C; apply Ny; left; symmetry; exact C).
  assert (Hzy : hz <> hy) by (intros C; apply Nz; left; symmetry; exact C).
  assert (Hzx : hz <> hx) by (intros C; apply Nz; right; left; symmetry; exact C).
  set (al3 := hz :: hy :: hx :: al) in *.
  assert (Mx3 : In hx ([] ++ al3)) by (unfold al3; members).
  assert (My3 : In hy ([] ++ al3)) by (unfold al3; members).
  assert (Mz3 : In hz ([] ++ al3)) by (unfold al3; members).
  assert (Sx3 : hsize (heap_mem s3) hx = 24).
  { rewrite Hold3 by members. rewrite Hold2 by members. exact Sx1. }
  assert (Sy3 : hsize (heap_mem s3) hy = 19).
  { rewrite Hold3 by members. exact Sy2. }
  pose proof Hreg3 as (Hwf3 & _).
  destruct (header_of_block s3 [] al3 hx Hwf3 Mx3) as (_ & Xn).
  destruct (header_of_block s3 [] al3 hy Hwf3 My3) as (_ & Yn).
  destruct (header_of_block s3 [] al3 hz Hwf3 Mz3) as (_ & Zn).
  (* a = realloc(x, 20) *)
  assert (Hr4 : realloc fuel heap s3 (hx + 32) 20 = Ok (s3, hx + 32)).
  { unfold realloc. rewrite Bx, Sx3.
    destruct (Z.eqb_spec (hx + 32) NULL); [contradiction | reflexivity]. }
  (* b = realloc(x, 30) *)
  destruct (step_realloc_grow fuel heap s3 [] al3 30 hx Hmap Hreg3 Hlen0
              ltac:(unfold al3; members)
              ltac:(rewrite Sx3, two_62; lia) (Forall_nil _) ltac:(lia))
    as (s5 & hb & Hr5 & Bb & Nb & Hreg5 & Hmem5 & Sb5 & Hold5 & Hfa5 & He5).
  assert (Hbx : hb <> hx) by (intros C; apply Nb; rewrite C; exact Mx3).
  assert (Hby : hb <> hy) by (intros C; apply Nb; rewrite C; exact My3).
  assert (Hbz : hb <> hz) by (intros C; apply Nb; rewrite C; exact Mz3).
  set (al5 := hb :: remove Z.eq_dec hx al3) in *.
  assert (Sx5 : hsize (heap_mem s5) hx = 24) by (rewrite Hold5 by exact Mx3; exact Sx3).
  assert (Sy5 : hsize (heap_mem s5) hy = 19) by (rewrite Hold5 by exact My3; exact Sy3).
  assert (Sz5 : hsize (heap_mem s5) hz = 32) by (rewrite Hold5 by exact Mz3; exact Sz3).
  pose proof (Hmem5 _ Mx3) as Mx5. pose proof (Hmem5 _ My3) as My5.
  pose proof (Hmem5 _ Mz3) as Mz5.
  pose proof Hreg5 as (Hwf5 & _).
  destruct (header_of_block s5 [hx] al5 hb Hwf5 ltac:(unfold al5; members)) as (_ & Bn).
  destruct (wf_member _ _ _ Hwf5 hx Mx5) as (_ & _ & _ & _ & _ & Hxn).
  (* c = malloc(19) *)
  assert (Hsel6 : select_best (heap_mem s5) 19 [hx] NULL = hx).
  { rewrite select_best_take; [reflexivity | lia | left; reflexivity]. }
  destruct (step_reuse fuel heap s5 [hx] al5 19 hx Hmap Hreg5 Hlen1
                       ltac:(rewrite two_62; lia) Hsel6 Hxn)
    as (s6 & Hm6 & _ & _ & Hreg6 & Hmem6 & Hold6 & _ & _).
  assert (R6 : remove Z.eq_dec hx [hx] = []).
  { cbn [remove]. destruct (Z.eq_dec hx hx); [reflexivity | contradiction]. }
  rewrite R6 in Hreg6, Hmem6.
  pose proof (Hmem6 _ Mx5) as Mx6. pose proof (Hmem6 _ My5) as My6.
  pose proof (Hmem6 _ Mz5) as Mz6.
  (* free(c), free(y), free(z) *)
  destruct (step_free s6 [] (hx :: al5) hx Hreg6 ltac:(left; reflexivity))
    as (s7 & Hf7 & Hreg7 & Hmem7 & Hold7 & _).
  set (al7 := remove Z.eq_dec hx (hx :: al5)) in *.
  pose proof (Hmem7 _ Mx6) as Mx7. pose proof (Hmem7 _ My6) as My7.
  pose proof (Hmem7 _ Mz6) as Mz7.
  assert (Iy7 : In hy al7).
  { apply (in_app_right _ _ _ My7). cbn [In]. intros [C | []].
    apply Hxy. symmetry. exact C. }
  destruct (step_free s7 [hx] al7 hy Hreg7 Iy7)
    as (s8 & Hf8 & Hreg8 & Hmem8 & Hold8 & _).
  set (al8 := remove Z.eq_dec hy al7) in *.
  pose proof (Hmem8 _ Mx7) as Mx8. pose proof (Hmem8 _ My7) as My8.
  pose proof (Hmem8 _ Mz7) as Mz8.
  assert (Iz8 : In hz al8).
  { apply (in_app_right _ _ _ Mz8). cbn [In].
    intros [C | [C | []]]; [apply Hzy | apply Hzx]; symmetry; exact C. }
  destruct (step_free s8 [hy; hx] al8 hz Hreg8 Iz8)
    as (s9 & Hf9 & Hreg9 & Hmem9 & Hold9 & _).
  set (al9 := remove Z.eq_dec hz al8) in *.
  pose proof (Hmem9 _ Mx8) as Mx9. pose proof (Hmem9 _ My8) as My9.
  pose proof (Hmem9 _ Mz8) as Mz9.
  assert (Sx9 : hsize (heap_mem s9) hx = 24).
  { rewrite Hold9 by exact Mx8. rewrite Hold8 by exact Mx7.
    rewrite Hold7 by exact Mx6. rewrite Hold6 by exact Mx5. exact Sx5. }
  assert (Sy9 : hsize (heap_mem s9) hy = 19).
  { rewrite Hold9 by exact My8. rewrite Hold8 by exact My7.
    rewrite Hold7 by exact My6. rewrite Hold6 by exact My5. exact Sy5. }
  assert (Sz9 : hsize (heap_mem s9) hz = 32).
  { rewrite Hold9 by exact Mz8. rewrite Hold8 by exact Mz7.
    rewrite Hold7 by exact Mz6. rewrite Hold6 by exact Mz5. exact Sz5. }
  (* d = malloc(23) *)
  assert (Hsel10 : select_best (heap_mem s9) 23 [hz; hy; hx] NULL = hx).
  { rewrite select_best_take by (try lia; left; reflexivity).
    rewrite select_best_skip by (try lia; right; lia).
    rewrite select_best_take by (try lia; right; lia).
    reflexivity. }
  destruct (step_reuse fuel heap s9 [hz; hy; hx] al9 23 hx Hmap Hreg9 Hlen3
                       ltac:(rewrite two_62; lia) Hsel10 Hxn)
    as (s10 & Hm10 & _ & _ & Hreg10 & Hmem10 & Hold10 & _ & _).
  assert (R10 : remove Z.eq_dec hx [hz; hy; hx] = [hz; hy]).
  { cbn [remove]. destruct (Z.eq_dec hx hz) as [C | _]; [symmetry in C; contradiction|].
    destruct (Z.eq_dec hx hy) as [C | _]; [symmetry in C; contradiction|].
    destruct (Z.eq_dec hx hx); [reflexivity | contradiction]. }
  rewrite R10 in Hreg10, Hmem10.
  assert (Sy10 : hsize (heap_mem s10) hy = 19) by (rewrite Hold10 by exact My9; exact Sy9).
  assert (Sz10 : hsize (heap_mem s10) hz = 32) by (rewrite Hold10 by exact Mz9; exact Sz9).
  pose proof Hreg10 as (Hwf10 & _).
  destruct (wf_member _ _ _ Hwf10 hz (Hmem10 _ Mz9)) as (_ & _ & _ & _ & _ & Hzn).
  (* e = malloc(22) *)
  assert (Hsel11 : select_best (heap_mem s10) 22 [hz; hy] NULL = hz).
  { rewrite select_best_take by (try lia; left; reflexivity).
    rewrite select_best_skip by (try lia; right; lia).
    reflexivity. }
  destruct (step_reuse fuel heap s10 [hz; hy] (hx :: al9) 22 hz Hmap Hreg10 Hlen2
                       ltac:(rewrite two_62; lia) Hsel11 Hzn)
    as (s11 & Hm11 & _).
  exists (hx + 32), (hy + 32), (hz + 32), (hb + 32).
  split.
  { unfold memtest_from.
    rewrite Hm1. cbn [bind]. rewrite Hm2. cbn [bind]. rewrite Hm3. cbn [bind].
    rewrite Hr4. cbn [bind]. rewrite Hr5. cbn [bind]. rewrite Hm6. cbn [bind].
    rewrite Hf7. cbn [bind]. rewrite Hf8. cbn [bind]. rewrite Hf9. cbn [bind].
    rewrite Hm10. cbn [bind]. rewrite Hm11. reflexivity. }
  split.
  - repeat constructor; cbn [In]; lia.
  - cbn [In]. intros [C | [C | [C | [C | []]]]]; contradiction.
Qed.

Lemma memtest_announced_witness :
  exists x y z b,
    memtest_from 8 example_heap initial_state = Ok [x; y; z; x; b; x; x; z] /\
    NoDup [x; y; z; b] /\ ~ In NULL [x; y; z; b].
Proof.
  apply (memtest_announced 8 example_heap initial_state).
  - exact example_heap_ok.
  - apply run_start.
  - reflexivity.
  - left. reflexivity.
  - lia.
Defined.

(** ** [malloc] with room, [realloc] to size zero *)

(** X13: in a run without failed allocations on a mapped region, a
    [malloc] of a positive size completes with a live block whenever the
    region has room for the padding, the header and the block behind the
    cursor (48 bytes and the size): [NULL] is returned only for lack of
    room. *)
Theorem malloc_succeeds_with_room (fuel : nat) (heap : Z) (s : state)
    (size : Z) (fl : list Z) :
  mapping_ok heap -> good_run heap s ->
  start_addr s <> 0 ->
  0 < size < 2 ^ 62 ->
  chain (heap_mem s) (free_list_head s) fl ->
  (length fl < fuel)%nat ->
  free_addr s + 48 + size <= end_addr s ->
  exists s' p,
    malloc fuel heap s size = Ok (s', p) /\
    (p = NULL -> False) /\
    live_block s' p /\
    size <= hsize (heap_mem s') (BLOCK_TO_HEADER p) /\
    free_addr s' <= free_addr s + 48 + size.
Proof.
  intros Hmap Hrun Hstart Hsize Hc Hlen Hroom.
  destruct (good_run_region heap s Hmap Hrun) as (fl0 & al & Hok).
  destruct Hok as [Hreg | (C & _)]; [|contradiction].
  pose proof Hreg as (Hwf & _).
  assert (E : fl = fl0) by (apply (chain_unique _ _ _ _ Hc (wf_free_chain _ _ _ Hwf))).
  subst fl0.
  pose proof (path_nonnull _ _ _ _ Hc) as Hnn.
  assert (Hnull : NULL <> NULL -> size < hsize (heap_mem s) NULL)
    by (intros C; contradiction).
  destruct (Z.eq_dec (select_best (heap_mem s) size fl NULL) NULL) as [Eb | Eb].
  - assert (Hsmall : Forall (fun x => hsize (heap_mem s) x < size) fl).
    { destruct (select_best_spec (heap_mem s) size fl NULL Hnull Hnn)
        as [(_ & HF) | (l1 & l2 & E & _)].
      - rewrite Forall_forall in HF |- *. intros x Hx.
        destruct (Z_lt_le_dec (hsize (heap_mem s) x) size) as [H | H]; [exact H|].
        destruct (HF x Hx H) as (C & _). exfalso. apply C. reflexivity.
      - exfalso. rewrite Eb in E. rewrite Forall_forall in Hnn.
        apply (Hnn NULL); [rewrite E; apply in_elt | reflexivity]. }
    destruct (step_bump fuel heap s fl al size Hmap Hreg Hlen Hsize Hsmall Hroom)
      as (s' & h & Hm & Bh & (Hwf' & _) & _ & Sh & _ & Hfa & _).
    assert (HL : In h (fl ++ h :: al)) by apply in_elt.
    destruct (header_of_block s' fl (h :: al) h Hwf' HL) as (_ & Hpn).
    exists s', (h + 32). rewrite Bh.
    split; [exact Hm|]. split; [exact Hpn|].
    split; [apply (live_block_intro s' fl (h :: al) h (h + 32) Hwf');
            [left; reflexivity | reflexivity]|].
    split; [lia | exact Hfa].
  - set (b := select_best (heap_mem s) size fl NULL) in *.
    destruct (step_reuse fuel heap s fl al size b Hmap Hreg Hlen Hsize eq_refl Eb)
      as (s' & Hm & Bh & Hin & (Hwf' & _) & _ & Hold & Gc & _).
    assert (HL : In b (fl ++ al)) by (apply in_or_app; left; exact Hin).
    destruct (header_of_block s fl al b Hwf HL) as (_ & Hpn).
    assert (Hfit : size <= hsize (heap_mem s) b).
    { destruct (select_best_spec (heap_mem s) size fl NULL Hnull Hnn)
        as [(E & _) | (l1 & l2 & _ & Hle & _)]; [contradiction | exact Hle]. }
    exists s', (b + 32). rewrite Bh.
    split; [exact Hm|]. split; [exact Hpn|].
    split; [apply (live_block_intro s' (remove Z.eq_dec b fl) (b :: al) b (b + 32) Hwf');
            [left; reflexivity | reflexivity]|].
    split; [rewrite (Hold b HL); exact Hfit | lia].
Qed.

Lemma malloc_succeeds_with_room_witness :
  exists s' p,
    malloc 4 example_heap state_three_free 40 = Ok (s', p) /\
    (p = NULL -> False) /\
    live_block s' p /\
    40 <= hsize (heap_mem s') (BLOCK_TO_HEADER p) /\
    free_addr s' <= free_addr state_three_free + 48 + 40.
Proof.
  apply (malloc_succeeds_with_room 4 example_heap state_three_free 40
                                   [65552; 65616; 65680]).
  - exact example_heap_ok.
  - exact good_run_three_free.
  - vm_compute. discriminate.
  - run_size.
  - unfold chain. cbn [path].
    repeat split; vm_compute; (reflexivity || discriminate).
  - simpl. lia.
  - apply Z.leb_le. vm_compute. reflexivity.
Defined.

(** X14: in a run without failed allocations, [realloc(ptr, 0)] of a live
    block releases it and returns [NULL]: the state is the one [free(ptr)]
    leaves, with the header at the head of the free list and marked free
    and the cursor where it was; a second [realloc(ptr, 0)] ends in the
    double-free error. *)
Theorem realloc_zero_releases (fuel : nat) (heap : Z) (s : state) (ptr : Z) :
  mapping_ok heap -> good_run heap s -> live_block s ptr ->
  exists s',
    realloc fuel heap s ptr 0 = Ok (s', NULL) /\
    free s ptr = Ok s' /\
    free_list_head s' = BLOCK_TO_HEADER ptr /\
    hallocated (heap_mem s') (BLOCK_TO_HEADER ptr) = false /\
    free_addr s' = free_addr s /\
    realloc fuel heap s' ptr 0 = Fatal (DoubleFree (BLOCK_TO_HEADER ptr)).
Proof.
  intros Hmap Hrun Hp.
  destruct (good_run_region heap s Hmap Hrun) as (fl & al & Hok).
  destruct (live_block_region s fl al ptr Hok Hp) as (Hreg & Hin & _ & Hn).
  destruct (free_step s fl al ptr Hreg Hin Hn)
    as (s' & l1 & l2 & _ & Hf & _ & _ & _ & Hhead & Hflag).
  destruct (free_globals s s' ptr Hf) as (Gc & _).
  exists s'.
  assert (Hz : forall t, realloc fuel heap t ptr 0 = (s1 <- free t ptr ;; Ok (s1, NULL))).
  { intros t. unfold realloc.
    destruct (Z.eqb_spec ptr NULL); [contradiction | reflexivity]. }
  split; [rewrite Hz, Hf; reflexivity|].
  split; [exact Hf|]. split; [exact Hhead|]. split; [exact Hflag|].
  split; [exact Gc|].
  rewrite Hz, (free_not_allocated s' ptr Hn Hflag). reflexivity.
Qed.

Lemma realloc_zero_releases_witness :
  exists s',
    realloc 1 example_heap state_xyz 65648 0 = Ok (s', NULL) /\
    free state_xyz 65648 = Ok s' /\
    free_list_head s' = BLOCK_TO_HEADER 65648 /\
    hallocated (heap_mem s') (BLOCK_TO_HEADER 65648) = false /\
    free_addr s' = free_addr state_xyz /\
    realloc 1 example_heap s' 65648 0 = Fatal (DoubleFree (BLOCK_TO_HEADER 65648)).
Proof.
  apply (realloc_zero_releases 1 example_heap state_xyz 65648).
  - exact example_heap_ok.
  - exact good_run_xyz.
  - exact live_y_in_xyz.
Defined.
